(** * wined3d buffers: residency, dirty ranges and vertex conversion

    A shallow embedding of [dlls/wined3d/buffer.c].  A buffer is a record
    that is passed through every function of the file; the device context
    is a second record holding what the collaborators outside the file
    answer (allocation results, the address of a buffer-object mapping)
    and a log of the calls made to them.  32-bit C integers are [Z] with
    the wrap-around written out. *)

From Stdlib Require Import ZArith List Bool Lia.
From Stdlib Require Import Floats.SpecFloat.
From stdpp Require Import base list.

#[local] Open Scope Z_scope.

(** ** Machine integers and flag tests *)

Definition u32 (x : Z) : Z := x mod 2 ^ 32.

(** [LONG]: 32-bit two's complement. *)
Definition s32 (x : Z) : Z := (x + 2 ^ 31) mod 2 ^ 32 - 2 ^ 31.

(** C's [~x] on a 32-bit unsigned operand. *)
Definition not32 (x : Z) : Z := Z.land (Z.lnot x) 0xffffffff.

(** C's [if (x & mask)]. *)
Definition test (x mask : Z) : bool := negb (Z.land x mask =? 0).

(** ** Constants of buffer.c *)

Definition WINED3D_BUFFER_HASDESC : Z := 0x01.
Definition WINED3D_BUFFER_USE_BO : Z := 0x02.

Definition VB_MAXDECLCHANGES : Z := 100.
Definition VB_RESETDECLCHANGE : Z := 1000.
Definition VB_MAXFULLCONVERSIONS : Z := 5.
Definition VB_RESETFULLCONVS : Z := 20.

Definition SB_MIN_SIZE : Z := 512 * 1024.

Definition WINED3D_BUFFER_FIXUP_D3DCOLOR : Z := 0x01.
Definition WINED3D_BUFFER_FIXUP_XYZRHW : Z := 0x02.

(** ** Constants of the wined3d headers

    The headers are not part of the sources under study; the values below
    are those of wined3d.h and wined3d_private.h.  The development only
    relies on the locations, the map flags and the usage flags being
    distinct single bits. *)

Definition WINED3D_LOCATION_DISCARDED : Z := 0x01.
Definition WINED3D_LOCATION_SYSMEM : Z := 0x02.
Definition WINED3D_LOCATION_CLEARED : Z := 0x04.
Definition WINED3D_LOCATION_BUFFER : Z := 0x08.

Definition WINED3D_MAP_READ : Z := 0x01.
Definition WINED3D_MAP_WRITE : Z := 0x02.
Definition WINED3D_MAP_NOOVERWRITE : Z := 0x1000.
Definition WINED3D_MAP_DISCARD : Z := 0x2000.

Definition WINED3DUSAGE_DYNAMIC : Z := 0x00000200.
Definition WINED3DUSAGE_STATICDECL : Z := 0x04000000.
Definition WINED3DUSAGE_MANAGED : Z := 0x20000000.

Definition WINED3D_BIND_VERTEX_BUFFER : Z := 0x01.
Definition WINED3D_BIND_CONSTANT_BUFFER : Z := 0x04.
Definition WINED3D_BIND_STREAM_OUTPUT : Z := 0x10.
Definition WINED3D_RESOURCE_ACCESS_GPU : Z := 0x01.
Definition WINED3D_RESOURCE_ACCESS_MAP_W : Z := 0x08.
Definition WINED3D_CONSTANT_BUFFER_ALIGNMENT : Z := 16.
Definition RESOURCE_ALIGNMENT : Z := 16.

Definition WINED3D_FFP_POSITION : Z := 0.
Definition WINED3D_FFP_BLENDWEIGHT : Z := 1.
Definition WINED3D_FFP_BLENDINDICES : Z := 2.
Definition WINED3D_FFP_NORMAL : Z := 3.
Definition WINED3D_FFP_DIFFUSE : Z := 5.
Definition WINED3D_FFP_SPECULAR : Z := 6.
Definition WINED3D_FFP_TEXCOORD0 : Z := 7.
Definition WINED3D_FFP_TEXCOORD1 : Z := 8.
Definition WINED3D_FFP_TEXCOORD2 : Z := 9.
Definition WINED3D_FFP_TEXCOORD3 : Z := 10.
Definition WINED3D_FFP_TEXCOORD4 : Z := 11.
Definition WINED3D_FFP_TEXCOORD5 : Z := 12.
Definition WINED3D_FFP_TEXCOORD6 : Z := 13.
Definition WINED3D_FFP_TEXCOORD7 : Z := 14.

Inductive HRESULT : Set :=
| WINED3D_OK            (* also S_OK *)
| E_INVALIDARG
| E_OUTOFMEMORY
| WINED3DERR_INVALIDCALL.

Definition SUCCEEDED (hr : HRESULT) : bool :=
  match hr with WINED3D_OK => true | _ => false end.

(** ** Data model *)

Inductive wined3d_buffer_conversion_type : Set :=
| CONV_NONE
| CONV_D3DCOLOR
| CONV_POSITIONT.

Definition conversion_type_eqb (a b : wined3d_buffer_conversion_type) : bool :=
  match a, b with
  | CONV_NONE, CONV_NONE | CONV_D3DCOLOR, CONV_D3DCOLOR
  | CONV_POSITIONT, CONV_POSITIONT => true
  | _, _ => false
  end.

Record wined3d_range : Set := mk_range { range_offset : Z; range_size : Z }.

Record wined3d_box : Set := mk_box { left : Z; right : Z }.

(** The three tables of buffer operations defined in the file. *)
Inductive wined3d_buffer_ops : Set :=
| wined3d_buffer_no3d_ops
| wined3d_buffer_gl_ops
| wined3d_buffer_vk_ops.

(** The part of [struct wined3d_resource] the file reads and writes.
    Memory is a list of bytes, a null pointer is [None]. *)
Record wined3d_resource : Type := mk_resource {
  size : Z;
  usage : Z;
  bind_flags : Z;
  access : Z;
  pin_sysmem : bool;
  heap_memory : option (list Z);
  map_count : Z;                       (* LONG *)
}.

(** [struct wined3d_buffer].  [maps] holds the first [modified_areas]
    entries of the C array, so [modified_areas] is [length maps];
    [maps_size] is the capacity of the array.  [buffer_object] is the
    storage of the device buffer object, [map_ptr] an address (0 is
    NULL).  The list of users of the buffer object is not modelled. *)
Record wined3d_buffer : Type := mk_buffer {
  resource : wined3d_resource;
  buffer_ops : wined3d_buffer_ops;
  structure_byte_stride : Z;
  flags : Z;
  locations : Z;
  map_ptr : Z;
  buffer_object : option (list Z);
  maps : list wined3d_range;
  maps_size : Z;
  decl_change_count : Z;
  full_conversion_count : Z;
  draw_count : Z;
  stride : Z;
  conversion_map : option (list wined3d_buffer_conversion_type);
  conversion_stride : Z;
}.

Definition modified_areas (buffer : wined3d_buffer) : Z :=
  Z.of_nat (length (maps buffer)).

(** *** Field updates *)

Definition set_pin_sysmem (v : bool) (r : wined3d_resource) : wined3d_resource :=
  mk_resource (size r) (usage r) (bind_flags r) (access r) v (heap_memory r) (map_count r).
Definition set_heap_memory (v : option (list Z)) (r : wined3d_resource) : wined3d_resource :=
  mk_resource (size r) (usage r) (bind_flags r) (access r) (pin_sysmem r) v (map_count r).
Definition set_map_count (v : Z) (r : wined3d_resource) : wined3d_resource :=
  mk_resource (size r) (usage r) (bind_flags r) (access r) (pin_sysmem r) (heap_memory r) v.

Definition set_resource (v : wined3d_resource) (b : wined3d_buffer) : wined3d_buffer :=
  mk_buffer v (buffer_ops b) (structure_byte_stride b) (flags b) (locations b)
    (map_ptr b) (buffer_object b) (maps b) (maps_size b) (decl_change_count b)
    (full_conversion_count b) (draw_count b) (stride b) (conversion_map b)
    (conversion_stride b).
Definition set_flags (v : Z) (b : wined3d_buffer) : wined3d_buffer :=
  mk_buffer (resource b) (buffer_ops b) (structure_byte_stride b) v (locations b)
    (map_ptr b) (buffer_object b) (maps b) (maps_size b) (decl_change_count b)
    (full_conversion_count b) (draw_count b) (stride b) (conversion_map b)
    (conversion_stride b).
Definition set_locations (v : Z) (b : wined3d_buffer) : wined3d_buffer :=
  mk_buffer (resource b) (buffer_ops b) (structure_byte_stride b) (flags b) v
    (map_ptr b) (buffer_object b) (maps b) (maps_size b) (decl_change_count b)
    (full_conversion_count b) (draw_count b) (stride b) (conversion_map b)
    (conversion_stride b).
Definition set_map_ptr (v : Z) (b : wined3d_buffer) : wined3d_buffer :=
  mk_buffer (resource b) (buffer_ops b) (structure_byte_stride b) (flags b) (locations b)
    v (buffer_object b) (maps b) (maps_size b) (decl_change_count b)
    (full_conversion_count b) (draw_count b) (stride b) (conversion_map b)
    (conversion_stride b).
Definition set_buffer_object (v : option (list Z)) (b : wined3d_buffer) : wined3d_buffer :=
  mk_buffer (resource b) (buffer_ops b) (structure_byte_stride b) (flags b) (locations b)
    (map_ptr b) v (maps b) (maps_size b) (decl_change_count b)
    (full_conversion_count b) (draw_count b) (stride b) (conversion_map b)
    (conversion_stride b).
Definition set_maps (v : list wined3d_range) (b : wined3d_buffer) : wined3d_buffer :=
  mk_buffer (resource b) (buffer_ops b) (structure_byte_stride b) (flags b) (locations b)
    (map_ptr b) (buffer_object b) v (maps_size b) (decl_change_count b)
    (full_conversion_count b) (draw_count b) (stride b) (conversion_map b)
    (conversion_stride b).
Definition set_maps_size (v : Z) (b : wined3d_buffer) : wined3d_buffer :=
  mk_buffer (resource b) (buffer_ops b) (structure_byte_stride b) (flags b) (locations b)
    (map_ptr b) (buffer_object b) (maps b) v (decl_change_count b)
    (full_conversion_count b) (draw_count b) (stride b) (conversion_map b)
    (conversion_stride b).
Definition set_decl_change_count (v : Z) (b : wined3d_buffer) : wined3d_buffer :=
  mk_buffer (resource b) (buffer_ops b) (structure_byte_stride b) (flags b) (locations b)
    (map_ptr b) (buffer_object b) (maps b) (maps_size b) v
    (full_conversion_count b) (draw_count b) (stride b) (conversion_map b)
    (conversion_stride b).
Definition set_full_conversion_count (v : Z) (b : wined3d_buffer) : wined3d_buffer :=
  mk_buffer (resource b) (buffer_ops b) (structure_byte_stride b) (flags b) (locations b)
    (map_ptr b) (buffer_object b) (maps b) (maps_size b) (decl_change_count b)
    v (draw_count b) (stride b) (conversion_map b)
    (conversion_stride b).
Definition set_draw_count (v : Z) (b : wined3d_buffer) : wined3d_buffer :=
  mk_buffer (resource b) (buffer_ops b) (structure_byte_stride b) (flags b) (locations b)
    (map_ptr b) (buffer_object b) (maps b) (maps_size b) (decl_change_count b)
    (full_conversion_count b) v (stride b) (conversion_map b)
    (conversion_stride b).
Definition set_stride (v : Z) (b : wined3d_buffer) : wined3d_buffer :=
  mk_buffer (resource b) (buffer_ops b) (structure_byte_stride b) (flags b) (locations b)
    (map_ptr b) (buffer_object b) (maps b) (maps_size b) (decl_change_count b)
    (full_conversion_count b) (draw_count b) v (conversion_map b)
    (conversion_stride b).
Definition set_conversion_map (v : option (list wined3d_buffer_conversion_type))
    (b : wined3d_buffer) : wined3d_buffer :=
  mk_buffer (resource b) (buffer_ops b) (structure_byte_stride b) (flags b) (locations b)
    (map_ptr b) (buffer_object b) (maps b) (maps_size b) (decl_change_count b)
    (full_conversion_count b) (draw_count b) (stride b) v
    (conversion_stride b).
Definition set_conversion_stride (v : Z) (b : wined3d_buffer) : wined3d_buffer :=
  mk_buffer (resource b) (buffer_ops b) (structure_byte_stride b) (flags b) (locations b)
    (map_ptr b) (buffer_object b) (maps b) (maps_size b) (decl_change_count b)
    (full_conversion_count b) (draw_count b) (stride b) (conversion_map b) v.

(** ** The device context

    What the file needs from its collaborators.  [alloc_results] lists
    the outcomes of the successive allocations (host memory, arrays,
    buffer objects), [bo_map_addresses] the addresses that mapping a
    buffer object returns; an exhausted list answers with success, resp.
    with the aligned address 0x10000.  [heap_contents] is the byte that
    [heap_alloc], which does not initialise its block, leaves at each
    offset of a new block.  [float_nan] gives, for the bit patterns of
    the two operands, the sign and the payload of the NaN that the
    processor returns when the result of a multiplication or division is
    not a number.  [calls] logs the calls made to the backend and to the
    context, most recent first. *)

Inductive wined3d_format_id : Set :=
| WINED3DFMT_B8G8R8A8_UNORM
| WINED3DFMT_R32G32B32A32_FLOAT
| WINED3DFMT_other (id : Z).

Record wined3d_format : Set := mk_format {
  format_id : wined3d_format_id;
  byte_count : Z;
}.

Record wined3d_stream_info_element : Set := mk_element {
  format : wined3d_format;
  data_addr : Z;                        (* data.addr *)
  element_stride : Z;                   (* stride *)
  stream_idx : Z;
}.

Record wined3d_stream_info : Set := mk_stream_info {
  elements : list wined3d_stream_info_element;
  position_transformed : bool;
  use_map : Z;
}.

Record wined3d_d3d_info : Set := mk_d3d_info {
  vertex_bgra : bool;
  ffp_generic_attributes : bool;
  xyzrhw : bool;
  persistent_map : bool;
}.

(** [streams] tells, for each stream, whether this buffer is bound to it
    ([state->streams[i].buffer == This]); [use_vs] is the result of the
    macro of that name. *)
Record wined3d_state : Set := mk_state {
  use_vs : bool;
  streams : list bool;
}.

Inductive call : Set :=
| call_prepare_location (location : Z)
| call_unload_location (location : Z)
| call_create_bo (bo_size : Z)
| call_destroy_bo
| call_copy_bo_address (to_bo : bool) (ranges : list wined3d_range) (map_flags : Z)
| call_map_bo_address (bo_size : Z) (map_flags : Z)
| call_unmap_bo_address (ranges : list wined3d_range)
| call_resource_map (sub_resource_idx : Z) (box : wined3d_box) (map_flags : Z)
| call_resource_unmap (sub_resource_idx : Z)
| call_emit_update_sub_resource (sub_resource_idx : Z) (box : wined3d_box)
    (data : list Z) (row_pitch slice_pitch : Z).

Record wined3d_context : Type := mk_context {
  d3d_info : wined3d_d3d_info;
  stream_info : wined3d_stream_info;
  alloc_results : list bool;
  bo_map_addresses : list Z;
  heap_contents : Z -> Z;
  float_nan : Z -> Z -> Z;
  calls : list call;
}.

Definition log (e : call) (c : wined3d_context) : wined3d_context :=
  mk_context (d3d_info c) (stream_info c) (alloc_results c) (bo_map_addresses c)
    (heap_contents c) (float_nan c) (e :: calls c).

(** The outcome of the next allocation. *)
Definition allocate (c : wined3d_context) : bool * wined3d_context :=
  match alloc_results c with
  | [] => (true, c)
  | ok :: rest =>
      (ok, mk_context (d3d_info c) (stream_info c) rest (bo_map_addresses c)
             (heap_contents c) (float_nan c) (calls c))
  end.

Definition next_map_address (c : wined3d_context) : Z * wined3d_context :=
  match bo_map_addresses c with
  | [] => (0x10000, c)
  | a :: rest =>
      (a, mk_context (d3d_info c) (stream_info c) (alloc_results c) rest
            (heap_contents c) (float_nan c) (calls c))
  end.

(** ** Range set (component A) *)

(** Modelled from the spec: [wined3d_array_reserve] lives in utils.c.
    "The backing storage grows geometrically; allocation failure also
    collapses to whole-buffer": the call succeeds at once when the
    capacity suffices, otherwise it allocates a larger array, which may
    fail.  It returns the new capacity. *)
Definition wined3d_array_reserve (capacity count : Z) (c : wined3d_context)
  : bool * Z * wined3d_context :=
  if count <=? capacity then (true, capacity, c)
  else
    let '(ok, c) := allocate c in
    if ok then (true, Z.max count (2 * Z.max 1 capacity), c)
    else (false, capacity, c).

Definition invalidate_all (buffer : wined3d_buffer) : wined3d_buffer :=
  set_maps [mk_range 0 (size (resource buffer))] buffer.

Definition buffer_invalidate_bo_range (buffer : wined3d_buffer) (context : wined3d_context)
    (offset size_ : Z) : wined3d_buffer * wined3d_context :=
  if (offset =? 0) && ((size_ =? 0) || (size_ =? size (resource buffer)))
  then (invalidate_all buffer, context)
  else if (offset >? size (resource buffer))
          || (size_ >? u32 (size (resource buffer) - offset))
  then (invalidate_all buffer, context)
  else
    let '(ok, capacity, context) :=
      wined3d_array_reserve (maps_size buffer) (modified_areas buffer + 1) context in
    if negb ok then (invalidate_all buffer, context)
    else
      (set_maps (maps buffer ++ [mk_range offset size_]) (set_maps_size capacity buffer),
       context).

Definition buffer_clear_dirty_areas (This : wined3d_buffer) : wined3d_buffer :=
  set_maps [] This.

Definition buffer_is_dirty (buffer : wined3d_buffer) : bool :=
  negb (modified_areas buffer =? 0).

Definition buffer_is_fully_dirty (buffer : wined3d_buffer) : bool :=
  match maps buffer with
  | [r] => (range_offset r =? 0) && (range_size r =? size (resource buffer))
  | _ => false
  end.

(** ** Location state (component B) *)

Definition wined3d_buffer_validate_location (buffer : wined3d_buffer) (location : Z)
  : wined3d_buffer :=
  let buffer :=
    if test location WINED3D_LOCATION_BUFFER then buffer_clear_dirty_areas buffer
    else buffer in
  set_locations (Z.lor (locations buffer) location) buffer.

Definition wined3d_buffer_invalidate_range (buffer : wined3d_buffer)
    (context : wined3d_context) (location offset size_ : Z)
  : wined3d_buffer * wined3d_context :=
  let '(buffer, context) :=
    if test location WINED3D_LOCATION_BUFFER
    then buffer_invalidate_bo_range buffer context offset size_
    else (buffer, context) in
  (set_locations (Z.land (locations buffer) (not32 location)) buffer, context).

Definition wined3d_buffer_invalidate_location (buffer : wined3d_buffer)
    (context : wined3d_context) (location : Z) : wined3d_buffer * wined3d_context :=
  wined3d_buffer_invalidate_range buffer context location 0 0.

(** ** Host and device memory *)

Definition zeroes (n : Z) : list Z := replicate (Z.to_nat n) 0.

(** The block of [n] bytes that [heap_alloc] returns in a context: it is
    not initialised. *)
Definition uninitialised (c : wined3d_context) (n : Z) : list Z :=
  (fun i => heap_contents c i mod 256) <$> seqZ 0 n.

Definition load8 (mem : list Z) (p : Z) : Z :=
  if p <? 0 then 0 else default 0 (mem !! Z.to_nat p).

Definition store8 (mem : list Z) (p v : Z) : list Z :=
  if p <? 0 then mem else <[Z.to_nat p := v mod 256]> mem.

(** Little-endian 32-bit accesses.  A byte outside of the block reads as
    0 and is not written; the C code has undefined behaviour there. *)
Definition load32 (mem : list Z) (p : Z) : Z :=
  load8 mem p + Z.shiftl (load8 mem (p + 1)) 8
  + Z.shiftl (load8 mem (p + 2)) 16 + Z.shiftl (load8 mem (p + 3)) 24.

Definition store32 (mem : list Z) (p v : Z) : list Z :=
  store8 (store8 (store8 (store8 mem p v) (p + 1) (Z.shiftr v 8))
            (p + 2) (Z.shiftr v 16)) (p + 3) (Z.shiftr v 24).

(** [memcpy(dst + dst_off, src + src_off, len)], cut to the bounds of
    both blocks. *)
Definition memcpy (dst : list Z) (dst_off : Z) (src : list Z) (src_off len : Z) : list Z :=
  if (dst_off <? 0) || (src_off <? 0) then dst
  else
    let chunk := take (Z.to_nat len) (drop (Z.to_nat src_off) src) in
    let chunk := take (length dst - Z.to_nat dst_off)%nat chunk in
    take (Z.to_nat dst_off) dst ++ chunk
      ++ drop (Z.to_nat dst_off + length chunk)%nat dst.

(** An address as the context sees it: a storage site and an offset. *)
Inductive storage : Type :=
| storage_null
| storage_bo                       (* the buffer object of the buffer *)
| storage_heap                     (* resource.heap_memory *)
| storage_data (data : list Z).    (* memory that is not part of the buffer *)

Record wined3d_bo_address : Type := mk_address {
  address_storage : storage;
  address_offset : Z;
}.

Definition read_storage (buffer : wined3d_buffer) (s : storage) : option (list Z) :=
  match s with
  | storage_null => None
  | storage_bo => buffer_object buffer
  | storage_heap => heap_memory (resource buffer)
  | storage_data data => Some data
  end.

Definition write_storage (buffer : wined3d_buffer) (s : storage) (mem : list Z)
  : wined3d_buffer :=
  match s with
  | storage_bo => set_buffer_object (Some mem) buffer
  | storage_heap => set_resource (set_heap_memory (Some mem) (resource buffer)) buffer
  | _ => buffer
  end.

Definition is_bo (s : storage) : bool :=
  match s with storage_bo => true | _ => false end.

(** Modelled from the spec: [wined3d_context_copy_bo_address] belongs to
    the context.  "copy each dirty range from host to device": every
    range is copied from the source to the destination, at the same
    offset relative to both addresses.  Nothing is copied from or to a
    null address. *)
Definition wined3d_context_copy_bo_address (context : wined3d_context)
    (buffer : wined3d_buffer) (dst src : wined3d_bo_address)
    (ranges : list wined3d_range) (map_flags : Z) : wined3d_buffer * wined3d_context :=
  let context :=
    log (call_copy_bo_address (is_bo (address_storage dst)) ranges map_flags) context in
  match read_storage buffer (address_storage dst),
        read_storage buffer (address_storage src) with
  | Some d, Some s =>
      let d := fold_left (fun d r =>
                 memcpy d (address_offset dst + range_offset r)
                        s (address_offset src + range_offset r) (range_size r))
               ranges d in
      (write_storage buffer (address_storage dst) d, context)
  | _, _ => (buffer, context)
  end.

(** Modelled from the spec: [wined3d_resource_prepare_sysmem] and
    [wined3d_resource_free_sysmem] live in resource.c.  "prepare(SYSMEM)
    allocates host memory", "idempotent": existing memory is kept, new
    memory is zero-filled. *)
Definition wined3d_resource_prepare_sysmem (r : wined3d_resource) (c : wined3d_context)
  : bool * wined3d_resource * wined3d_context :=
  match heap_memory r with
  | Some _ => (true, r, c)
  | None =>
      let '(ok, c) := allocate c in
      if ok then (true, set_heap_memory (Some (zeroes (size r))) r, c)
      else (false, r, c)
  end.

Definition wined3d_resource_free_sysmem (r : wined3d_resource) : wined3d_resource :=
  set_heap_memory None r.

Definition wined3d_buffer_evict_sysmem (buffer : wined3d_buffer) (context : wined3d_context)
  : wined3d_buffer * wined3d_context :=
  if pin_sysmem (resource buffer) then (buffer, context)
  else
    let '(buffer, context) :=
      wined3d_buffer_invalidate_location buffer context WINED3D_LOCATION_SYSMEM in
    (set_resource (wined3d_resource_free_sysmem (resource buffer)) buffer, context).

(** ** Backends (component C) *)

(** Ending transform feedback before the deletion only concerns the GL
    state and is not modelled. *)
Definition wined3d_buffer_gl_destroy_buffer_object (buffer_gl : wined3d_buffer)
    (context_gl : wined3d_context) : wined3d_buffer * wined3d_context :=
  match buffer_object buffer_gl with
  | None => (buffer_gl, context_gl)
  | Some _ => (set_buffer_object None buffer_gl, log call_destroy_bo context_gl)
  end.

Definition wined3d_buffer_gl_create_buffer_object (buffer_gl : wined3d_buffer)
    (context_gl : wined3d_context) : bool * wined3d_buffer * wined3d_context :=
  let '(bo, context_gl) := allocate context_gl in
  if negb bo then (false, buffer_gl, context_gl)
  else
    let size_ := size (resource buffer_gl) in
    let '(created, context_gl) := allocate (log (call_create_bo size_) context_gl) in
    if negb created then
      let buffer_gl :=
        set_flags (Z.land (flags buffer_gl) (not32 WINED3D_BUFFER_USE_BO)) buffer_gl in
      (false, buffer_clear_dirty_areas buffer_gl, context_gl)
    else
      let buffer_gl := set_buffer_object (Some (zeroes size_)) buffer_gl in
      let '(buffer_gl, context_gl) := buffer_invalidate_bo_range buffer_gl context_gl 0 0 in
      (true, buffer_gl, context_gl).

Definition wined3d_buffer_vk_create_buffer_object (buffer_vk : wined3d_buffer)
    (context_vk : wined3d_context) : bool * wined3d_buffer * wined3d_context :=
  let '(bo_vk, context_vk) := allocate context_vk in
  if negb bo_vk then (false, buffer_vk, context_vk)
  else
    let size_ := size (resource buffer_vk) in
    let '(created, context_vk) := allocate (log (call_create_bo size_) context_vk) in
    if negb created then (false, buffer_vk, context_vk)
    else
      let buffer_vk := set_buffer_object (Some (zeroes size_)) buffer_vk in
      let '(buffer_vk, context_vk) := buffer_invalidate_bo_range buffer_vk context_vk 0 0 in
      (true, buffer_vk, context_vk).

Definition prepare_sysmem (buffer : wined3d_buffer) (context : wined3d_context)
  : bool * wined3d_buffer * wined3d_context :=
  let '(ok, r, context) := wined3d_resource_prepare_sysmem (resource buffer) context in
  (ok, set_resource r buffer, context).

Definition wined3d_buffer_no3d_prepare_location (buffer : wined3d_buffer)
    (context : wined3d_context) (location : Z) : bool * wined3d_buffer * wined3d_context :=
  if location =? WINED3D_LOCATION_SYSMEM then prepare_sysmem buffer context
  else (false, buffer, context).

Definition wined3d_buffer_no3d_unload_location (buffer : wined3d_buffer)
    (context : wined3d_context) (location : Z) : wined3d_buffer * wined3d_context :=
  (buffer, context).

Definition wined3d_buffer_gl_prepare_location (buffer : wined3d_buffer)
    (context : wined3d_context) (location : Z) : bool * wined3d_buffer * wined3d_context :=
  if location =? WINED3D_LOCATION_SYSMEM then prepare_sysmem buffer context
  else if location =? WINED3D_LOCATION_BUFFER then
    match buffer_object buffer with
    | Some _ => (true, buffer, context)
    | None =>
        if negb (test (flags buffer) WINED3D_BUFFER_USE_BO) then (false, buffer, context)
        else wined3d_buffer_gl_create_buffer_object buffer context
    end
  else (false, buffer, context).

Definition wined3d_buffer_gl_unload_location (buffer : wined3d_buffer)
    (context : wined3d_context) (location : Z) : wined3d_buffer * wined3d_context :=
  if location =? WINED3D_LOCATION_BUFFER
  then wined3d_buffer_gl_destroy_buffer_object buffer context
  else (buffer, context).

Definition wined3d_buffer_vk_prepare_location (buffer : wined3d_buffer)
    (context : wined3d_context) (location : Z) : bool * wined3d_buffer * wined3d_context :=
  if location =? WINED3D_LOCATION_SYSMEM then prepare_sysmem buffer context
  else if location =? WINED3D_LOCATION_BUFFER then
    match buffer_object buffer with
    | Some _ => (true, buffer, context)
    | None => wined3d_buffer_vk_create_buffer_object buffer context
    end
  else (false, buffer, context).

Definition wined3d_buffer_vk_unload_location (buffer : wined3d_buffer)
    (context : wined3d_context) (location : Z) : wined3d_buffer * wined3d_context :=
  if location =? WINED3D_LOCATION_BUFFER
  then (set_buffer_object None buffer, log call_destroy_bo context)
  else (buffer, context).

Definition wined3d_buffer_prepare_location (buffer : wined3d_buffer)
    (context : wined3d_context) (location : Z) : bool * wined3d_buffer * wined3d_context :=
  let context := log (call_prepare_location location) context in
  match buffer_ops buffer with
  | wined3d_buffer_no3d_ops => wined3d_buffer_no3d_prepare_location buffer context location
  | wined3d_buffer_gl_ops => wined3d_buffer_gl_prepare_location buffer context location
  | wined3d_buffer_vk_ops => wined3d_buffer_vk_prepare_location buffer context location
  end.

Definition wined3d_buffer_unload_location (buffer : wined3d_buffer)
    (context : wined3d_context) (location : Z) : wined3d_buffer * wined3d_context :=
  let context := log (call_unload_location location) context in
  match buffer_ops buffer with
  | wined3d_buffer_no3d_ops => wined3d_buffer_no3d_unload_location buffer context location
  | wined3d_buffer_gl_ops => wined3d_buffer_gl_unload_location buffer context location
  | wined3d_buffer_vk_ops => wined3d_buffer_vk_unload_location buffer context location
  end.

(** ** Conversion engine (component E) *)

(** *** Single-precision floats

    [float] is IEEE-754 binary32: 24 bits of precision, maximal exponent
    128.  The operations are those of the Floats library at that format,
    between the bit patterns found in memory.  A result that is not a
    number is a quiet NaN whose sign and payload the processor chooses
    from the operands ([nan], the [float_nan] of the context). *)

Definition float_prec : Z := 24.
Definition float_emax : Z := 128.

Definition float_of_bits (w : Z) : spec_float :=
  let sign := Z.testbit w 31 in
  let e := Z.land (Z.shiftr w 23) 0xff in
  let m := Z.land w 0x7fffff in
  if e =? 0 then
    if m =? 0 then S754_zero sign else S754_finite sign (Z.to_pos m) (-149)
  else if e =? 0xff then
    if m =? 0 then S754_infinity sign else S754_nan
  else S754_finite sign (Z.to_pos (m + 0x800000)) (e - 150).

Definition quiet_nan (sign_and_payload : Z) : Z :=
  Z.lor 0x7fc00000 (Z.land sign_and_payload 0x803fffff).

Definition bits_of_float (nan : Z) (f : spec_float) : Z :=
  let sign_bit (s : bool) := if s then 0x80000000 else 0 in
  match f with
  | S754_zero s => sign_bit s
  | S754_infinity s => sign_bit s + 0x7f800000
  | S754_nan => quiet_nan nan
  | S754_finite s m e =>
      if Z.pos m <? 0x800000 then sign_bit s + Z.pos m
      else sign_bit s + Z.shiftl (e + 150) 23 + (Z.pos m - 0x800000)
  end.

Definition float_mul (nan : Z -> Z -> Z) (a b : Z) : Z :=
  bits_of_float (nan a b)
    (SFmul float_prec float_emax (float_of_bits a) (float_of_bits b)).

Definition float_div (nan : Z -> Z -> Z) (a b : Z) : Z :=
  bits_of_float (nan a b)
    (SFdiv float_prec float_emax (float_of_bits a) (float_of_bits b)).

(** C's [a != b] on floats: true when unordered. *)
Definition float_ne (a b : Z) : bool :=
  negb (SFeqb (float_of_bits a) (float_of_bits b)).

Definition float_1_0 : Z := 0x3f800000.
Definition float_0_0 : Z := 0.

(** [struct wined3d_vec4], as the bit patterns of its four floats. *)
Record wined3d_vec4 : Set := mk_vec4 { x : Z; y : Z; z : Z; w : Z }.

Definition load_vec4 (mem : list Z) (p : Z) : wined3d_vec4 :=
  mk_vec4 (load32 mem p) (load32 mem (p + 4)) (load32 mem (p + 8)) (load32 mem (p + 12)).

Definition store_vec4 (mem : list Z) (p : Z) (v : wined3d_vec4) : list Z :=
  store32 (store32 (store32 (store32 mem p (x v)) (p + 4) (y v)) (p + 8) (z v))
    (p + 12) (w v).

(** *** Fixups

    Both take the value found at the pointer and return the value they
    leave there, with the number of bytes consumed. *)

Definition fixup_d3dcolor (src_color : Z) : Z * Z :=
  let dst_color := 0 in
  let dst_color := Z.lor dst_color (Z.land src_color 0xff00ff00) in
  let dst_color := Z.lor dst_color (Z.shiftr (Z.land src_color 0x00ff0000) 16) in
  let dst_color := Z.lor dst_color (u32 (Z.shiftl (Z.land src_color 0x000000ff) 16)) in
  (dst_color, 4).

Definition fixup_transformed_pos (nan : Z -> Z -> Z) (p : wined3d_vec4)
  : wined3d_vec4 * Z :=
  if float_ne (w p) float_1_0 && float_ne (w p) float_0_0 then
    let w_ := float_div nan float_1_0 (w p) in
    (mk_vec4 (float_mul nan (x p) w_) (float_mul nan (y p) w_) (float_mul nan (z p) w_)
       w_, 16)
  else (p, 16).

(** *** Declaration inspection *)

Definition conversion_map_at (buffer : wined3d_buffer) (idx : Z)
  : option wined3d_buffer_conversion_type :=
  match conversion_map buffer with
  | Some map => if idx <? 0 then None else map !! Z.to_nat idx
  | None => None
  end.

(** The C code divides by [buffer->stride] and indexes the conversion
    map without checking them: with a zero stride or a null map it traps.
    The model leaves the buffer unchanged there.  [heap_calloc] is not
    checked by the source either and is taken to succeed. *)
Definition buffer_process_converted_attribute (buffer : wined3d_buffer)
    (conversion_type : wined3d_buffer_conversion_type)
    (attrib : wined3d_stream_info_element) (stride_this_run : Z)
  : bool * wined3d_buffer * Z :=
  let '(ret, buffer, stride_this_run) :=
    if element_stride attrib =? 0 then (false, buffer, stride_this_run)
    else if negb (element_stride attrib =? stride_this_run) && negb (stride_this_run =? 0)
    then (false, buffer, stride_this_run)
    else
      let stride_this_run := element_stride attrib in
      if negb (stride buffer =? stride_this_run) then
        let buffer := set_stride stride_this_run buffer in
        let buffer :=
          set_conversion_map
            (Some (replicate (Z.to_nat (stride buffer)) CONV_NONE)) buffer in
        (true, buffer, stride_this_run)
      else (false, buffer, stride_this_run) in
  if stride buffer =? 0 then (ret, buffer, stride_this_run)
  else
    let data := data_addr attrib mod stride buffer in
    let '(ret, buffer) :=
      fold_left (fun '(ret, buffer) i =>
          let idx := (data + i) mod stride buffer in
          match conversion_map buffer, conversion_map_at buffer idx with
          | Some map, Some t =>
              if negb (conversion_type_eqb t conversion_type)
              then (true,
                    set_conversion_map
                      (Some (<[Z.to_nat idx := conversion_type]> map)) buffer)
              else (ret, buffer)
          | _, _ => (ret, buffer)
          end)
        (seqZ 0 (byte_count (format attrib))) (ret, buffer) in
    (ret, buffer, stride_this_run).

Definition null_element : wined3d_stream_info_element :=
  mk_element (mk_format (WINED3DFMT_other 0) 0) 0 0 0.

Definition format_id_eqb (a b : wined3d_format_id) : bool :=
  match a, b with
  | WINED3DFMT_B8G8R8A8_UNORM, WINED3DFMT_B8G8R8A8_UNORM => true
  | WINED3DFMT_R32G32B32A32_FLOAT, WINED3DFMT_R32G32B32A32_FLOAT => true
  | WINED3DFMT_other i, WINED3DFMT_other j => i =? j
  | _, _ => false
  end.

Definition buffer_check_attribute (This : wined3d_buffer) (si : wined3d_stream_info)
    (state : wined3d_state) (attrib_idx fixup_flags stride_this_run : Z)
  : bool * wined3d_buffer * Z :=
  let attrib := nth (Z.to_nat attrib_idx) (elements si) null_element in
  if negb (test (use_map si) (Z.shiftl 1 attrib_idx))
     || negb (nth (Z.to_nat (stream_idx attrib)) (streams state) false)
  then (false, This, stride_this_run)
  else
    let format_ := format_id (format attrib) in
    if test fixup_flags WINED3D_BUFFER_FIXUP_D3DCOLOR
       && format_id_eqb format_ WINED3DFMT_B8G8R8A8_UNORM
    then buffer_process_converted_attribute This CONV_D3DCOLOR attrib stride_this_run
    else if test fixup_flags WINED3D_BUFFER_FIXUP_XYZRHW && position_transformed si
    then
      if negb (format_id_eqb format_ WINED3DFMT_R32G32B32A32_FLOAT)
      then (false, This, stride_this_run)
      else buffer_process_converted_attribute This CONV_POSITIONT attrib stride_this_run
    else
      match conversion_map This with
      | Some _ => buffer_process_converted_attribute This CONV_NONE attrib stride_this_run
      | None => (false, This, stride_this_run)
      end.

Definition drop_conversion_map (This : wined3d_buffer) : wined3d_buffer :=
  set_stride 0 (set_conversion_map None This).

Definition buffer_find_decl (This : wined3d_buffer) (si : wined3d_stream_info)
    (state : wined3d_state) (fixup_flags : Z) : bool * wined3d_buffer :=
  if test (flags This) WINED3D_BUFFER_HASDESC
     && test (usage (resource This)) WINED3DUSAGE_STATICDECL
  then (false, This)
  else if fixup_flags =? 0 then
    match conversion_map This with
    | Some _ => (true, drop_conversion_map This)
    | None => (false, This)
    end
  else
    let check '(ret, This, stride_this_run) attrib_idx fixup_flags :=
      let '(r, This, stride_this_run) :=
        buffer_check_attribute This si state attrib_idx fixup_flags stride_this_run in
      (r || ret, This, stride_this_run) in
    let acc := check (false, This, 0) WINED3D_FFP_POSITION fixup_flags in
    let fixup_flags := Z.land fixup_flags (not32 WINED3D_BUFFER_FIXUP_XYZRHW) in
    let acc :=
      fold_left (fun acc attrib_idx => check acc attrib_idx fixup_flags)
        [WINED3D_FFP_BLENDWEIGHT; WINED3D_FFP_BLENDINDICES; WINED3D_FFP_NORMAL;
         WINED3D_FFP_DIFFUSE; WINED3D_FFP_SPECULAR; WINED3D_FFP_TEXCOORD0;
         WINED3D_FFP_TEXCOORD1; WINED3D_FFP_TEXCOORD2; WINED3D_FFP_TEXCOORD3;
         WINED3D_FFP_TEXCOORD4; WINED3D_FFP_TEXCOORD5; WINED3D_FFP_TEXCOORD6;
         WINED3D_FFP_TEXCOORD7] acc in
    let '(ret, This, stride_this_run) := acc in
    let This :=
      match conversion_map This with
      | Some _ => if stride_this_run =? 0 then drop_conversion_map This else This
      | None => This
      end in
    (ret, This).

(** *** Upload with conversion *)

(** The loop over the bytes of vertex [i].  [j] grows by at least one in
    every round, so [stride] rounds are enough (see
    [convert_vertex_fuel]).  A byte without an entry in the map takes the
    [default] case of the switch. *)
Fixpoint convert_vertex (nan : Z -> Z -> Z) (fuel : nat) (buffer : wined3d_buffer)
    (data : list Z) (i j : Z) : list Z :=
  match fuel with
  | O => data
  | S fuel =>
      if j <? stride buffer then
        let p := u32 (i * stride buffer) + j in
        match conversion_map_at buffer j with
        | Some CONV_NONE => convert_vertex nan fuel buffer data i (j + 4)
        | Some CONV_D3DCOLOR =>
            let '(v, n) := fixup_d3dcolor (load32 data p) in
            convert_vertex nan fuel buffer (store32 data p v) i (j + n)
        | Some CONV_POSITIONT =>
            let '(v, n) := fixup_transformed_pos nan (load_vec4 data p) in
            convert_vertex nan fuel buffer (store_vec4 data p v) i (j + n)
        | None => convert_vertex nan fuel buffer data i (j + 1)
        end
      else data
  end.

(** One round of the loop over the dirty ranges.  With a zero stride the
    C code traps on the division; [Z]'s division gives no vertex. *)
Definition convert_range (nan : Z -> Z -> Z) (buffer : wined3d_buffer) (data : list Z)
    (r : wined3d_range) : list Z :=
  let vertex_count := size (resource buffer) / stride buffer in
  let start := range_offset r in
  let end_ := u32 (start + range_size r) in
  let data :=
    memcpy data start (default [] (heap_memory (resource buffer))) start
      (u32 (end_ - start)) in
  let first := start / stride buffer in
  let last := Z.min (u32 (end_ / stride buffer + 1)) vertex_count in
  fold_left
    (fun data i => convert_vertex nan (Z.to_nat (stride buffer)) buffer data i 0)
    (seqZ first (last - first)) data.

Definition load_result : Type := bool * wined3d_buffer * wined3d_context.

(** [buffer_conversion_upload] and [wined3d_buffer_load_location] call
    each other; [load_location] stands for the latter. *)
Definition buffer_conversion_upload
    (load_location : wined3d_buffer -> wined3d_context -> Z -> option load_result)
    (buffer : wined3d_buffer) (context : wined3d_context)
  : option (wined3d_buffer * wined3d_context) :=
  match load_location buffer context WINED3D_LOCATION_SYSMEM with
  | None => None
  | Some (false, buffer, context) => Some (buffer, context)
  | Some (true, buffer, context) =>
      let buffer := set_resource (set_pin_sysmem true (resource buffer)) buffer in
      let '(data_ok, context) := allocate context in
      if negb data_ok then Some (buffer, context)
      else
        let data :=
          fold_left (convert_range (float_nan context) buffer) (maps buffer)
            (uninitialised context (size (resource buffer))) in
        Some (wined3d_context_copy_bo_address context buffer
                (mk_address storage_bo 0) (mk_address (storage_data data) 0)
                (maps buffer) WINED3D_MAP_WRITE)
  end.

(** ** Load location (component D) *)

Definition memset_heap_memory (buffer : wined3d_buffer) : wined3d_buffer :=
  match heap_memory (resource buffer) with
  | Some _ =>
      set_resource
        (set_heap_memory (Some (zeroes (size (resource buffer)))) (resource buffer)) buffer
  | None => buffer
  end.

Definition load_location_finish (buffer : wined3d_buffer) (context : wined3d_context)
    (location : Z) : load_result :=
  let buffer := wined3d_buffer_validate_location buffer location in
  let '(buffer, context) :=
    if bool_decide (heap_memory (resource buffer) <> None)
       && (location =? WINED3D_LOCATION_BUFFER)
       && negb (test (usage (resource buffer)) WINED3DUSAGE_DYNAMIC)
    then wined3d_buffer_evict_sysmem buffer context
    else (buffer, context) in
  (true, buffer, context).

Definition wined3d_buffer_load_location_body
    (load_location : wined3d_buffer -> wined3d_context -> Z -> option load_result)
    (buffer : wined3d_buffer) (context : wined3d_context) (location : Z)
  : option load_result :=
  if test (locations buffer) location then Some (true, buffer, context)
  else if locations buffer =? 0 then
    load_location
      (wined3d_buffer_validate_location buffer WINED3D_LOCATION_DISCARDED)
      context location
  else
    let '(prepared, buffer, context) :=
      wined3d_buffer_prepare_location buffer context location in
    if negb prepared then Some (false, buffer, context)
    else if test (locations buffer) WINED3D_LOCATION_DISCARDED then
      let buffer := wined3d_buffer_validate_location buffer location in
      let '(buffer, context) :=
        wined3d_buffer_invalidate_location buffer context WINED3D_LOCATION_DISCARDED in
      Some (true, buffer, context)
    else if location =? WINED3D_LOCATION_SYSMEM then
      if test (locations buffer) WINED3D_LOCATION_CLEARED then
        Some (load_location_finish (memset_heap_memory buffer) context location)
      else
        let '(buffer, context) :=
          wined3d_context_copy_bo_address context buffer
            (mk_address storage_heap 0) (mk_address storage_bo 0)
            [mk_range 0 (size (resource buffer))] WINED3D_MAP_WRITE in
        Some (load_location_finish buffer context location)
    else if location =? WINED3D_LOCATION_BUFFER then
      let '(sysmem_ok, buffer, context) :=
        if test (locations buffer) WINED3D_LOCATION_CLEARED then
          let '(ok, buffer, context) :=
            wined3d_buffer_prepare_location buffer context WINED3D_LOCATION_SYSMEM in
          if negb ok then (false, buffer, context)
          else (true, memset_heap_memory buffer, context)
        else (true, buffer, context) in
      if negb sysmem_ok then Some (false, buffer, context)
      else
        match conversion_map buffer with
        | None =>
            let map_flags := WINED3D_MAP_WRITE in
            let map_flags :=
              if buffer_is_fully_dirty buffer
              then Z.lor map_flags WINED3D_MAP_DISCARD else map_flags in
            let '(buffer, context) :=
              wined3d_context_copy_bo_address context buffer
                (mk_address storage_bo 0) (mk_address storage_heap 0)
                (maps buffer) map_flags in
            Some (load_location_finish buffer context location)
        | Some _ =>
            match buffer_conversion_upload load_location buffer context with
            | None => None
            | Some (buffer, context) =>
                Some (load_location_finish buffer context location)
            end
        end
    else Some (false, buffer, context).

(** The recursion is bounded by [fuel]; [None] only signals that the
    fuel ran out.  Three levels are always enough
    ([load_location_fuel_enough]). *)
Fixpoint load_location_fuel (fuel : nat) (buffer : wined3d_buffer)
    (context : wined3d_context) (location : Z) : option load_result :=
  match fuel with
  | O => None
  | S fuel =>
      wined3d_buffer_load_location_body (load_location_fuel fuel) buffer context location
  end.

Definition wined3d_buffer_load_location (buffer : wined3d_buffer)
    (context : wined3d_context) (location : Z) : load_result :=
  default (false, buffer, context) (load_location_fuel 3 buffer context location).

Definition wined3d_buffer_load_sysmem (buffer : wined3d_buffer) (context : wined3d_context)
  : option (list Z) * wined3d_buffer * wined3d_context :=
  let '(ok, buffer, context) :=
    wined3d_buffer_load_location buffer context WINED3D_LOCATION_SYSMEM in
  let buffer :=
    if ok then set_resource (set_pin_sysmem true (resource buffer)) buffer else buffer in
  (heap_memory (resource buffer), buffer, context).

Definition wined3d_buffer_get_memory (buffer : wined3d_buffer) (context : wined3d_context)
  : Z * wined3d_bo_address * wined3d_buffer * wined3d_context :=
  let locations_ := locations buffer in
  let '(loaded, locations_, buffer, context) :=
    if test locations_ (Z.lor WINED3D_LOCATION_DISCARDED WINED3D_LOCATION_CLEARED) then
      let locations_ :=
        if test (flags buffer) WINED3D_BUFFER_USE_BO
        then WINED3D_LOCATION_BUFFER else WINED3D_LOCATION_SYSMEM in
      let '(ok, buffer, context) :=
        wined3d_buffer_load_location buffer context locations_ in
      (ok, locations_, buffer, context)
    else (true, locations_, buffer, context) in
  if negb loaded then (0, mk_address storage_null 0, buffer, context)
  else if test locations_ WINED3D_LOCATION_BUFFER
  then (WINED3D_LOCATION_BUFFER, mk_address storage_bo 0, buffer, context)
  else if test locations_ WINED3D_LOCATION_SYSMEM
  then (WINED3D_LOCATION_SYSMEM, mk_address storage_heap 0, buffer, context)
  else (0, mk_address storage_null 0, buffer, context).

(** [resource_unload] of resource.c only reports a mapped resource. *)
Definition buffer_resource_unload (buffer : wined3d_buffer) (context : wined3d_context)
  : wined3d_buffer * wined3d_context :=
  match buffer_object buffer with
  | None => (buffer, context)
  | Some _ =>
      let '(_, buffer, context) :=
        wined3d_buffer_load_location buffer context WINED3D_LOCATION_SYSMEM in
      let '(buffer, context) :=
        wined3d_buffer_invalidate_location buffer context WINED3D_LOCATION_BUFFER in
      let '(buffer, context) :=
        wined3d_buffer_unload_location buffer context WINED3D_LOCATION_BUFFER in
      let buffer := buffer_clear_dirty_areas buffer in
      let buffer := set_conversion_map None buffer in
      let buffer := set_stride 0 buffer in
      let buffer := set_conversion_stride 0 buffer in
      let buffer :=
        set_flags (Z.land (flags buffer) (not32 WINED3D_BUFFER_HASDESC)) buffer in
      (buffer, context)
  end.

Definition wined3d_buffer_drop_bo (buffer : wined3d_buffer) (context : wined3d_context)
  : wined3d_buffer * wined3d_context :=
  let buffer :=
    set_flags (Z.land (flags buffer) (not32 WINED3D_BUFFER_USE_BO)) buffer in
  buffer_resource_unload buffer context.

(** ** Load orchestrator (component G) *)

(** The branch a call of [wined3d_buffer_load] leaves through.  The C
    function returns nothing; the model returns this tag next to the new
    state. *)
Inductive load_path : Set :=
| path_mapped               (* mapped through the buffer object *)
| path_no_bo                (* WINED3D_BUFFER_USE_BO is not set *)
| path_prepare_failed
| path_clean                (* nothing changed, nothing dirty *)
| path_decl_changed_drop    (* declaration changed, buffer object dropped *)
| path_decl_changed         (* declaration changed, whole buffer reloaded *)
| path_full_conversion_drop (* too many full conversions *)
| path_full_conversion      (* fully dirty buffer converted again *)
| path_upload.              (* dirty ranges uploaded, counted as a draw *)

Definition count_draw (buffer : wined3d_buffer) : wined3d_buffer :=
  let buffer := set_draw_count (u32 (draw_count buffer + 1)) buffer in
  let buffer :=
    if draw_count buffer >? VB_RESETDECLCHANGE
    then set_decl_change_count 0 buffer else buffer in
  if draw_count buffer >? VB_RESETFULLCONVS
  then set_full_conversion_count 0 buffer else buffer.

Definition wined3d_buffer_load (buffer : wined3d_buffer) (context : wined3d_context)
    (state : option wined3d_state) : load_path * wined3d_buffer * wined3d_context :=
  let d3d_info_ := d3d_info context in
  if negb (map_count (resource buffer) =? 0) && negb (map_ptr buffer =? 0)
  then (path_mapped, buffer, context)
  else if negb (test (flags buffer) WINED3D_BUFFER_USE_BO)
  then (path_no_bo, buffer, context)
  else
    let '(prepared, buffer, context) :=
      wined3d_buffer_prepare_location buffer context WINED3D_LOCATION_BUFFER in
    if negb prepared then (path_prepare_failed, buffer, context)
    else
      let '(decl_changed, buffer) :=
        match state with
        | Some state =>
            let fixup_flags := 0 in
            let fixup_flags :=
              if negb (use_vs state)
                 && (negb (vertex_bgra d3d_info_)
                     && negb (ffp_generic_attributes d3d_info_))
              then Z.lor fixup_flags WINED3D_BUFFER_FIXUP_D3DCOLOR else fixup_flags in
            let fixup_flags :=
              if negb (use_vs state) && negb (xyzrhw d3d_info_)
              then Z.lor fixup_flags WINED3D_BUFFER_FIXUP_XYZRHW else fixup_flags in
            let '(decl_changed, buffer) :=
              buffer_find_decl buffer (stream_info context) state fixup_flags in
            (decl_changed,
             set_flags (Z.lor (flags buffer) WINED3D_BUFFER_HASDESC) buffer)
        | None => (false, buffer)
        end in
      if negb decl_changed
         && negb (test (flags buffer) WINED3D_BUFFER_HASDESC && buffer_is_dirty buffer)
      then (path_clean, count_draw buffer, context)
      else if decl_changed then
        let buffer :=
          set_decl_change_count (u32 (decl_change_count buffer + 1)) buffer in
        let buffer := set_draw_count 0 buffer in
        if (decl_change_count buffer >? VB_MAXDECLCHANGES)
           || (bool_decide (conversion_map buffer <> None)
               && test (usage (resource buffer)) WINED3DUSAGE_DYNAMIC)
        then
          let '(buffer, context) := wined3d_buffer_drop_bo buffer context in
          (path_decl_changed_drop, buffer, context)
        else
          let '(buffer, context) := buffer_invalidate_bo_range buffer context 0 0 in
          let '(_, buffer, context) :=
            wined3d_buffer_load_location buffer context WINED3D_LOCATION_BUFFER in
          (path_decl_changed, buffer, context)
      else if bool_decide (conversion_map buffer <> None) && buffer_is_fully_dirty buffer
      then
        let buffer :=
          set_full_conversion_count (u32 (full_conversion_count buffer + 1)) buffer in
        if full_conversion_count buffer >? VB_MAXFULLCONVERSIONS then
          let '(buffer, context) := wined3d_buffer_drop_bo buffer context in
          (path_full_conversion_drop, buffer, context)
        else
          let '(_, buffer, context) :=
            wined3d_buffer_load_location buffer context WINED3D_LOCATION_BUFFER in
          (path_full_conversion, buffer, context)
      else
        let buffer := count_draw buffer in
        let '(_, buffer, context) :=
          wined3d_buffer_load_location buffer context WINED3D_LOCATION_BUFFER in
        (path_upload, buffer, context).

Definition buffer_resource_preload (buffer : wined3d_buffer) (context : wined3d_context)
  : wined3d_buffer * wined3d_context :=
  let '(_, buffer, context) := wined3d_buffer_load buffer context None in
  (buffer, context).

(** ** Map and unmap (component F) *)

(** The pointer a map returns: into the mapping of the buffer object, or
    an offset into the host memory (null when there is none). *)
Inductive mapped_pointer : Set :=
| pointer_bo_mapping (address : Z)
| pointer_heap_memory (offset : Z).

(** Modelled from the spec: [wined3d_context_map_bo_address] and
    [wined3d_context_unmap_bo_address] belong to the context.  "obtain
    the backend's BO-mapped pointer for the whole BO": an address chosen
    by the backend; without a buffer object the address is null. *)
Definition wined3d_context_map_bo_address (context : wined3d_context)
    (buffer : wined3d_buffer) (size_ map_flags : Z) : Z * wined3d_context :=
  let context := log (call_map_bo_address size_ map_flags) context in
  match buffer_object buffer with
  | Some _ => next_map_address context
  | None => (0, context)
  end.

Definition wined3d_context_unmap_bo_address (context : wined3d_context)
    (ranges : list wined3d_range) : wined3d_context :=
  log (call_unmap_bo_address ranges) context.

Definition buffer_resource_sub_resource_map (buffer : wined3d_buffer)
    (context : wined3d_context) (sub_resource_idx : Z) (box : wined3d_box) (flags_ : Z)
  : HRESULT * option mapped_pointer * wined3d_buffer * wined3d_context :=
  let offset := left box in
  let dirty_offset := offset in
  let size_ := u32 (right box - left box) in
  let dirty_size := size_ in
  let count := s32 (map_count (resource buffer) + 1) in
  let buffer := set_resource (set_map_count count (resource buffer)) buffer in
  let '(dirty_offset, dirty_size) :=
    if test flags_ WINED3D_MAP_DISCARD then (0, 0) else (dirty_offset, dirty_size) in
  let finish (buffer : wined3d_buffer) (context : wined3d_context) :=
    let pointer :=
      if negb (map_ptr buffer =? 0) then pointer_bo_mapping (map_ptr buffer + offset)
      else pointer_heap_memory offset in
    (WINED3D_OK, Some pointer, buffer, context) in
  if (test flags_ WINED3D_MAP_WRITE
      && negb (test flags_ (Z.lor WINED3D_MAP_NOOVERWRITE WINED3D_MAP_DISCARD)))
     || (negb (test flags_ WINED3D_MAP_WRITE)
         && test (locations buffer) WINED3D_LOCATION_SYSMEM)
     || pin_sysmem (resource buffer)
     || negb (test (flags buffer) WINED3D_BUFFER_USE_BO)
  then
    let '(buffer, context) :=
      if negb (test (locations buffer) WINED3D_LOCATION_SYSMEM) then
        let '(_, buffer, context) :=
          wined3d_buffer_load_location buffer context WINED3D_LOCATION_SYSMEM in
        (buffer, context)
      else (buffer, context) in
    let '(buffer, context) :=
      if test flags_ WINED3D_MAP_WRITE
      then wined3d_buffer_invalidate_range buffer context
             (not32 WINED3D_LOCATION_SYSMEM) dirty_offset dirty_size
      else (buffer, context) in
    finish buffer context
  else
    let '(resident, buffer, context) :=
      if test flags_ WINED3D_MAP_DISCARD then
        let '(ok, buffer, context) :=
          wined3d_buffer_prepare_location buffer context WINED3D_LOCATION_BUFFER in
        if negb ok then (false, buffer, context)
        else (true, wined3d_buffer_validate_location buffer WINED3D_LOCATION_BUFFER,
              context)
      else
        let '(_, buffer, context) :=
          wined3d_buffer_load_location buffer context WINED3D_LOCATION_BUFFER in
        (true, buffer, context) in
    if negb resident then (E_OUTOFMEMORY, None, buffer, context)
    else
      let '(buffer, context) :=
        if test flags_ WINED3D_MAP_WRITE then
          let '(buffer, context) :=
            wined3d_buffer_invalidate_location buffer context
              (not32 WINED3D_LOCATION_BUFFER) in
          buffer_invalidate_bo_range buffer context dirty_offset dirty_size
        else (buffer, context) in
      let '(buffer, context) :=
        if test flags_ WINED3D_MAP_DISCARD
           && bool_decide (heap_memory (resource buffer) <> None)
        then wined3d_buffer_evict_sysmem buffer context
        else (buffer, context) in
      let '(buffer, context) :=
        if count =? 1 then
          let '(address, context) :=
            wined3d_context_map_bo_address context buffer (size (resource buffer)) flags_ in
          let buffer := set_map_ptr address buffer in
          if negb (Z.land (map_ptr buffer) (RESOURCE_ALIGNMENT - 1) =? 0) then
            let context := wined3d_context_unmap_bo_address context [] in
            let buffer := set_map_ptr 0 buffer in
            if test (usage (resource buffer)) WINED3DUSAGE_DYNAMIC
            then wined3d_buffer_drop_bo buffer context
            else
              let '(_, buffer, context) :=
                wined3d_buffer_load_location buffer context WINED3D_LOCATION_SYSMEM in
              (set_resource (set_pin_sysmem true (resource buffer)) buffer, context)
          else (buffer, context)
        else (buffer, context) in
      finish buffer context.

Definition buffer_resource_sub_resource_unmap (buffer : wined3d_buffer)
    (context : wined3d_context) (sub_resource_idx : Z)
  : HRESULT * wined3d_buffer * wined3d_context :=
  let ranges := maps buffer in
  if negb (sub_resource_idx =? 0) then (E_INVALIDARG, buffer, context)
  else if map_count (resource buffer) =? 0 then (WINED3D_OK, buffer, context)
  else
    let buffer :=
      set_resource
        (set_map_count (s32 (map_count (resource buffer) - 1)) (resource buffer))
        buffer in
    if negb (map_count (resource buffer) =? 0) then (WINED3D_OK, buffer, context)
    else if map_ptr buffer =? 0 then (WINED3D_OK, buffer, context)
    else
      let context := wined3d_context_unmap_bo_address context ranges in
      let buffer := buffer_clear_dirty_areas buffer in
      (WINED3D_OK, set_map_ptr 0 buffer, context).


Definition wined3d_buffer_copy_bo_address (dst_buffer : wined3d_buffer)
    (context : wined3d_context) (dst_offset : Z) (src_addr : wined3d_bo_address)
    (size_ : Z) : wined3d_buffer * wined3d_context :=
  let map_flags := WINED3D_MAP_WRITE in
  let map_flags :=
    if (dst_offset =? 0) && (size_ =? size (resource dst_buffer))
    then Z.lor map_flags WINED3D_MAP_DISCARD else map_flags in
  let '(dst_location, dst_addr, dst_buffer, context) :=
    wined3d_buffer_get_memory dst_buffer context in
  let dst_addr :=
    mk_address (address_storage dst_addr) (address_offset dst_addr + dst_offset) in
  let '(dst_buffer, context) :=
    wined3d_context_copy_bo_address context dst_buffer dst_addr src_addr
      [mk_range 0 size_] map_flags in
  wined3d_buffer_invalidate_range dst_buffer context (not32 dst_location) dst_offset size_.

(** ** Creation *)

Record wined3d_buffer_desc : Set := mk_desc {
  byte_width : Z;
  desc_usage : Z;
  desc_bind_flags : Z;
  desc_access : Z;
  misc_flags : Z;
  desc_structure_byte_stride : Z;
}.

(** What creation reads from the device: the adapter's table of buffer
    operations, the creation flags, the GL and Vulkan extensions and the
    settings. *)
Record wined3d_device : Set := mk_device {
  adapter_buffer_ops : wined3d_buffer_ops;
  software_vertexprocessing : bool;
  arb_vertex_buffer_object : bool;
  flush_or_map_buffer_range : bool;
  ext_transform_feedback : bool;
  cb_access_map_w : bool;
}.

(** The zero-filled structure the adapter allocates. *)
Definition zero_buffer : wined3d_buffer :=
  mk_buffer (mk_resource 0 0 0 0 false None 0) wined3d_buffer_no3d_ops
    0 0 0 0 None [] 0 0 0 0 0 None 0.

(** Modelled from the spec: [resource_init] lives in resource.c.
    "Descriptor fields consumed: byte_width, usage, bind_flags, access":
    it records them in the resource, which starts unmapped and without
    host memory. *)
Definition resource_init (r : wined3d_resource) (usage_ bind_flags_ access_ size_ : Z)
  : wined3d_resource :=
  mk_resource size_ usage_ bind_flags_ access_ (pin_sysmem r) (heap_memory r) 0.

(** [struct wined3d_sub_resource_data]: the initial contents handed to
    creation.  [sub_resource_bytes] is the memory [data->data] points to,
    [None] for a null pointer. *)
Record wined3d_sub_resource_data : Set := mk_sub_resource_data {
  sub_resource_bytes : option (list Z);
  row_pitch : Z;
  slice_pitch : Z;
}.

(** With a buffer object in use the initial contents go to the command
    stream, which is outside of the file: the call is logged.  Otherwise
    they are copied to the host memory, which [wined3d_buffer_init] has
    prepared; the C code reads [resource->size] bytes from [data->data]
    whatever the size of that block, the model copies what is there. *)
Definition wined3d_buffer_init_data (buffer : wined3d_buffer) (context : wined3d_context)
    (data : wined3d_sub_resource_data) : wined3d_buffer * wined3d_context :=
  let bytes := default [] (sub_resource_bytes data) in
  if test (flags buffer) WINED3D_BUFFER_USE_BO then
    let box := mk_box 0 (size (resource buffer)) in
    (buffer,
     log (call_emit_update_sub_resource 0 box bytes (row_pitch data) (slice_pitch data))
       context)
  else
    let buffer :=
      match heap_memory (resource buffer) with
      | Some heap =>
          set_resource
            (set_heap_memory (Some (memcpy heap 0 bytes 0 (size (resource buffer))))
               (resource buffer)) buffer
      | None => buffer
      end in
    let buffer := wined3d_buffer_validate_location buffer WINED3D_LOCATION_SYSMEM in
    wined3d_buffer_invalidate_location buffer context (not32 WINED3D_LOCATION_SYSMEM).

(** [data] is [None] for a null pointer: creation without initial
    contents. *)
Definition wined3d_buffer_init (buffer : wined3d_buffer) (device : wined3d_device)
    (desc : wined3d_buffer_desc) (data : option wined3d_sub_resource_data)
    (context : wined3d_context) (buffer_ops_ : wined3d_buffer_ops)
  : HRESULT * wined3d_buffer * wined3d_context :=
  if byte_width desc =? 0 then (E_INVALIDARG, buffer, context)
  else if test (desc_bind_flags desc) WINED3D_BIND_CONSTANT_BUFFER
          && test (byte_width desc) (WINED3D_CONSTANT_BUFFER_ALIGNMENT - 1)
  then (E_INVALIDARG, buffer, context)
  else if match data with
          | Some d => bool_decide (sub_resource_bytes d = None)
          | None => false
          end
  then (E_INVALIDARG, buffer, context)
  else
    let access_ := desc_access desc in
    let access_ :=
      if test (desc_bind_flags desc) WINED3D_BIND_CONSTANT_BUFFER && cb_access_map_w device
      then Z.lor access_ WINED3D_RESOURCE_ACCESS_MAP_W else access_ in
    let buffer :=
      set_resource
        (resource_init (resource buffer) (desc_usage desc) (desc_bind_flags desc)
           access_ (byte_width desc)) buffer in
    let buffer :=
      mk_buffer (resource buffer) buffer_ops_ (desc_structure_byte_stride desc)
        (flags buffer) WINED3D_LOCATION_CLEARED (map_ptr buffer) (buffer_object buffer)
        (maps buffer) (maps_size buffer) (decl_change_count buffer)
        (full_conversion_count buffer) (draw_count buffer) (stride buffer)
        (conversion_map buffer) (conversion_stride buffer) in
    let buffer :=
      if software_vertexprocessing device || test (desc_usage desc) WINED3DUSAGE_MANAGED
      then set_locations WINED3D_LOCATION_SYSMEM
             (set_resource (set_pin_sysmem true (resource buffer)) buffer)
      else buffer in
    let '(ok, buffer, context) :=
      if test (locations buffer) WINED3D_LOCATION_SYSMEM
         || negb (test (flags buffer) WINED3D_BUFFER_USE_BO)
      then prepare_sysmem buffer context
      else (true, buffer, context) in
    if negb ok then (E_OUTOFMEMORY, buffer, context)
    else
      let '(maps_ok, context) := allocate context in
      if negb maps_ok then
        let '(buffer, context) := buffer_resource_unload buffer context in
        (E_OUTOFMEMORY, buffer, context)
      else
        let buffer := set_maps_size 1 buffer in
        let '(buffer, context) :=
          match data with
          | Some d => wined3d_buffer_init_data buffer context d
          | None => (buffer, context)
          end in
        (WINED3D_OK, buffer, context).

Definition wined3d_buffer_no3d_init (buffer_no3d : wined3d_buffer) (device : wined3d_device)
    (desc : wined3d_buffer_desc) (data : option wined3d_sub_resource_data)
    (context : wined3d_context) : HRESULT * wined3d_buffer * wined3d_context :=
  wined3d_buffer_init buffer_no3d device desc data context wined3d_buffer_no3d_ops.

Definition wined3d_buffer_gl_init (buffer_gl : wined3d_buffer) (device : wined3d_device)
    (desc : wined3d_buffer_desc) (data : option wined3d_sub_resource_data)
    (context : wined3d_context) : HRESULT * wined3d_buffer * wined3d_context :=
  let buffer_gl :=
    if negb (test (desc_access desc) WINED3D_RESOURCE_ACCESS_GPU) then buffer_gl
    else if negb (arb_vertex_buffer_object device) then buffer_gl
    else if negb (flush_or_map_buffer_range device)
            && test (desc_usage desc) WINED3DUSAGE_DYNAMIC then buffer_gl
    else set_flags (Z.lor (flags buffer_gl) WINED3D_BUFFER_USE_BO) buffer_gl in
  wined3d_buffer_init buffer_gl device desc data context wined3d_buffer_gl_ops.

Definition wined3d_buffer_vk_init (buffer_vk : wined3d_buffer) (device : wined3d_device)
    (desc : wined3d_buffer_desc) (data : option wined3d_sub_resource_data)
    (context : wined3d_context) : HRESULT * wined3d_buffer * wined3d_context :=
  if test (desc_bind_flags desc) WINED3D_BIND_STREAM_OUTPUT
     && negb (ext_transform_feedback device)
  then (WINED3DERR_INVALIDCALL, buffer_vk, context)
  else
    let buffer_vk :=
      if test (desc_access desc) WINED3D_RESOURCE_ACCESS_GPU
      then set_flags (Z.lor (flags buffer_vk) WINED3D_BUFFER_USE_BO) buffer_vk
      else buffer_vk in
    wined3d_buffer_init buffer_vk device desc data context wined3d_buffer_vk_ops.

(** Modelled from the spec: [adapter_create_buffer] belongs to the
    adapters.  "On success, returns an opaque buffer handle": the adapter
    allocates a zero-filled structure and runs the initialisation of its
    backend; a failed initialisation frees the structure. *)
Definition wined3d_buffer_create (device : wined3d_device) (desc : wined3d_buffer_desc)
    (data : option wined3d_sub_resource_data) (context : wined3d_context)
  : HRESULT * option wined3d_buffer * wined3d_context :=
  let '(ok, context) := allocate context in
  if negb ok then (E_OUTOFMEMORY, None, context)
  else
    let '(hr, buffer, context) :=
      match adapter_buffer_ops device with
      | wined3d_buffer_no3d_ops =>
          wined3d_buffer_no3d_init zero_buffer device desc data context
      | wined3d_buffer_gl_ops =>
          wined3d_buffer_gl_init zero_buffer device desc data context
      | wined3d_buffer_vk_ops =>
          wined3d_buffer_vk_init zero_buffer device desc data context
      end in
    if SUCCEEDED hr then (hr, Some buffer, context) else (hr, None, context).

(** ** Streaming buffer (component H) *)

Record wined3d_streaming_buffer : Type := mk_streaming_buffer {
  buffer : option wined3d_buffer;
  pos : Z;
  streaming_bind_flags : Z;
}.

Definition wined3d_streaming_buffer_prepare (device : wined3d_device)
    (context : wined3d_context) (buffer_ : wined3d_streaming_buffer) (min_size : Z)
  : HRESULT * wined3d_streaming_buffer * wined3d_context :=
  let old_size :=
    match buffer buffer_ with Some b => size (resource b) | None => 0 end in
  if bool_decide (buffer buffer_ <> None) && (old_size >=? min_size)
  then (WINED3D_OK, buffer_, context)
  else
    let size_ := Z.max SB_MIN_SIZE (Z.max (u32 (old_size * 2)) min_size) in
    let desc :=
      mk_desc size_ WINED3DUSAGE_DYNAMIC (streaming_bind_flags buffer_)
        (Z.lor WINED3D_RESOURCE_ACCESS_GPU WINED3D_RESOURCE_ACCESS_MAP_W) 0 0 in
    let '(hr, wined3d_buffer_, context) :=
      wined3d_buffer_create device desc None context in
    if SUCCEEDED hr
    then (hr, mk_streaming_buffer wined3d_buffer_ 0 (streaming_bind_flags buffer_), context)
    else (hr, buffer_, context).

(** Modelled from the spec: [wined3d_resource_map] and
    [wined3d_resource_unmap] live in resource.c.  "Map a sub-box
    [pos, pos+size) with WRITE", "unmap the underlying buffer": the
    calls reach the map and unmap operations of the buffer. *)
Definition wined3d_resource_map (buffer_ : wined3d_buffer) (context : wined3d_context)
    (sub_resource_idx : Z) (box : wined3d_box) (flags_ : Z)
  : HRESULT * option mapped_pointer * wined3d_buffer * wined3d_context :=
  buffer_resource_sub_resource_map buffer_
    (log (call_resource_map sub_resource_idx box flags_) context)
    sub_resource_idx box flags_.

Definition wined3d_resource_unmap (buffer_ : wined3d_buffer) (context : wined3d_context)
    (sub_resource_idx : Z) : HRESULT * wined3d_buffer * wined3d_context :=
  buffer_resource_sub_resource_unmap buffer_
    (log (call_resource_unmap sub_resource_idx) context) sub_resource_idx.

(** What a call of [wined3d_streaming_buffer_map] gives back: the result,
    [*ret_pos] and [*ret_data] when they are written, and the flags the
    buffer was mapped with (the latter for the statements only). *)
Record streaming_map_result : Set := mk_streaming_map_result {
  map_hr : HRESULT;
  ret_pos : option Z;
  ret_data : option mapped_pointer;
  map_flags_used : option Z;
}.

(** With a zero [stride] the C code traps on [pos % stride]. *)
Definition wined3d_streaming_buffer_map (device : wined3d_device)
    (context : wined3d_context) (buffer_ : wined3d_streaming_buffer) (size_ stride_ : Z)
  : streaming_map_result * wined3d_streaming_buffer * wined3d_context :=
  let map_flags := WINED3D_MAP_WRITE in
  let '(hr, buffer_, context) :=
    wined3d_streaming_buffer_prepare device context buffer_ size_ in
  match buffer buffer_ with
  | Some resource_ =>
      if negb (SUCCEEDED hr)
      then (mk_streaming_map_result hr None None None, buffer_, context)
      else
        let pos_ := pos buffer_ in
        let align := pos_ mod stride_ in
        let align := if negb (align =? 0) then u32 (stride_ - align) else align in
        let '(pos_, map_flags) :=
          if u32 (pos_ + size_ + align) >? size (resource resource_)
          then (0, Z.lor map_flags WINED3D_MAP_DISCARD)
          else (u32 (pos_ + align), Z.lor map_flags WINED3D_MAP_NOOVERWRITE) in
        let box := mk_box pos_ (u32 (pos_ + size_)) in
        let '(hr, data, resource_, context) :=
          wined3d_resource_map resource_ context 0 box map_flags in
        if SUCCEEDED hr
        then (mk_streaming_map_result hr (Some pos_) data (Some map_flags),
              mk_streaming_buffer (Some resource_) (u32 (pos_ + size_))
                (streaming_bind_flags buffer_), context)
        else (mk_streaming_map_result hr None None (Some map_flags),
              mk_streaming_buffer (Some resource_) (pos buffer_)
                (streaming_bind_flags buffer_), context)
  | None => (mk_streaming_map_result hr None None None, buffer_, context)
  end.

Definition wined3d_streaming_buffer_unmap (context : wined3d_context)
    (buffer_ : wined3d_streaming_buffer) : wined3d_streaming_buffer * wined3d_context :=
  match buffer buffer_ with
  | Some resource_ =>
      let '(_, resource_, context) := wined3d_resource_unmap resource_ context 0 in
      (mk_streaming_buffer (Some resource_) (pos buffer_) (streaming_bind_flags buffer_),
       context)
  | None => (buffer_, context)
  end.

(** ** Operations on a live buffer

    The entry points of the file that act on an existing buffer, for the
    statements that range over every operation.  Each call comes with the
    context it runs in. *)

Inductive buffer_op : Type :=
| op_validate_location (location : Z)
| op_invalidate_location (location : Z)
| op_load_location (location : Z)
| op_load_sysmem
| op_get_memory
| op_load (state : option wined3d_state)
| op_preload
| op_unload
| op_map (sub_resource_idx : Z) (box : wined3d_box) (flags_ : Z)
| op_unmap (sub_resource_idx : Z)
| op_copy_bo_address (dst_offset : Z) (src_addr : wined3d_bo_address) (size_ : Z).

Definition run_op (op : buffer_op) (b : wined3d_buffer) (c : wined3d_context)
  : wined3d_buffer * wined3d_context :=
  match op with
  | op_validate_location location => (wined3d_buffer_validate_location b location, c)
  | op_invalidate_location location => wined3d_buffer_invalidate_location b c location
  | op_load_location location =>
      let '(_, b, c) := wined3d_buffer_load_location b c location in (b, c)
  | op_load_sysmem => let '(_, b, c) := wined3d_buffer_load_sysmem b c in (b, c)
  | op_get_memory => let '(_, _, b, c) := wined3d_buffer_get_memory b c in (b, c)
  | op_load state => let '(_, b, c) := wined3d_buffer_load b c state in (b, c)
  | op_preload => buffer_resource_preload b c
  | op_unload => buffer_resource_unload b c
  | op_map sub_resource_idx box flags_ =>
      let '(_, _, b, c) := buffer_resource_sub_resource_map b c sub_resource_idx box flags_ in
      (b, c)
  | op_unmap sub_resource_idx =>
      let '(_, b, c) := buffer_resource_sub_resource_unmap b c sub_resource_idx in (b, c)
  | op_copy_bo_address dst_offset src_addr size_ =>
      wined3d_buffer_copy_bo_address b c dst_offset src_addr size_
  end.

Fixpoint run_ops (ops : list (buffer_op * wined3d_context)) (b : wined3d_buffer)
  : wined3d_buffer :=
  match ops with
  | [] => b
  | (op, c) :: ops => run_ops ops (fst (run_op op b c))
  end.

(** * Vocabulary of the statements *)

(** ** The frame of the residency functions

    Preparing, validating, invalidating and loading locations leave the
    description of the buffer, its counters, its conversion map and its
    mapping alone; of the flags they can only clear
    [WINED3D_BUFFER_USE_BO]. *)

Record frame (b b' : wined3d_buffer) : Prop := mk_frame {
  frame_size : size (resource b') = size (resource b);
  frame_usage : usage (resource b') = usage (resource b);
  frame_map_count : map_count (resource b') = map_count (resource b);
  frame_ops : buffer_ops b' = buffer_ops b;
  frame_map_ptr : map_ptr b' = map_ptr b;
  frame_decl_change_count : decl_change_count b' = decl_change_count b;
  frame_full_conversion_count : full_conversion_count b' = full_conversion_count b;
  frame_draw_count : draw_count b' = draw_count b;
  frame_stride : stride b' = stride b;
  frame_conversion_map : conversion_map b' = conversion_map b;
  frame_flags :
    flags b' = flags b
    \/ flags b' = Z.land (flags b) (not32 WINED3D_BUFFER_USE_BO);
}.


(** ** The exits of a load

    The ways [wined3d_buffer_load_location_body] returns, one
    constructor per [return] of the C function, and the ways
    [buffer_conversion_upload] does. *)

Section LoadExits.

Variable f : wined3d_buffer -> wined3d_context -> Z -> option load_result.

Inductive cleared_stage (b : wined3d_buffer) (c : wined3d_context)
  : bool -> wined3d_buffer -> wined3d_context -> Prop :=
| stage_not_cleared :
    test (locations b) WINED3D_LOCATION_CLEARED = false ->
    cleared_stage b c true b c
| stage_cleared ok b1 c1 :
    test (locations b) WINED3D_LOCATION_CLEARED = true ->
    wined3d_buffer_prepare_location b c WINED3D_LOCATION_SYSMEM = (ok, b1, c1) ->
    cleared_stage b c ok (if ok then memset_heap_memory b1 else b1) c1.

Inductive upload_exit (b : wined3d_buffer) (c : wined3d_context)
  : wined3d_buffer -> wined3d_context -> Prop :=
| upload_no_sysmem b1 c1 :
    f b c WINED3D_LOCATION_SYSMEM = Some (false, b1, c1) ->
    upload_exit b c b1 c1
| upload_no_memory b1 c1 c2 :
    f b c WINED3D_LOCATION_SYSMEM = Some (true, b1, c1) ->
    allocate c1 = (false, c2) ->
    upload_exit b c (set_resource (set_pin_sysmem true (resource b1)) b1) c2
| upload_done b1 c1 c2 b3 c3 :
    f b c WINED3D_LOCATION_SYSMEM = Some (true, b1, c1) ->
    allocate c1 = (true, c2) ->
    (let b2 := set_resource (set_pin_sysmem true (resource b1)) b1 in
     wined3d_context_copy_bo_address c2 b2
       (mk_address storage_bo 0)
       (mk_address
          (storage_data
             (fold_left (convert_range (float_nan c2) b2) (maps b2)
                (uninitialised c2 (size (resource b2))))) 0)
       (maps b2) WINED3D_MAP_WRITE) = (b3, c3) ->
    upload_exit b c b3 c3.

Inductive load_exit (b : wined3d_buffer) (c : wined3d_context) (l : Z)
  : load_result -> Prop :=
| exit_valid :
    test (locations b) l = true ->
    load_exit b c l (true, b, c)
| exit_recovered r :
    test (locations b) l = false ->
    locations b = 0 ->
    f (wined3d_buffer_validate_location b WINED3D_LOCATION_DISCARDED) c l = Some r ->
    load_exit b c l r
| exit_not_prepared b1 c1 :
    test (locations b) l = false ->
    locations b <> 0 ->
    wined3d_buffer_prepare_location b c l = (false, b1, c1) ->
    load_exit b c l (false, b1, c1)
| exit_discarded b1 c1 b2 c2 :
    test (locations b) l = false ->
    locations b <> 0 ->
    wined3d_buffer_prepare_location b c l = (true, b1, c1) ->
    test (locations b1) WINED3D_LOCATION_DISCARDED = true ->
    wined3d_buffer_invalidate_location (wined3d_buffer_validate_location b1 l) c1
      WINED3D_LOCATION_DISCARDED = (b2, c2) ->
    load_exit b c l (true, b2, c2)
| exit_sysmem_cleared b1 c1 :
    test (locations b) l = false ->
    locations b <> 0 ->
    wined3d_buffer_prepare_location b c l = (true, b1, c1) ->
    test (locations b1) WINED3D_LOCATION_DISCARDED = false ->
    l = WINED3D_LOCATION_SYSMEM ->
    test (locations b1) WINED3D_LOCATION_CLEARED = true ->
    load_exit b c l (load_location_finish (memset_heap_memory b1) c1 l)
| exit_sysmem_copied b1 c1 b2 c2 :
    test (locations b) l = false ->
    locations b <> 0 ->
    wined3d_buffer_prepare_location b c l = (true, b1, c1) ->
    test (locations b1) WINED3D_LOCATION_DISCARDED = false ->
    l = WINED3D_LOCATION_SYSMEM ->
    test (locations b1) WINED3D_LOCATION_CLEARED = false ->
    wined3d_context_copy_bo_address c1 b1 (mk_address storage_heap 0)
      (mk_address storage_bo 0) [mk_range 0 (size (resource b1))] WINED3D_MAP_WRITE
    = (b2, c2) ->
    load_exit b c l (load_location_finish b2 c2 l)
| exit_buffer_no_sysmem b1 c1 b2 c2 :
    test (locations b) l = false ->
    locations b <> 0 ->
    wined3d_buffer_prepare_location b c l = (true, b1, c1) ->
    test (locations b1) WINED3D_LOCATION_DISCARDED = false ->
    l = WINED3D_LOCATION_BUFFER ->
    cleared_stage b1 c1 false b2 c2 ->
    load_exit b c l (false, b2, c2)
| exit_buffer_copied b1 c1 b2 c2 b3 c3 :
    test (locations b) l = false ->
    locations b <> 0 ->
    wined3d_buffer_prepare_location b c l = (true, b1, c1) ->
    test (locations b1) WINED3D_LOCATION_DISCARDED = false ->
    l = WINED3D_LOCATION_BUFFER ->
    cleared_stage b1 c1 true b2 c2 ->
    conversion_map b2 = None ->
    wined3d_context_copy_bo_address c2 b2 (mk_address storage_bo 0)
      (mk_address storage_heap 0) (maps b2)
      (if buffer_is_fully_dirty b2
       then Z.lor WINED3D_MAP_WRITE WINED3D_MAP_DISCARD else WINED3D_MAP_WRITE)
    = (b3, c3) ->
    load_exit b c l (load_location_finish b3 c3 l)
| exit_buffer_converted b1 c1 b2 c2 b3 c3 :
    test (locations b) l = false ->
    locations b <> 0 ->
    wined3d_buffer_prepare_location b c l = (true, b1, c1) ->
    test (locations b1) WINED3D_LOCATION_DISCARDED = false ->
    l = WINED3D_LOCATION_BUFFER ->
    cleared_stage b1 c1 true b2 c2 ->
    conversion_map b2 <> None ->
    upload_exit b2 c2 b3 c3 ->
    load_exit b c l (load_location_finish b3 c3 l)
| exit_invalid b1 c1 :
    test (locations b) l = false ->
    locations b <> 0 ->
    wined3d_buffer_prepare_location b c l = (true, b1, c1) ->
    test (locations b1) WINED3D_LOCATION_DISCARDED = false ->
    l <> WINED3D_LOCATION_SYSMEM ->
    l <> WINED3D_LOCATION_BUFFER ->
    load_exit b c l (false, b1, c1).

End LoadExits.

(** ** Counting copies *)

Definition is_copy (e : call) : bool :=
  match e with call_copy_bo_address _ _ _ => true | _ => false end.

Fixpoint count_copies (l : list call) : nat :=
  match l with
  | [] => 0
  | e :: l => ((if is_copy e then 1 else 0) + count_copies l)%nat
  end.

(** The number of copies the context has been asked for. *)
Definition copies (c : wined3d_context) : nat := count_copies (calls c).


(** ** Byte lanes of a 32-bit colour *)

Definition lane (v k : Z) : Z := Z.land (Z.shiftr v (8 * k)) 0xff.

(** ** Sample values

    A context whose allocations succeed, an OpenGL device, and the
    64-byte vertex buffer that [wined3d_buffer_gl_init] creates on it. *)

Definition sample_context : wined3d_context :=
  mk_context (mk_d3d_info false false false false) (mk_stream_info [] false 0) [] []
    (fun _ => 0xcd) (fun _ _ => 0) [].

Definition with_alloc_results (results : list bool) (c : wined3d_context)
  : wined3d_context :=
  mk_context (d3d_info c) (stream_info c) results (bo_map_addresses c)
    (heap_contents c) (float_nan c) (calls c).

Definition with_bo_map_addresses (addresses : list Z) (c : wined3d_context)
  : wined3d_context :=
  mk_context (d3d_info c) (stream_info c) (alloc_results c) addresses
    (heap_contents c) (float_nan c) (calls c).

Definition sample_device : wined3d_device :=
  mk_device wined3d_buffer_gl_ops false true true true false.

Definition sample_desc (usage_ : Z) : wined3d_buffer_desc :=
  mk_desc 64 usage_ WINED3D_BIND_VERTEX_BUFFER
    (Z.lor WINED3D_RESOURCE_ACCESS_GPU WINED3D_RESOURCE_ACCESS_MAP_W) 0 0.

Definition sample_buffer : wined3d_buffer :=
  snd (fst (wined3d_buffer_gl_init zero_buffer sample_device (sample_desc 0) None
              sample_context)).

Definition sample_dynamic_buffer : wined3d_buffer :=
  snd (fst (wined3d_buffer_gl_init zero_buffer sample_device
              (sample_desc WINED3DUSAGE_DYNAMIC) None sample_context)).

(** A 4-byte buffer holding the colour 0x11223344 in host memory, with a
    buffer object, stride 4 and a conversion map of D3DCOLOR, fully
    dirty. *)
Definition sample_color_buffer : wined3d_buffer :=
  mk_buffer
    (mk_resource 4 0 WINED3D_BIND_VERTEX_BUFFER WINED3D_RESOURCE_ACCESS_GPU false
       (Some (store32 (zeroes 4) 0 0x11223344)) 0)
    wined3d_buffer_gl_ops 0
    (Z.lor WINED3D_BUFFER_HASDESC WINED3D_BUFFER_USE_BO)
    WINED3D_LOCATION_SYSMEM 0 (Some (zeroes 4)) [mk_range 0 4] 1 0 0 0 4
    (Some (replicate 4 CONV_D3DCOLOR)) 0.

(** ** What every operation keeps

    No operation on a live buffer changes its size, its usage or its
    table of operations, and none sets [WINED3D_BUFFER_USE_BO]. *)

Definition use_bo (b : wined3d_buffer) : bool := test (flags b) WINED3D_BUFFER_USE_BO.

Record kept (b b' : wined3d_buffer) : Prop := mk_kept {
  kept_size : size (resource b') = size (resource b);
  kept_usage : usage (resource b') = usage (resource b);
  kept_ops : buffer_ops b' = buffer_ops b;
  kept_use_bo : use_bo b' = true -> use_bo b = true;
}.

(** ** The exits of a map

    The ways [buffer_resource_sub_resource_map] returns: through the host
    memory, with the out-of-memory error, or through the buffer object,
    where the first map also obtains the mapping and may fall back. *)

Definition map_through_sysmem (b : wined3d_buffer) (flags_ : Z) : bool :=
  (test flags_ WINED3D_MAP_WRITE
   && negb (test flags_ (Z.lor WINED3D_MAP_NOOVERWRITE WINED3D_MAP_DISCARD)))
  || (negb (test flags_ WINED3D_MAP_WRITE)
      && test (locations b) WINED3D_LOCATION_SYSMEM)
  || pin_sysmem (resource b)
  || negb (test (flags b) WINED3D_BUFFER_USE_BO).

Definition dirty_range (box : wined3d_box) (flags_ : Z) : Z * Z :=
  if test flags_ WINED3D_MAP_DISCARD then (0, 0)
  else (left box, u32 (right box - left box)).

Definition returned_pointer (b : wined3d_buffer) (box : wined3d_box) : mapped_pointer :=
  if negb (map_ptr b =? 0) then pointer_bo_mapping (map_ptr b + left box)
  else pointer_heap_memory (left box).

Definition count_map (b : wined3d_buffer) : wined3d_buffer :=
  set_resource (set_map_count (s32 (map_count (resource b) + 1)) (resource b)) b.

Inductive first_map (flags_ : Z) (b : wined3d_buffer) (c : wined3d_context)
  : wined3d_buffer -> wined3d_context -> Prop :=
| first_map_aligned address c1 :
    wined3d_context_map_bo_address c b (size (resource b)) flags_ = (address, c1) ->
    Z.land address (RESOURCE_ALIGNMENT - 1) = 0 ->
    first_map flags_ b c (set_map_ptr address b) c1
| first_map_dropped address c1 b2 c2 :
    wined3d_context_map_bo_address c b (size (resource b)) flags_ = (address, c1) ->
    Z.land address (RESOURCE_ALIGNMENT - 1) <> 0 ->
    test (usage (resource b)) WINED3DUSAGE_DYNAMIC = true ->
    wined3d_buffer_drop_bo (set_map_ptr 0 (set_map_ptr address b))
      (wined3d_context_unmap_bo_address c1 []) = (b2, c2) ->
    first_map flags_ b c b2 c2
| first_map_doublebuffered address c1 ok b2 c2 :
    wined3d_context_map_bo_address c b (size (resource b)) flags_ = (address, c1) ->
    Z.land address (RESOURCE_ALIGNMENT - 1) <> 0 ->
    test (usage (resource b)) WINED3DUSAGE_DYNAMIC = false ->
    wined3d_buffer_load_location (set_map_ptr 0 (set_map_ptr address b))
      (wined3d_context_unmap_bo_address c1 []) WINED3D_LOCATION_SYSMEM = (ok, b2, c2) ->
    first_map flags_ b c (set_resource (set_pin_sysmem true (resource b2)) b2) c2.

Inductive map_resident (flags_ : Z) (b : wined3d_buffer) (c : wined3d_context)
  : wined3d_buffer -> wined3d_context -> Prop :=
| resident_discard b1 c1 :
    test flags_ WINED3D_MAP_DISCARD = true ->
    wined3d_buffer_prepare_location b c WINED3D_LOCATION_BUFFER = (true, b1, c1) ->
    map_resident flags_ b c
      (wined3d_buffer_validate_location b1 WINED3D_LOCATION_BUFFER) c1
| resident_load ok b1 c1 :
    test flags_ WINED3D_MAP_DISCARD = false ->
    wined3d_buffer_load_location b c WINED3D_LOCATION_BUFFER = (ok, b1, c1) ->
    map_resident flags_ b c b1 c1.

Inductive map_exit (b : wined3d_buffer) (c : wined3d_context) (box : wined3d_box)
    (flags_ : Z) : HRESULT * option mapped_pointer * wined3d_buffer * wined3d_context -> Prop :=
| map_exit_sysmem b1 c1 b2 c2 :
    map_through_sysmem b flags_ = true ->
    (if negb (test (locations b) WINED3D_LOCATION_SYSMEM)
     then
       let '(_, b1, c1) :=
         wined3d_buffer_load_location (count_map b) c WINED3D_LOCATION_SYSMEM in
       (b1, c1)
     else (count_map b, c)) = (b1, c1) ->
    (if test flags_ WINED3D_MAP_WRITE
     then wined3d_buffer_invalidate_range b1 c1 (not32 WINED3D_LOCATION_SYSMEM)
            (fst (dirty_range box flags_)) (snd (dirty_range box flags_))
     else (b1, c1)) = (b2, c2) ->
    map_exit b c box flags_ (WINED3D_OK, Some (returned_pointer b2 box), b2, c2)
| map_exit_out_of_memory b1 c1 :
    map_through_sysmem b flags_ = false ->
    test flags_ WINED3D_MAP_DISCARD = true ->
    wined3d_buffer_prepare_location (count_map b) c WINED3D_LOCATION_BUFFER
    = (false, b1, c1) ->
    map_exit b c box flags_ (E_OUTOFMEMORY, None, b1, c1)
| map_exit_bo b1 c1 b2 c2 b3 c3 b4 c4 :
    map_through_sysmem b flags_ = false ->
    map_resident flags_ (count_map b) c b1 c1 ->
    (if test flags_ WINED3D_MAP_WRITE
     then
       let '(b2, c2) :=
         wined3d_buffer_invalidate_location b1 c1 (not32 WINED3D_LOCATION_BUFFER) in
       buffer_invalidate_bo_range b2 c2
         (fst (dirty_range box flags_)) (snd (dirty_range box flags_))
     else (b1, c1)) = (b2, c2) ->
    (if test flags_ WINED3D_MAP_DISCARD
        && bool_decide (heap_memory (resource b2) <> None)
     then wined3d_buffer_evict_sysmem b2 c2
     else (b2, c2)) = (b3, c3) ->
    (s32 (map_count (resource b) + 1) = 1 /\ first_map flags_ b3 c3 b4 c4
     \/ s32 (map_count (resource b) + 1) <> 1 /\ b4 = b3 /\ c4 = c3) ->
    map_exit b c box flags_ (WINED3D_OK, Some (returned_pointer b4 box), b4, c4).

Definition sample_managed_buffer : wined3d_buffer :=
  snd (fst (wined3d_buffer_gl_init zero_buffer sample_device
              (sample_desc WINED3DUSAGE_MANAGED) None sample_context)).

(** ** The exits of the per-draw load *)

(** [b'] is [b] up to its stride and its conversion map. *)
Definition conversion_changed (b b' : wined3d_buffer) : Prop :=
  b' = set_stride (stride b') (set_conversion_map (conversion_map b') b).

(** What inspecting the declaration does to a buffer: it may change the
    stride and the conversion map, and set [WINED3D_BUFFER_HASDESC]. *)
Definition declared (b b' : wined3d_buffer) : Prop :=
  exists b1, conversion_changed b b1
    /\ (b' = b1 \/ b' = set_flags (Z.lor (flags b1) WINED3D_BUFFER_HASDESC) b1).

Definition count_decl_change (b : wined3d_buffer) : wined3d_buffer :=
  set_draw_count 0 (set_decl_change_count (u32 (decl_change_count b + 1)) b).

Definition count_full_conversion (b : wined3d_buffer) : wined3d_buffer :=
  set_full_conversion_count (u32 (full_conversion_count b + 1)) b.

Inductive draw_exit (b : wined3d_buffer) (c : wined3d_context)
  : load_path * wined3d_buffer * wined3d_context -> Prop :=
| draw_mapped :
    map_count (resource b) <> 0 -> map_ptr b <> 0 ->
    draw_exit b c (path_mapped, b, c)
| draw_no_bo :
    use_bo b = false ->
    draw_exit b c (path_no_bo, b, c)
| draw_prepare_failed b1 c1 :
    use_bo b = true ->
    wined3d_buffer_prepare_location b c WINED3D_LOCATION_BUFFER = (false, b1, c1) ->
    draw_exit b c (path_prepare_failed, b1, c1)
| draw_clean b1 c1 b2 :
    use_bo b = true ->
    wined3d_buffer_prepare_location b c WINED3D_LOCATION_BUFFER = (true, b1, c1) ->
    declared b1 b2 ->
    draw_exit b c (path_clean, count_draw b2, c1)
| draw_decl_changed_drop b1 c1 b2 b3 c3 :
    use_bo b = true ->
    wined3d_buffer_prepare_location b c WINED3D_LOCATION_BUFFER = (true, b1, c1) ->
    declared b1 b2 ->
    (decl_change_count (count_decl_change b2) >? VB_MAXDECLCHANGES)
    || (bool_decide (conversion_map b2 <> None)
        && test (usage (resource b2)) WINED3DUSAGE_DYNAMIC) = true ->
    wined3d_buffer_drop_bo (count_decl_change b2) c1 = (b3, c3) ->
    draw_exit b c (path_decl_changed_drop, b3, c3)
| draw_decl_changed b1 c1 b2 b3 c3 ok b4 c4 :
    use_bo b = true ->
    wined3d_buffer_prepare_location b c WINED3D_LOCATION_BUFFER = (true, b1, c1) ->
    declared b1 b2 ->
    (decl_change_count (count_decl_change b2) >? VB_MAXDECLCHANGES)
    || (bool_decide (conversion_map b2 <> None)
        && test (usage (resource b2)) WINED3DUSAGE_DYNAMIC) = false ->
    buffer_invalidate_bo_range (count_decl_change b2) c1 0 0 = (b3, c3) ->
    wined3d_buffer_load_location b3 c3 WINED3D_LOCATION_BUFFER = (ok, b4, c4) ->
    draw_exit b c (path_decl_changed, b4, c4)
| draw_full_conversion_drop b1 c1 b2 b3 c3 :
    use_bo b = true ->
    wined3d_buffer_prepare_location b c WINED3D_LOCATION_BUFFER = (true, b1, c1) ->
    declared b1 b2 ->
    full_conversion_count (count_full_conversion b2) > VB_MAXFULLCONVERSIONS ->
    wined3d_buffer_drop_bo (count_full_conversion b2) c1 = (b3, c3) ->
    draw_exit b c (path_full_conversion_drop, b3, c3)
| draw_full_conversion b1 c1 b2 ok b3 c3 :
    use_bo b = true ->
    wined3d_buffer_prepare_location b c WINED3D_LOCATION_BUFFER = (true, b1, c1) ->
    declared b1 b2 ->
    full_conversion_count (count_full_conversion b2) <= VB_MAXFULLCONVERSIONS ->
    wined3d_buffer_load_location (count_full_conversion b2) c1 WINED3D_LOCATION_BUFFER
    = (ok, b3, c3) ->
    draw_exit b c (path_full_conversion, b3, c3)
| draw_upload b1 c1 b2 ok b3 c3 :
    use_bo b = true ->
    wined3d_buffer_prepare_location b c WINED3D_LOCATION_BUFFER = (true, b1, c1) ->
    declared b1 b2 ->
    wined3d_buffer_load_location (count_draw b2) c1 WINED3D_LOCATION_BUFFER
    = (ok, b3, c3) ->
    draw_exit b c (path_upload, b3, c3).

(** ** Clean draws *)

(** A draw without a declaration change and without a full conversion:
    the two branches of [wined3d_buffer_load] that count the draw. *)
Definition clean_draw (p : load_path) : bool :=
  match p with
  | path_clean | path_upload => true
  | _ => false
  end.

(** Consecutive clean draws, each with its context and state; [None]
    when one of the draws is not clean. *)
Fixpoint clean_draws (draws : list (wined3d_context * option wined3d_state))
    (b : wined3d_buffer) : option wined3d_buffer :=
  match draws with
  | [] => Some b
  | (c, state) :: draws =>
      let '(p, b, _) := wined3d_buffer_load b c state in
      if clean_draw p then clean_draws draws b else None
  end.

(** A buffer with one declaration change and one full conversion on
    record, and a state that draws with a vertex shader. *)
Definition sample_counted_buffer : wined3d_buffer :=
  set_decl_change_count 1 (set_full_conversion_count 1 sample_buffer).

Definition sample_state : wined3d_state := mk_state true [].

(** A converting buffer that has seen [VB_MAXDECLCHANGES] declaration
    changes. *)
Definition sample_changing_buffer : wined3d_buffer :=
  set_decl_change_count VB_MAXDECLCHANGES sample_color_buffer.

(** ** The shape of the conversion map *)

(** The conversion map, when there is one, has one entry for each byte
    of the stride. *)
Definition conversion_map_sized (b : wined3d_buffer) : Prop :=
  match conversion_map b with
  | Some map => length map = Z.to_nat (stride b)
  | None => True
  end.

(** The body of the loop of [buffer_process_converted_attribute] over
    the bytes of an attribute that starts at [data]. *)
Definition mark_byte (conversion_type : wined3d_buffer_conversion_type) (data : Z)
  : bool * wined3d_buffer -> Z -> bool * wined3d_buffer :=
  fun '(ret, buffer) i =>
  let idx := (data + i) mod stride buffer in
  match conversion_map buffer, conversion_map_at buffer idx with
  | Some map, Some t =>
      if negb (conversion_type_eqb t conversion_type)
      then (true,
            set_conversion_map
              (Some (<[Z.to_nat idx := conversion_type]> map)) buffer)
      else (ret, buffer)
  | _, _ => (ret, buffer)
  end.

(** A colour attribute at offset 4 of 8-byte vertices. *)
Definition sample_color_attribute : wined3d_stream_info_element :=
  mk_element (mk_format WINED3DFMT_B8G8R8A8_UNORM 4) 4 8 0.

(** A converting buffer, fully dirty, that has been converted in full
    [VB_MAXFULLCONVERSIONS] times; and a dynamic one. *)
Definition sample_converted_buffer : wined3d_buffer :=
  set_full_conversion_count VB_MAXFULLCONVERSIONS sample_color_buffer.

Definition sample_dynamic_color_buffer : wined3d_buffer :=
  set_resource
    (mk_resource 4 WINED3DUSAGE_DYNAMIC WINED3D_BIND_VERTEX_BUFFER
       WINED3D_RESOURCE_ACCESS_GPU false (Some (store32 (zeroes 4) 0 0x11223344)) 0)
    sample_color_buffer.

(** A 4-byte buffer that uses a buffer object but has none yet, with its
    data in the host memory and no conversion. *)
Definition sample_loaded_buffer : wined3d_buffer :=
  set_maps [] (set_conversion_map None (set_buffer_object None sample_color_buffer)).

(** ** The capacity of the array of dirty ranges *)

(** The ranges in use fit the array, which has room for the range that
    stands for the whole buffer. *)
Definition maps_fit (b : wined3d_buffer) : Prop :=
  1 <= maps_size b /\ modified_areas b <= maps_size b.

Definition maps_fit_kept (b b' : wined3d_buffer) : Prop := maps_fit b -> maps_fit b'.

(** ** Binding points and Vulkan flags

    Three functions of the file that translate flags.  The values of the
    remaining bind and access flags are those of wined3d.h, the Vulkan
    bits those of vulkan_core.h; the OpenGL binding points are an
    enumeration. *)

Definition WINED3D_BIND_INDEX_BUFFER : Z := 0x02.
Definition WINED3D_BIND_SHADER_RESOURCE : Z := 0x08.
Definition WINED3D_BIND_RENDER_TARGET : Z := 0x20.
Definition WINED3D_BIND_DEPTH_STENCIL : Z := 0x40.
Definition WINED3D_BIND_UNORDERED_ACCESS : Z := 0x80.
Definition WINED3D_BIND_INDIRECT_BUFFER : Z := 0x100.
Definition WINED3D_RESOURCE_ACCESS_MAP_R : Z := 0x04.

Inductive GLenum : Set :=
| GL_ARRAY_BUFFER
| GL_ELEMENT_ARRAY_BUFFER
| GL_PIXEL_UNPACK_BUFFER
| GL_UNIFORM_BUFFER
| GL_TEXTURE_BUFFER
| GL_TRANSFORM_FEEDBACK_BUFFER
| GL_DRAW_INDIRECT_BUFFER.

(** The two extensions the function asks [gl_info->supported] for. *)
Record wined3d_gl_info : Set := mk_gl_info {
  ARB_TEXTURE_BUFFER_OBJECT : bool;
  ARB_DRAW_INDIRECT : bool;
}.

Definition wined3d_buffer_gl_binding_from_bind_flags (gl_info : wined3d_gl_info)
    (bind_flags_ : Z) : GLenum :=
  if bind_flags_ =? 0 then GL_PIXEL_UNPACK_BUFFER
  else if test bind_flags_ WINED3D_BIND_INDEX_BUFFER then GL_ELEMENT_ARRAY_BUFFER
  else if test bind_flags_
            (Z.lor WINED3D_BIND_SHADER_RESOURCE WINED3D_BIND_UNORDERED_ACCESS)
          && ARB_TEXTURE_BUFFER_OBJECT gl_info then GL_TEXTURE_BUFFER
  else if test bind_flags_ WINED3D_BIND_CONSTANT_BUFFER then GL_UNIFORM_BUFFER
  else if test bind_flags_ WINED3D_BIND_STREAM_OUTPUT then GL_TRANSFORM_FEEDBACK_BUFFER
  else if test bind_flags_ WINED3D_BIND_INDIRECT_BUFFER && ARB_DRAW_INDIRECT gl_info
  then GL_DRAW_INDIRECT_BUFFER
  else GL_ARRAY_BUFFER.

Definition VK_BUFFER_USAGE_TRANSFER_SRC_BIT : Z := 0x001.
Definition VK_BUFFER_USAGE_TRANSFER_DST_BIT : Z := 0x002.
Definition VK_BUFFER_USAGE_UNIFORM_TEXEL_BUFFER_BIT : Z := 0x004.
Definition VK_BUFFER_USAGE_STORAGE_TEXEL_BUFFER_BIT : Z := 0x008.
Definition VK_BUFFER_USAGE_UNIFORM_BUFFER_BIT : Z := 0x010.
Definition VK_BUFFER_USAGE_INDEX_BUFFER_BIT : Z := 0x040.
Definition VK_BUFFER_USAGE_VERTEX_BUFFER_BIT : Z := 0x080.
Definition VK_BUFFER_USAGE_INDIRECT_BUFFER_BIT : Z := 0x100.
Definition VK_BUFFER_USAGE_TRANSFORM_FEEDBACK_BUFFER_BIT_EXT : Z := 0x800.

Definition vk_buffer_usage_from_bind_flags (bind_flags_ : Z) : Z :=
  let usage_ :=
    Z.lor VK_BUFFER_USAGE_TRANSFER_SRC_BIT VK_BUFFER_USAGE_TRANSFER_DST_BIT in
  let usage_ :=
    if test bind_flags_ WINED3D_BIND_VERTEX_BUFFER
    then Z.lor usage_ VK_BUFFER_USAGE_VERTEX_BUFFER_BIT else usage_ in
  let usage_ :=
    if test bind_flags_ WINED3D_BIND_INDEX_BUFFER
    then Z.lor usage_ VK_BUFFER_USAGE_INDEX_BUFFER_BIT else usage_ in
  let usage_ :=
    if test bind_flags_ WINED3D_BIND_CONSTANT_BUFFER
    then Z.lor usage_ VK_BUFFER_USAGE_UNIFORM_BUFFER_BIT else usage_ in
  let usage_ :=
    if test bind_flags_ WINED3D_BIND_SHADER_RESOURCE
    then Z.lor usage_ VK_BUFFER_USAGE_UNIFORM_TEXEL_BUFFER_BIT else usage_ in
  let usage_ :=
    if test bind_flags_ WINED3D_BIND_STREAM_OUTPUT
    then Z.lor usage_ VK_BUFFER_USAGE_TRANSFORM_FEEDBACK_BUFFER_BIT_EXT else usage_ in
  let usage_ :=
    if test bind_flags_ WINED3D_BIND_UNORDERED_ACCESS
    then Z.lor usage_ VK_BUFFER_USAGE_STORAGE_TEXEL_BUFFER_BIT else usage_ in
  let usage_ :=
    if test bind_flags_ WINED3D_BIND_INDIRECT_BUFFER
    then Z.lor usage_ VK_BUFFER_USAGE_INDIRECT_BUFFER_BIT else usage_ in
  usage_.

Definition VK_MEMORY_PROPERTY_DEVICE_LOCAL_BIT : Z := 0x1.
Definition VK_MEMORY_PROPERTY_HOST_VISIBLE_BIT : Z := 0x2.
Definition VK_MEMORY_PROPERTY_HOST_CACHED_BIT : Z := 0x8.

Definition vk_memory_type_from_access_flags (access_ usage_ : Z) : Z :=
  let memory_type := 0 in
  if test access_ WINED3D_RESOURCE_ACCESS_MAP_R
  then Z.lor memory_type
         (Z.lor VK_MEMORY_PROPERTY_HOST_VISIBLE_BIT VK_MEMORY_PROPERTY_HOST_CACHED_BIT)
  else if test access_ WINED3D_RESOURCE_ACCESS_MAP_W
  then Z.lor memory_type VK_MEMORY_PROPERTY_HOST_VISIBLE_BIT
  else if negb (test usage_ WINED3DUSAGE_DYNAMIC)
  then Z.lor memory_type VK_MEMORY_PROPERTY_DEVICE_LOCAL_BIT
  else memory_type.

(** * The licensing stubs of [dlls/sppc/sppc.c]

    A pointer argument is modelled by what the function asks of it:
    whether it is null.  A handle is an integer, 0 for a null handle; a
    wide string is the list of its characters before the terminator. *)

Module sppc.

Inductive HRESULT : Set :=
| S_OK
| E_INVALIDARG
| E_FAIL
| SL_E_VALUE_NOT_FOUND
| SL_E_RIGHT_NOT_GRANTED
| SL_E_DATATYPE_MISMATCHED
| SL_E_RIGHT_NOT_CONSUMED
| SL_E_APPLICATION_POLICIES_MISSING
| SL_E_NOT_SUPPORTED.

(** Values of ntstatus.h and winnt.h. *)
Definition STATUS_SUCCESS : Z := 0.
Definition STATUS_BUFFER_TOO_SMALL : Z := 0xC0000023.
Definition STATUS_OBJECT_NAME_NOT_FOUND : Z := 0xC0000034.
Definition REG_DWORD : Z := 4.

(** What [NtQueryLicenseValue] answers for a name: its status and the
    type it stores.  The value itself goes to the caller's buffer. *)
Record license_answer : Set := mk_license_answer {
  answer_status : Z;
  answer_type : Z;
}.

Definition SLGetLicensingStatusInformation : HRESULT := SL_E_RIGHT_NOT_CONSUMED.

Definition SLGetPolicyInformation : HRESULT := SL_E_VALUE_NOT_FOUND.

Definition SLGetPolicyInformationDWORD
    (NtQueryLicenseValue : list Z -> license_answer)
    (handle : Z) (policyName : option (list Z)) (ret : bool) : HRESULT :=
  match policyName with
  | None => E_INVALIDARG
  | Some name =>
      if (handle =? 0) || negb ret then E_INVALIDARG
      else
        match name with
        | [] => SL_E_RIGHT_NOT_GRANTED
        | _ :: _ =>
            let answer := NtQueryLicenseValue name in
            let status := answer_status answer in
            if status =? STATUS_OBJECT_NAME_NOT_FOUND then SL_E_VALUE_NOT_FOUND
            else if ((status =? 0) || (status =? STATUS_BUFFER_TOO_SMALL))
                    && negb (answer_type answer =? REG_DWORD)
            then SL_E_DATATYPE_MISMATCHED
            else if negb (status =? 0) then E_FAIL else S_OK
        end
  end.

Definition SLLoadApplicationPolicies : HRESULT := SL_E_APPLICATION_POLICIES_MISSING.

(** [SLOpen] returns the result and the handle it stores. *)
Definition SLOpen (handle : bool) : HRESULT * option Z :=
  if negb handle then (E_INVALIDARG, None) else (S_OK, Some 0xdeadbeef).

Definition SLClose (handle : Z) : HRESULT := S_OK.

Definition SLConsumeRight (handle : Z) : HRESULT :=
  if handle =? 0 then E_INVALIDARG else S_OK.

Definition SLPersistApplicationPolicies (app : bool) : HRESULT :=
  if negb app then E_INVALIDARG else S_OK.

Definition SLSetAuthenticationData : HRESULT := SL_E_NOT_SUPPORTED.

Definition SLUnloadApplicationPolicies : HRESULT := S_OK.

End sppc.

(** * Properties *)

(** ** Proof tools *)

(** Case analysis on an innermost scrutinee of the goal. *)
Ltac branch :=
  match goal with
  | |- context [match ?x with _ => _ end] =>
      lazymatch x with
      | context [match _ with _ => _ end] => fail
      | _ => destruct x eqn:?
      end
  end.

Ltac branches := repeat (branch; simpl; try discriminate).

Lemma test_true (x mask : Z) : test x mask = true <-> Z.land x mask <> 0.
Proof.
  unfold test. rewrite negb_true_iff, Z.eqb_neq. tauto.
Qed.

Lemma test_false (x mask : Z) : test x mask = false <-> Z.land x mask = 0.
Proof.
  unfold test. rewrite negb_false_iff, Z.eqb_eq. tauto.
Qed.

Lemma testbit_nonzero (x n : Z) : Z.testbit x n = true -> x <> 0.
Proof.
  intros H ->. now rewrite Z.bits_0 in H.
Qed.

(** ** The frame of the residency functions *)

Lemma frame_refl (b : wined3d_buffer) : frame b b.
Proof. constructor; auto. Qed.

Lemma frame_trans (b1 b2 b3 : wined3d_buffer) : frame b1 b2 -> frame b2 b3 -> frame b1 b3.
Proof.
  intros F G. destruct F, G. constructor; try congruence.
  destruct frame_flags0 as [E0 | E0]; destruct frame_flags1 as [E1 | E1];
    rewrite E1, E0; auto.
  right. now rewrite <- Z.land_assoc, Z.land_diag.
Qed.

Create HintDb frame.
#[local] Hint Resolve frame_refl : frame.

Ltac frame_fields := constructor; simpl; auto.

Section Frames.

Implicit Types (b : wined3d_buffer) (c : wined3d_context).

Lemma buffer_invalidate_bo_range_frame b c offset size_ b' c' :
  buffer_invalidate_bo_range b c offset size_ = (b', c') -> frame b b'.
Proof.
  unfold buffer_invalidate_bo_range, wined3d_array_reserve.
  branches; intros [= <- <-]; frame_fields.
Qed.

Lemma wined3d_buffer_validate_location_frame b location :
  frame b (wined3d_buffer_validate_location b location).
Proof.
  unfold wined3d_buffer_validate_location. branches; frame_fields.
Qed.

Lemma wined3d_buffer_invalidate_range_frame b c location offset size_ b' c' :
  wined3d_buffer_invalidate_range b c location offset size_ = (b', c') -> frame b b'.
Proof.
  unfold wined3d_buffer_invalidate_range.
  destruct (test location WINED3D_LOCATION_BUFFER).
  - destruct (buffer_invalidate_bo_range b c offset size_) as [b1 c1] eqn:E.
    apply buffer_invalidate_bo_range_frame in E. intros [= <- <-].
    eapply frame_trans; [exact E | frame_fields].
  - intros [= <- <-]. frame_fields.
Qed.

Lemma wined3d_buffer_invalidate_location_frame b c location b' c' :
  wined3d_buffer_invalidate_location b c location = (b', c') -> frame b b'.
Proof. apply wined3d_buffer_invalidate_range_frame. Qed.

Lemma wined3d_buffer_evict_sysmem_frame b c b' c' :
  wined3d_buffer_evict_sysmem b c = (b', c') -> frame b b'.
Proof.
  unfold wined3d_buffer_evict_sysmem.
  destruct (pin_sysmem (resource b)); [intros [= <- <-]; apply frame_refl |].
  destruct (wined3d_buffer_invalidate_location b c WINED3D_LOCATION_SYSMEM)
    as [b1 c1] eqn:E.
  apply wined3d_buffer_invalidate_location_frame in E. intros [= <- <-].
  eapply frame_trans; [exact E | frame_fields].
Qed.

Lemma prepare_sysmem_frame b c ok b' c' :
  prepare_sysmem b c = (ok, b', c') -> frame b b'.
Proof.
  unfold prepare_sysmem, wined3d_resource_prepare_sysmem.
  branches; intros [= <- <- <-]; frame_fields.
Qed.

Lemma prepare_sysmem_locations b c ok b' c' :
  prepare_sysmem b c = (ok, b', c') -> locations b' = locations b /\ maps b' = maps b.
Proof.
  unfold prepare_sysmem, wined3d_resource_prepare_sysmem.
  branches; intros [= <- <- <-]; auto.
Qed.

Lemma wined3d_buffer_prepare_location_frame b c location ok b' c' :
  wined3d_buffer_prepare_location b c location = (ok, b', c') -> frame b b'.
Proof.
  unfold wined3d_buffer_prepare_location, wined3d_buffer_no3d_prepare_location,
    wined3d_buffer_gl_prepare_location, wined3d_buffer_vk_prepare_location,
    wined3d_buffer_gl_create_buffer_object, wined3d_buffer_vk_create_buffer_object,
    buffer_invalidate_bo_range.
  simpl.
  branches; try (intros [= <- <- <-]; frame_fields);
    eauto using prepare_sysmem_frame.
Qed.

Lemma wined3d_buffer_prepare_location_locations b c location ok b' c' :
  wined3d_buffer_prepare_location b c location = (ok, b', c') ->
  locations b' = locations b.
Proof.
  unfold wined3d_buffer_prepare_location, wined3d_buffer_no3d_prepare_location,
    wined3d_buffer_gl_prepare_location, wined3d_buffer_vk_prepare_location,
    wined3d_buffer_gl_create_buffer_object, wined3d_buffer_vk_create_buffer_object,
    buffer_invalidate_bo_range.
  simpl.
  branches; try (intros [= <- <- <-]; reflexivity);
    intros E; apply prepare_sysmem_locations in E; tauto.
Qed.

(** The backends only prepare host memory and the buffer object. *)
Lemma wined3d_buffer_prepare_location_ok b c location b' c' :
  wined3d_buffer_prepare_location b c location = (true, b', c') ->
  location = WINED3D_LOCATION_SYSMEM \/ location = WINED3D_LOCATION_BUFFER.
Proof.
  unfold wined3d_buffer_prepare_location, wined3d_buffer_no3d_prepare_location,
    wined3d_buffer_gl_prepare_location, wined3d_buffer_vk_prepare_location.
  destruct (location =? WINED3D_LOCATION_SYSMEM) eqn:E1;
    [apply Z.eqb_eq in E1; auto |].
  destruct (location =? WINED3D_LOCATION_BUFFER) eqn:E2;
    [apply Z.eqb_eq in E2; auto |].
  destruct (buffer_ops b); simpl; discriminate.
Qed.

Lemma wined3d_context_copy_bo_address_frame b c dst src ranges map_flags b' c' :
  wined3d_context_copy_bo_address c b dst src ranges map_flags = (b', c') ->
  frame b b' /\ locations b' = locations b /\ maps b' = maps b.
Proof.
  unfold wined3d_context_copy_bo_address, write_storage.
  branches; intros [= <- <-]; (split; [frame_fields | auto]).
Qed.

Lemma memset_heap_memory_frame b :
  frame b (memset_heap_memory b)
  /\ locations (memset_heap_memory b) = locations b
  /\ maps (memset_heap_memory b) = maps b.
Proof. unfold memset_heap_memory. branches; (split; [frame_fields | auto]). Qed.

Lemma load_location_finish_frame b c location ok b' c' :
  load_location_finish b c location = (ok, b', c') -> frame b b'.
Proof.
  unfold load_location_finish.
  pose proof (wined3d_buffer_validate_location_frame b location) as F.
  destruct (_ && _).
  - destruct (wined3d_buffer_evict_sysmem _ c) as [b1 c1] eqn:E.
    apply wined3d_buffer_evict_sysmem_frame in E. intros [= <- <- <-].
    eauto using frame_trans.
  - intros [= <- <- <-]. exact F.
Qed.

End Frames.

(** ** Loading a location: termination *)

Section LoadLocationFuel.

Implicit Types (b : wined3d_buffer) (c : wined3d_context).
Implicit Types f g : wined3d_buffer -> wined3d_context -> Z -> option load_result.

Lemma validate_discarded_locations b :
  locations b = 0 ->
  locations (wined3d_buffer_validate_location b WINED3D_LOCATION_DISCARDED)
  = WINED3D_LOCATION_DISCARDED.
Proof. intros E. unfold wined3d_buffer_validate_location. simpl. now rewrite E. Qed.

(** Once a location is valid, a load only recurses for the conversion
    upload, and then asks for the host memory. *)
Lemma load_location_body_total f b c location :
  locations b <> 0 ->
  (forall b1 c1, locations b1 <> 0 -> f b1 c1 WINED3D_LOCATION_SYSMEM <> None) ->
  wined3d_buffer_load_location_body f b c location <> None.
Proof.
  intros Hb Hf. unfold wined3d_buffer_load_location_body.
  destruct (test (locations b) location); [discriminate |].
  destruct (locations b =? 0) eqn:E0; [apply Z.eqb_eq in E0; contradiction |].
  destruct (wined3d_buffer_prepare_location b c location) as [[ok b1] c1] eqn:P.
  apply wined3d_buffer_prepare_location_locations in P.
  destruct ok; simpl; [| discriminate].
  destruct (test (locations b1) WINED3D_LOCATION_DISCARDED).
  { branches. }
  destruct (location =? WINED3D_LOCATION_SYSMEM).
  { branches. }
  destruct (location =? WINED3D_LOCATION_BUFFER); [| discriminate].
  assert (exists ok2 b2 c2,
    (if test (locations b1) WINED3D_LOCATION_CLEARED
     then
       let '(ok, buffer, context) :=
         wined3d_buffer_prepare_location b1 c1 WINED3D_LOCATION_SYSMEM in
       if negb ok then (false, buffer, context)
       else (true, memset_heap_memory buffer, context)
     else (true, b1, c1)) = (ok2, b2, c2) /\ locations b2 = locations b) as H.
  { destruct (test (locations b1) WINED3D_LOCATION_CLEARED).
    - destruct (wined3d_buffer_prepare_location b1 c1 WINED3D_LOCATION_SYSMEM)
        as [[ok2 b2] c2] eqn:P2.
      apply wined3d_buffer_prepare_location_locations in P2.
      destruct ok2; simpl; do 3 eexists; split; try reflexivity.
      + destruct (memset_heap_memory_frame b2) as (_ & -> & _). congruence.
      + congruence.
    - do 3 eexists; split; [reflexivity | congruence]. }
  destruct H as (ok2 & b2 & c2 & -> & L2).
  destruct ok2; simpl; [| discriminate].
  destruct (conversion_map b2).
  - unfold buffer_conversion_upload.
    specialize (Hf b2 c2). rewrite L2 in Hf. specialize (Hf Hb).
    destruct (f b2 c2 WINED3D_LOCATION_SYSMEM) as [[[[] ?] ?] |]; [| | contradiction].
    + branches.
    + discriminate.
  - branches.
Qed.

Lemma load_location_fuel_2_total b c location :
  locations b <> 0 -> load_location_fuel 2 b c location <> None.
Proof.
  intros Hb. apply load_location_body_total; [exact Hb |].
  clear. intros b1 c1 Hb. cbn [load_location_fuel].
  unfold wined3d_buffer_load_location_body.
  destruct (locations b1 =? 0) eqn:E0; [apply Z.eqb_eq in E0; contradiction |].
  cbn [Z.eqb WINED3D_LOCATION_SYSMEM WINED3D_LOCATION_BUFFER]. branches.
Qed.

Lemma load_location_fuel_total b c location :
  load_location_fuel 3 b c location <> None.
Proof.
  change (wined3d_buffer_load_location_body (load_location_fuel 2) b c location <> None).
  destruct (Z.eq_dec (locations b) 0) as [E0 | N0].
  - unfold wined3d_buffer_load_location_body.
    destruct (test (locations b) location); [discriminate |].
    rewrite E0. cbn [Z.eqb].
    apply load_location_fuel_2_total. now rewrite validate_discarded_locations.
  - apply load_location_body_total; [exact N0 |].
    intros b1 c1 Hb. now apply load_location_fuel_2_total.
Qed.

(** More fuel does not change a result. *)
Lemma load_location_body_mono f g b c location r :
  (forall b1 c1 l r1, f b1 c1 l = Some r1 -> g b1 c1 l = Some r1) ->
  wined3d_buffer_load_location_body f b c location = Some r ->
  wined3d_buffer_load_location_body g b c location = Some r.
Proof.
  intros Hfg. unfold wined3d_buffer_load_location_body.
  destruct (test (locations b) location); [auto |].
  destruct (locations b =? 0); [apply Hfg |].
  destruct (wined3d_buffer_prepare_location b c location) as [[ok b1] c1].
  destruct (negb ok); [auto |].
  destruct (test (locations b1) WINED3D_LOCATION_DISCARDED); [auto |].
  destruct (location =? WINED3D_LOCATION_SYSMEM); [auto |].
  destruct (location =? WINED3D_LOCATION_BUFFER); [| auto].
  destruct (if test (locations b1) WINED3D_LOCATION_CLEARED then _ else _)
    as [[ok2 b2] c2].
  destruct (negb ok2); [auto |].
  destruct (conversion_map b2); [| auto].
  unfold buffer_conversion_upload.
  destruct (f b2 c2 WINED3D_LOCATION_SYSMEM) as [r1 |] eqn:F; [| discriminate].
  now rewrite (Hfg _ _ _ _ F).
Qed.

Lemma load_location_fuel_mono n b c location r :
  load_location_fuel n b c location = Some r ->
  load_location_fuel (S n) b c location = Some r.
Proof.
  revert b c location r. induction n as [| n IH]; intros b c location r; [discriminate |].
  cbn [load_location_fuel]. apply load_location_body_mono. exact IH.
Qed.

Lemma load_location_fuel_enough n b c location :
  (3 <= n)%nat ->
  load_location_fuel n b c location = load_location_fuel 3 b c location.
Proof.
  intros Hn. pose proof (load_location_fuel_total b c location) as T.
  remember (load_location_fuel 3 b c location) as r3 eqn:E3.
  destruct r3 as [r |]; [clear T | congruence].
  induction Hn as [| n Hn IH]; [congruence |].
  now apply load_location_fuel_mono.
Qed.

Lemma wined3d_buffer_load_location_eq b c location :
  load_location_fuel 3 b c location = Some (wined3d_buffer_load_location b c location).
Proof.
  pose proof (load_location_fuel_total b c location) as T.
  unfold wined3d_buffer_load_location.
  remember (load_location_fuel 3 b c location) as r3 eqn:E3.
  destruct r3; [reflexivity | congruence].
Qed.

End LoadLocationFuel.

(** ** Loading a location: induction principle and frame *)

Section LoadLocation.

Implicit Types (b : wined3d_buffer) (c : wined3d_context).

(** A property of the results of every function [f] carries over to
    the results of the body run with [f]: the property holds of
    [wined3d_buffer_load_location]. *)
Lemma load_location_induction
    (P : wined3d_buffer -> wined3d_context -> Z -> load_result -> Prop) :
  (forall f,
      (forall b c l r, f b c l = Some r -> P b c l r) ->
      forall b c l r,
        wined3d_buffer_load_location_body f b c l = Some r -> P b c l r) ->
  forall b c l, P b c l (wined3d_buffer_load_location b c l).
Proof.
  intros step b c l.
  assert (forall n b c l r, load_location_fuel n b c l = Some r -> P b c l r) as H.
  { induction n as [| n IH]; [discriminate |].
    cbn [load_location_fuel]. apply step. exact IH. }
  apply (H 3%nat). apply wined3d_buffer_load_location_eq.
Qed.

(** The second stage of a load of the buffer object: a cleared buffer
    gets zeroed host memory first. *)
Lemma cleared_stage_frame b c ok b' c' :
  (if test (locations b) WINED3D_LOCATION_CLEARED
   then
     let '(ok, buffer, context) :=
       wined3d_buffer_prepare_location b c WINED3D_LOCATION_SYSMEM in
     if negb ok then (false, buffer, context)
     else (true, memset_heap_memory buffer, context)
   else (true, b, c)) = (ok, b', c') ->
  frame b b' /\ locations b' = locations b.
Proof.
  destruct (test (locations b) WINED3D_LOCATION_CLEARED).
  - destruct (wined3d_buffer_prepare_location b c WINED3D_LOCATION_SYSMEM)
      as [[ok2 b2] c2] eqn:P2.
    pose proof (wined3d_buffer_prepare_location_frame _ _ _ _ _ _ P2) as F2.
    apply wined3d_buffer_prepare_location_locations in P2.
    destruct (memset_heap_memory_frame b2) as (Fm & Lm & _).
    destruct ok2; simpl; intros [= <- <- <-]; split;
      eauto using frame_trans; congruence.
  - intros [= <- <- <-]. split; [apply frame_refl | reflexivity].
Qed.

Lemma wined3d_buffer_load_location_frame b c location :
  frame b (snd (fst (wined3d_buffer_load_location b c location))).
Proof.
  apply (load_location_induction (fun b _ _ r => frame b (snd (fst r)))).
  clear. intros f IH b c location r.
  unfold wined3d_buffer_load_location_body.
  destruct (test (locations b) location); [intros [= <-]; apply frame_refl |].
  destruct (locations b =? 0).
  { intros H. apply IH in H. eapply frame_trans; [| exact H].
    apply wined3d_buffer_validate_location_frame. }
  destruct (wined3d_buffer_prepare_location b c location) as [[ok b1] c1] eqn:P1.
  apply wined3d_buffer_prepare_location_frame in P1.
  destruct (negb ok); [intros [= <-]; exact P1 |].
  destruct (test (locations b1) WINED3D_LOCATION_DISCARDED).
  { destruct (wined3d_buffer_invalidate_location _ c1 _) as [b2 c2] eqn:I.
    apply wined3d_buffer_invalidate_location_frame in I. intros [= <-]. simpl.
    eauto using frame_trans, wined3d_buffer_validate_location_frame. }
  destruct (location =? WINED3D_LOCATION_SYSMEM).
  { destruct (test (locations b1) WINED3D_LOCATION_CLEARED).
    - destruct (load_location_finish _ c1 location) as [[ok3 b3] c3] eqn:Fi.
      apply load_location_finish_frame in Fi. intros [= <-]. simpl.
      destruct (memset_heap_memory_frame b1) as (Fm & _).
      eauto using frame_trans.
    - destruct (wined3d_context_copy_bo_address c1 b1 _ _ _ _) as [b2 c2] eqn:Cp.
      apply wined3d_context_copy_bo_address_frame in Cp. destruct Cp as (Fc & _).
      destruct (load_location_finish b2 c2 location) as [[ok3 b3] c3] eqn:Fi.
      apply load_location_finish_frame in Fi. intros [= <-]. simpl.
      eauto using frame_trans. }
  destruct (location =? WINED3D_LOCATION_BUFFER); [| intros [= <-]; exact P1].
  destruct (if test (locations b1) WINED3D_LOCATION_CLEARED then _ else _)
    as [[ok2 b2] c2] eqn:St.
  apply cleared_stage_frame in St. destruct St as (F2 & _).
  destruct (negb ok2); [intros [= <-]; simpl; eauto using frame_trans |].
  destruct (conversion_map b2).
  - unfold buffer_conversion_upload.
    destruct (f b2 c2 WINED3D_LOCATION_SYSMEM) as [[[ok3 b3] c3] |] eqn:Fs;
      [| discriminate].
    apply IH in Fs. simpl in Fs.
    assert (forall b4 c4, frame b b4 ->
              frame b (snd (fst (load_location_finish b4 c4 location)))) as Hfin.
    { intros b4 c4 F4.
      destruct (load_location_finish b4 c4 location) as [[ok5 b5] c5] eqn:Fi.
      apply load_location_finish_frame in Fi. simpl. eauto using frame_trans. }
    destruct ok3.
    + destruct (allocate c3) as [data_ok c4].
      destruct (negb data_ok).
      * intros [= <-]. apply Hfin.
        eapply frame_trans; [| eapply frame_trans; [exact Fs |]];
          [eauto using frame_trans | frame_fields].
      * destruct (wined3d_context_copy_bo_address c4 _ _ _ _ _) as [b5 c5] eqn:Cp.
        apply wined3d_context_copy_bo_address_frame in Cp. destruct Cp as (Fc & _).
        intros [= <-]. apply Hfin.
        eapply frame_trans; [| exact Fc].
        eapply frame_trans; [| eapply frame_trans; [exact Fs |]];
          [eauto using frame_trans | frame_fields].
    + intros [= <-]. apply Hfin. eauto using frame_trans.
  - destruct (wined3d_context_copy_bo_address c2 b2 _ _ _ _) as [b3 c3] eqn:Cp.
    apply wined3d_context_copy_bo_address_frame in Cp. destruct Cp as (Fc & _).
    destruct (load_location_finish b3 c3 location) as [[ok4 b4] c4] eqn:Fi.
    apply load_location_finish_frame in Fi. intros [= <-]. simpl.
    eauto using frame_trans.
Qed.

End LoadLocation.

(** ** Every result of a load is one of its exits *)

Section LoadExitLemmas.

Variable f : wined3d_buffer -> wined3d_context -> Z -> option load_result.

Lemma buffer_conversion_upload_exit b c b' c' :
  buffer_conversion_upload f b c = Some (b', c') -> upload_exit f b c b' c'.
Proof.
  unfold buffer_conversion_upload.
  destruct (f b c WINED3D_LOCATION_SYSMEM) as [[[[] b1] c1] |] eqn:F;
    [| intros [= <- <-]; now constructor | discriminate].
  destruct (allocate c1) as [[] c2] eqn:A; cbn [negb].
  - destruct (wined3d_context_copy_bo_address c2 _ _ _ _ _) as [b3 c3] eqn:Cp.
    intros [= <- <-]. eapply upload_done; eauto.
  - intros [= <- <-]. eapply upload_no_memory; eauto.
Qed.

Lemma load_location_body_exit b c l r :
  wined3d_buffer_load_location_body f b c l = Some r -> load_exit f b c l r.
Proof.
  unfold wined3d_buffer_load_location_body.
  destruct (test (locations b) l) eqn:V; [intros [= <-]; now constructor |].
  destruct (locations b =? 0) eqn:E0.
  { apply Z.eqb_eq in E0. intros H. now apply exit_recovered. }
  apply Z.eqb_neq in E0.
  destruct (wined3d_buffer_prepare_location b c l) as [[[] b1] c1] eqn:P1; cbn [negb];
    [| intros [= <-]; now apply exit_not_prepared].
  destruct (test (locations b1) WINED3D_LOCATION_DISCARDED) eqn:D.
  { destruct (wined3d_buffer_invalidate_location _ c1 _) as [b2 c2] eqn:I.
    intros [= <-]. eapply exit_discarded; eauto. }
  destruct (l =? WINED3D_LOCATION_SYSMEM) eqn:Ls.
  { apply Z.eqb_eq in Ls.
    destruct (test (locations b1) WINED3D_LOCATION_CLEARED) eqn:Cl.
    - intros [= <-]. eapply exit_sysmem_cleared; eauto.
    - destruct (wined3d_context_copy_bo_address c1 b1 _ _ _ _) as [b2 c2] eqn:Cp.
      intros [= <-]. eapply exit_sysmem_copied; eauto. }
  apply Z.eqb_neq in Ls.
  destruct (l =? WINED3D_LOCATION_BUFFER) eqn:Lb;
    [apply Z.eqb_eq in Lb
    | apply Z.eqb_neq in Lb; intros [= <-]; now apply exit_invalid].
  assert (exists ok2 b2 c2,
    (if test (locations b1) WINED3D_LOCATION_CLEARED
     then
       let '(ok, buffer, context) :=
         wined3d_buffer_prepare_location b1 c1 WINED3D_LOCATION_SYSMEM in
       if negb ok then (false, buffer, context)
       else (true, memset_heap_memory buffer, context)
     else (true, b1, c1)) = (ok2, b2, c2) /\ cleared_stage b1 c1 ok2 b2 c2) as St.
  { destruct (test (locations b1) WINED3D_LOCATION_CLEARED) eqn:Cl.
    - destruct (wined3d_buffer_prepare_location b1 c1 WINED3D_LOCATION_SYSMEM)
        as [[ok2 b2] c2] eqn:P2.
      pose proof (stage_cleared b1 c1 ok2 b2 c2 Cl P2) as S.
      destruct ok2; cbn [negb]; eauto.
    - do 3 eexists. split; [reflexivity | now constructor]. }
  destruct St as (ok2 & b2 & c2 & -> & St).
  destruct ok2; cbn [negb]; [| intros [= <-]; eapply exit_buffer_no_sysmem; eauto].
  destruct (conversion_map b2) eqn:Cm.
  - destruct (buffer_conversion_upload f b2 c2) as [[b3 c3] |] eqn:U; [| discriminate].
    apply buffer_conversion_upload_exit in U. intros [= <-].
    eapply exit_buffer_converted; eauto. congruence.
  - destruct (wined3d_context_copy_bo_address c2 b2 _ _ _ _) as [b3 c3] eqn:Cp.
    intros [= <-]. eapply exit_buffer_copied; eauto.
Qed.

End LoadExitLemmas.

(** ** Locations after a load *)

Section Locations.

Implicit Types (b : wined3d_buffer) (c : wined3d_context).

Lemma test_nonzero (x mask : Z) : test x mask = true -> x <> 0.
Proof. rewrite test_true. intros H ->. now rewrite Z.land_0_l in H. Qed.

Lemma test_bit (x mask n : Z) : Z.testbit (Z.land x mask) n = true -> test x mask = true.
Proof. intros H. apply test_true. eapply testbit_nonzero, H. Qed.

Lemma wined3d_buffer_validate_location_locations b location :
  locations (wined3d_buffer_validate_location b location)
  = Z.lor (locations b) location.
Proof. unfold wined3d_buffer_validate_location. now destruct (test _ _). Qed.

Lemma wined3d_buffer_invalidate_range_locations b c location offset size_ b' c' :
  wined3d_buffer_invalidate_range b c location offset size_ = (b', c') ->
  locations b' = Z.land (locations b) (not32 location).
Proof.
  unfold wined3d_buffer_invalidate_range, buffer_invalidate_bo_range,
    wined3d_array_reserve.
  branches; intros [= <- <-]; reflexivity.
Qed.

Lemma load_location_finish_locations b c location ok b' c' :
  load_location_finish b c location = (ok, b', c') ->
  ok = true
  /\ (locations b' = Z.lor (locations b) location
      \/ location = WINED3D_LOCATION_BUFFER
         /\ locations b'
            = Z.land (Z.lor (locations b) location) (not32 WINED3D_LOCATION_SYSMEM)).
Proof.
  unfold load_location_finish.
  destruct (bool_decide _); cbn [andb];
    [| intros [= <- <- <-]; split; auto;
       left; apply wined3d_buffer_validate_location_locations].
  destruct (location =? WINED3D_LOCATION_BUFFER) eqn:Lb; cbn [andb];
    [| intros [= <- <- <-]; split; auto;
       left; apply wined3d_buffer_validate_location_locations].
  apply Z.eqb_eq in Lb.
  destruct (negb _);
    [| intros [= <- <- <-]; split; auto;
       left; apply wined3d_buffer_validate_location_locations].
  unfold wined3d_buffer_evict_sysmem.
  destruct (pin_sysmem _);
    [intros [= <- <- <-]; split; auto;
     left; apply wined3d_buffer_validate_location_locations |].
  destruct (wined3d_buffer_invalidate_location _ c _) as [b1 c1] eqn:I.
  apply wined3d_buffer_invalidate_range_locations in I.
  rewrite wined3d_buffer_validate_location_locations in I.
  intros [= <- <- <-]. split; auto.
Qed.

(** After [load_location_finish] for the host memory or the buffer
    object, the location is valid. *)
Lemma load_location_finish_valid b c location ok b' c' :
  load_location_finish b c location = (ok, b', c') ->
  location = WINED3D_LOCATION_SYSMEM \/ location = WINED3D_LOCATION_BUFFER ->
  ok = true /\ test (locations b') location = true.
Proof.
  intros H Hl. apply load_location_finish_locations in H.
  destruct H as (-> & [-> | (Lb & ->)]); split; auto.
  - destruct Hl as [-> | ->].
    + apply (test_bit _ _ 1). rewrite Z.land_spec, Z.lor_spec.
      now destruct (Z.testbit (locations b) 1).
    + apply (test_bit _ _ 3). rewrite Z.land_spec, Z.lor_spec.
      now destruct (Z.testbit (locations b) 3).
  - subst location. apply (test_bit _ _ 3).
    rewrite !Z.land_spec, Z.lor_spec. now destruct (Z.testbit (locations b) 3).
Qed.

Lemma cleared_stage_locations b c ok b' c' :
  cleared_stage b c ok b' c' -> locations b' = locations b.
Proof.
  intros [| ok1 b1 c1 _ P]; [reflexivity |].
  apply wined3d_buffer_prepare_location_locations in P.
  destruct ok1; [| exact P].
  destruct (memset_heap_memory_frame b1) as (_ & -> & _). exact P.
Qed.

Lemma upload_exit_locations f b c b' c' :
  (forall b0 c0 l r, f b0 c0 l = Some r -> locations (snd (fst r)) <> 0) ->
  upload_exit f b c b' c' -> locations b' <> 0.
Proof.
  intros IH [b1 c1 F | b1 c1 c2 F _ | b1 c1 c2 b3 c3 F _ Cp].
  - apply IH in F. exact F.
  - apply IH in F. exact F.
  - apply IH in F. apply wined3d_context_copy_bo_address_frame in Cp.
    destruct Cp as (_ & -> & _). exact F.
Qed.

Lemma wined3d_buffer_load_location_locations b c location :
  locations (snd (fst (wined3d_buffer_load_location b c location))) <> 0.
Proof.
  apply (load_location_induction (fun _ _ _ r => locations (snd (fst r)) <> 0)).
  clear. intros f IH b c l r H. apply load_location_body_exit in H.
  assert (forall b0 c0, l = WINED3D_LOCATION_SYSMEM \/ l = WINED3D_LOCATION_BUFFER ->
            locations (snd (fst (load_location_finish b0 c0 l))) <> 0) as Hfin.
  { intros b0 c0 Hl.
    destruct (load_location_finish b0 c0 l) as [[ok1 b1] c1] eqn:Fi.
    eapply load_location_finish_valid in Fi; [| exact Hl].
    eapply test_nonzero, Fi. }
  destruct H as [V | r V E0 F | b1 c1 V N0 P | b1 c1 b2 c2 V N0 P D I
                | b1 c1 V N0 P D Ls Cl | b1 c1 b2 c2 V N0 P D Ls Cl Cp
                | b1 c1 b2 c2 V N0 P D Lb St | b1 c1 b2 c2 b3 c3 V N0 P D Lb St Cm Cp
                | b1 c1 b2 c2 b3 c3 V N0 P D Lb St Cm U | b1 c1 V N0 P D Ls Lb];
    cbn [fst snd]; auto.
  - eapply test_nonzero, V.
  - eapply IH, F.
  - apply wined3d_buffer_prepare_location_locations in P. congruence.
  - apply wined3d_buffer_prepare_location_ok in P.
    apply wined3d_buffer_invalidate_range_locations in I. rewrite I.
    rewrite wined3d_buffer_validate_location_locations.
    destruct P as [-> | ->].
    + apply (testbit_nonzero _ 1). rewrite Z.land_spec, Z.lor_spec.
      now destruct (Z.testbit (locations b1) 1).
    + apply (testbit_nonzero _ 3). rewrite Z.land_spec, Z.lor_spec.
      now destruct (Z.testbit (locations b1) 3).
  - apply wined3d_buffer_prepare_location_locations in P.
    apply cleared_stage_locations in St. congruence.
  - apply wined3d_buffer_prepare_location_locations in P. congruence.
Qed.

(** A successful load leaves the location valid. *)
Lemma wined3d_buffer_load_location_valid b c location ok b' c' :
  wined3d_buffer_load_location b c location = (ok, b', c') ->
  ok = true -> test (locations b') location = true.
Proof.
  revert ok b' c'.
  apply (load_location_induction
           (fun _ _ l r => forall ok b' c', r = (ok, b', c') -> ok = true ->
                             test (locations b') l = true)).
  clear. intros f IH b c l r H. apply load_location_body_exit in H.
  assert (forall b0 c0 ok b' c',
            l = WINED3D_LOCATION_SYSMEM \/ l = WINED3D_LOCATION_BUFFER ->
            load_location_finish b0 c0 l = (ok, b', c') ->
            test (locations b') l = true) as Hfin.
  { intros b0 c0 ok b' c' Hl Fi.
    eapply load_location_finish_valid in Fi; [| exact Hl]. apply Fi. }
  destruct H as [V | r V E0 F | b1 c1 V N0 P | b1 c1 b2 c2 V N0 P D I
                | b1 c1 V N0 P D Ls Cl | b1 c1 b2 c2 V N0 P D Ls Cl Cp
                | b1 c1 b2 c2 V N0 P D Lb St | b1 c1 b2 c2 b3 c3 V N0 P D Lb St Cm Cp
                | b1 c1 b2 c2 b3 c3 V N0 P D Lb St Cm U | b1 c1 V N0 P D Ls Lb];
    intros ok b' c' E Hok; try (inversion E; subst; clear E); try discriminate;
    eauto.
  - apply wined3d_buffer_prepare_location_ok in P.
    apply wined3d_buffer_invalidate_range_locations in I. rewrite I.
    rewrite wined3d_buffer_validate_location_locations.
    destruct P as [-> | ->].
    + apply (test_bit _ _ 1). rewrite !Z.land_spec, Z.lor_spec.
      now destruct (Z.testbit (locations b1) 1).
    + apply (test_bit _ _ 3). rewrite !Z.land_spec, Z.lor_spec.
      now destruct (Z.testbit (locations b1) 3).
Qed.

(** Loading a valid location is the identity. *)
Lemma wined3d_buffer_load_location_noop b c location :
  test (locations b) location = true ->
  wined3d_buffer_load_location b c location = (true, b, c).
Proof.
  intros V. pose proof (wined3d_buffer_load_location_eq b c location) as E.
  cbn [load_location_fuel] in E. unfold wined3d_buffer_load_location_body at 1 in E.
  rewrite V in E. now inversion E.
Qed.

End Locations.

(** ** Copies made by a load *)

Section Copies.

Implicit Types (b : wined3d_buffer) (c : wined3d_context).

Lemma allocate_copies c ok c' : allocate c = (ok, c') -> copies c' = copies c.
Proof. unfold allocate. branches; intros [= <- <-]; reflexivity. Qed.

Lemma buffer_invalidate_bo_range_copies b c offset size_ b' c' :
  buffer_invalidate_bo_range b c offset size_ = (b', c') -> copies c' = copies c.
Proof.
  unfold buffer_invalidate_bo_range, wined3d_array_reserve, allocate.
  branches; intros [= <- <-]; reflexivity.
Qed.

Lemma wined3d_buffer_invalidate_range_copies b c location offset size_ b' c' :
  wined3d_buffer_invalidate_range b c location offset size_ = (b', c') ->
  copies c' = copies c.
Proof.
  unfold wined3d_buffer_invalidate_range.
  destruct (test location WINED3D_LOCATION_BUFFER).
  - destruct (buffer_invalidate_bo_range b c offset size_) as [b1 c1] eqn:E.
    apply buffer_invalidate_bo_range_copies in E. now intros [= <- <-].
  - now intros [= <- <-].
Qed.

Lemma wined3d_buffer_evict_sysmem_copies b c b' c' :
  wined3d_buffer_evict_sysmem b c = (b', c') -> copies c' = copies c.
Proof.
  unfold wined3d_buffer_evict_sysmem, wined3d_buffer_invalidate_location.
  destruct (pin_sysmem _); [now intros [= <- <-] |].
  destruct (wined3d_buffer_invalidate_range b c _ 0 0) as [b1 c1] eqn:E.
  apply wined3d_buffer_invalidate_range_copies in E. now intros [= <- <-].
Qed.

Lemma prepare_sysmem_copies b c ok b' c' :
  prepare_sysmem b c = (ok, b', c') -> copies c' = copies c.
Proof.
  unfold prepare_sysmem, wined3d_resource_prepare_sysmem, allocate.
  branches; intros [= <- <- <-]; reflexivity.
Qed.

Lemma wined3d_buffer_prepare_location_copies b c location ok b' c' :
  wined3d_buffer_prepare_location b c location = (ok, b', c') -> copies c' = copies c.
Proof.
  unfold wined3d_buffer_prepare_location, wined3d_buffer_no3d_prepare_location,
    wined3d_buffer_gl_prepare_location, wined3d_buffer_vk_prepare_location,
    wined3d_buffer_gl_create_buffer_object, wined3d_buffer_vk_create_buffer_object,
    buffer_invalidate_bo_range, allocate.
  cbn [is_bo].
  branches; try (intros [= <- <- <-]; reflexivity);
    intros E; apply prepare_sysmem_copies in E; exact E.
Qed.

Lemma wined3d_context_copy_bo_address_copies b c dst src ranges map_flags b' c' :
  wined3d_context_copy_bo_address c b dst src ranges map_flags = (b', c') ->
  copies c' = S (copies c).
Proof.
  unfold wined3d_context_copy_bo_address. branches; intros [= <- <-]; reflexivity.
Qed.

Lemma load_location_finish_copies b c location ok b' c' :
  load_location_finish b c location = (ok, b', c') -> copies c' = copies c.
Proof.
  unfold load_location_finish. destruct (_ && _).
  - destruct (wined3d_buffer_evict_sysmem _ c) as [b1 c1] eqn:E.
    apply wined3d_buffer_evict_sysmem_copies in E. now intros [= <- <- <-].
  - now intros [= <- <- <-].
Qed.

Lemma cleared_stage_copies b c ok b' c' :
  cleared_stage b c ok b' c' -> copies c' = copies c.
Proof.
  intros [| ok1 b1 c1 _ P]; [reflexivity |].
  now apply wined3d_buffer_prepare_location_copies in P.
Qed.

(** A set of locations without any of the four locations is empty. *)
Lemma locations_empty (x : Z) :
  0 <= x < 16 ->
  test x WINED3D_LOCATION_DISCARDED = false ->
  test x WINED3D_LOCATION_SYSMEM = false ->
  test x WINED3D_LOCATION_CLEARED = false ->
  test x WINED3D_LOCATION_BUFFER = false ->
  x = 0.
Proof.
  rewrite !test_false. intros Hx.
  assert (x = 0 \/ x = 1 \/ x = 2 \/ x = 3 \/ x = 4 \/ x = 5 \/ x = 6 \/ x = 7
          \/ x = 8 \/ x = 9 \/ x = 10 \/ x = 11 \/ x = 12 \/ x = 13 \/ x = 14
          \/ x = 15) as H by lia.
  repeat (destruct H as [-> | H]); try subst x; vm_compute; intros; congruence.
Qed.

Lemma validate_discarded_range b :
  locations b = 0 ->
  0 <= locations (wined3d_buffer_validate_location b WINED3D_LOCATION_DISCARDED) < 16.
Proof. intros E. rewrite validate_discarded_locations by exact E.
  unfold WINED3D_LOCATION_DISCARDED. lia. Qed.

(** A load asks for at most one copy, and for none when it loads the
    host memory of a buffer whose buffer object is not valid. *)
Lemma wined3d_buffer_load_location_copies b c location ok b' c' :
  0 <= locations b < 16 ->
  wined3d_buffer_load_location b c location = (ok, b', c') ->
  (copies c' <= copies c + 1)%nat
  /\ (location = WINED3D_LOCATION_SYSMEM ->
      test (locations b) WINED3D_LOCATION_BUFFER = false -> copies c' = copies c).
Proof.
  intros Hb E. revert ok b' c' E Hb.
  apply (load_location_induction
           (fun b c l r => forall ok b' c', r = (ok, b', c') ->
              0 <= locations b < 16 ->
              (copies c' <= copies c + 1)%nat
              /\ (l = WINED3D_LOCATION_SYSMEM ->
                  test (locations b) WINED3D_LOCATION_BUFFER = false ->
                  copies c' = copies c))).
  clear. intros f IH b c l r H. apply load_location_body_exit in H.
  destruct H as [V | r V E0 F | b1 c1 V N0 P | b1 c1 b2 c2 V N0 P D I
                | b1 c1 V N0 P D Ls Cl | b1 c1 b2 c2 V N0 P D Ls Cl Cp
                | b1 c1 b2 c2 V N0 P D Lb St | b1 c1 b2 c2 b3 c3 V N0 P D Lb St Cm Cp
                | b1 c1 b2 c2 b3 c3 V N0 P D Lb St Cm U | b1 c1 V N0 P D Ls Lb];
    intros ok b' c' E Hb.
  - inversion E; subst. split; [lia | reflexivity].
  - specialize (IH _ _ _ _ F _ _ _ E (validate_discarded_range b E0)).
    destruct IH as (IH1 & IH2). split; [exact IH1 |].
    intros Ls _. apply IH2; [exact Ls |].
    now rewrite validate_discarded_locations.
  - inversion E; subst. apply wined3d_buffer_prepare_location_copies in P.
    rewrite P. split; [lia | reflexivity].
  - inversion E; subst. apply wined3d_buffer_prepare_location_copies in P.
    apply wined3d_buffer_invalidate_range_copies in I.
    rewrite I, P. split; [lia | reflexivity].
  - apply load_location_finish_copies in E.
    apply wined3d_buffer_prepare_location_copies in P.
    rewrite E, P. split; [lia | reflexivity].
  - pose proof (wined3d_buffer_prepare_location_locations _ _ _ _ _ _ P) as L1.
    apply load_location_finish_copies in E.
    apply wined3d_buffer_prepare_location_copies in P.
    apply wined3d_context_copy_bo_address_copies in Cp.
    rewrite E, Cp, P. split; [lia |].
    intros _ Bf. exfalso. apply N0. rewrite L1 in *. subst l.
    now apply locations_empty.
  - inversion E; subst. apply wined3d_buffer_prepare_location_copies in P.
    apply cleared_stage_copies in St. rewrite St, P. split; [lia | discriminate].
  - apply load_location_finish_copies in E.
    apply wined3d_buffer_prepare_location_copies in P.
    apply cleared_stage_copies in St.
    apply wined3d_context_copy_bo_address_copies in Cp.
    rewrite E, Cp, St, P. split; [lia | subst l; discriminate].
  - pose proof (wined3d_buffer_prepare_location_locations _ _ _ _ _ _ P) as L1.
    pose proof (cleared_stage_locations _ _ _ _ _ St) as L2.
    apply load_location_finish_copies in E.
    apply wined3d_buffer_prepare_location_copies in P.
    apply cleared_stage_copies in St.
    assert (0 <= locations b2 < 16) as Hb2 by congruence.
    assert (test (locations b2) WINED3D_LOCATION_BUFFER = false) as Bf
      by (rewrite L2, L1; subst l; exact V).
    split; [| subst l; discriminate].
    destruct U as [b4 c4 F | b4 c4 c5 F A | b4 c4 c5 b6 c6 F A Cp].
    + destruct (IH _ _ _ _ F _ _ _ eq_refl Hb2) as (_ & IH2).
      rewrite E, (IH2 eq_refl Bf), St, P. lia.
    + destruct (IH _ _ _ _ F _ _ _ eq_refl Hb2) as (_ & IH2).
      apply allocate_copies in A.
      rewrite E, A, (IH2 eq_refl Bf), St, P. lia.
    + destruct (IH _ _ _ _ F _ _ _ eq_refl Hb2) as (_ & IH2).
      apply allocate_copies in A.
      apply wined3d_context_copy_bo_address_copies in Cp.
      rewrite E, Cp, A, (IH2 eq_refl Bf), St, P. lia.
  - inversion E; subst. apply wined3d_buffer_prepare_location_copies in P.
    rewrite P. split; [lia | reflexivity].
Qed.

End Copies.

(** * Range set *)

Section RangeSet.

Implicit Types (b : wined3d_buffer) (c : wined3d_context).

Lemma invalidate_all_maps b : maps (invalidate_all b) = [mk_range 0 (size (resource b))].
Proof. reflexivity. Qed.

Lemma buffer_invalidate_bo_range_whole b c size_ :
  size_ = 0 \/ size_ = size (resource b) ->
  buffer_invalidate_bo_range b c 0 size_ = (invalidate_all b, c).
Proof.
  intros H. unfold buffer_invalidate_bo_range.
  replace ((size_ =? 0) || (size_ =? size (resource b))) with true; [reflexivity |].
  symmetry. apply orb_true_iff. rewrite !Z.eqb_eq. exact H.
Qed.

(** C5: invalidating (0,0), (0,S) or a range that is out of bounds
    leaves the single range [0,S); any other range is appended, unless
    the array cannot grow, which also leaves the single range [0,S). *)
Theorem buffer_invalidate_bo_range_maps b c offset size_ :
  0 <= offset < 2 ^ 32 ->
  0 <= size_ < 2 ^ 32 ->
  0 <= size (resource b) < 2 ^ 32 ->
  let S := size (resource b) in
  let whole := [mk_range 0 S] in
  let b' := fst (buffer_invalidate_bo_range b c offset size_) in
  let reserved :=
    fst (fst (wined3d_array_reserve (maps_size b) (modified_areas b + 1) c)) in
  (offset = 0 /\ (size_ = 0 \/ size_ = S) \/ offset > S \/ size_ > S - offset ->
   maps b' = whole)
  /\ (~ (offset = 0 /\ (size_ = 0 \/ size_ = S)) -> offset <= S -> size_ <= S - offset ->
      (reserved = true -> maps b' = maps b ++ [mk_range offset size_])
      /\ (reserved = false -> maps b' = whole)).
Proof.
  intros Ho Hs HS S whole b' reserved. subst S whole b' reserved.
  unfold buffer_invalidate_bo_range.
  destruct ((offset =? 0) && ((size_ =? 0) || (size_ =? size (resource b)))) eqn:W.
  { split; [reflexivity |]. intros N. exfalso. apply N.
    apply andb_true_iff in W. destruct W as (W1 & W2).
    apply orb_true_iff in W2. rewrite !Z.eqb_eq in *. tauto. }
  assert (~ (offset = 0 /\ (size_ = 0 \/ size_ = size (resource b)))) as NW.
  { intros (E1 & E2). apply andb_false_iff in W. rewrite orb_false_iff in W.
    rewrite !Z.eqb_neq in W. lia. }
  destruct ((offset >? size (resource b))
            || (size_ >? u32 (size (resource b) - offset))) eqn:O.
  { split; [reflexivity |]. intros _ H1 H2. exfalso.
    apply orb_true_iff in O. destruct O as [O | O]; [lia |].
    unfold u32 in O. rewrite Z.mod_small in O by lia. lia. }
  apply orb_false_iff in O. destruct O as (O1 & O2).
  unfold u32 in O2. rewrite Z.mod_small in O2 by lia.
  split; [intros [H | H]; [tauto | lia] |]. intros _ _ _.
  destruct (wined3d_array_reserve _ _ c) as [[ok cap] c1]. cbn [fst].
  destruct ok; cbn [negb fst maps set_maps invalidate_all];
    split; intros; congruence.
Qed.

Lemma buffer_invalidate_bo_range_maps_witness :
  maps (fst (buffer_invalidate_bo_range sample_buffer sample_context 5 99))
  = [mk_range 0 64]
  /\ maps (fst (buffer_invalidate_bo_range sample_buffer sample_context 16 8))
     = [mk_range 16 8].
Proof.
  split.
  - apply (proj1 (buffer_invalidate_bo_range_maps sample_buffer sample_context 5 99
                   ltac:(lia) ltac:(lia) ltac:(vm_compute; split; congruence))).
    right. right. vm_compute. reflexivity.
  - apply (proj2 (buffer_invalidate_bo_range_maps sample_buffer sample_context 16 8
                   ltac:(lia) ltac:(lia) ltac:(vm_compute; split; congruence))).
    + intros (E & _). discriminate E.
    + vm_compute. congruence.
    + vm_compute. congruence.
    + reflexivity.
Defined.

End RangeSet.

(** * Conversion *)

Section D3DColor.

(** The bits of a converted colour. *)
Lemma fixup_d3dcolor_testbit (src n : Z) :
  0 <= n ->
  Z.testbit (fst (fixup_d3dcolor src)) n
  = if n <? 8 then Z.testbit src (n + 16)
    else if n <? 16 then Z.testbit src n
    else if n <? 24 then Z.testbit src (n - 16)
    else if n <? 32 then Z.testbit src n
    else false.
Proof.
  intros Hn. unfold fixup_d3dcolor, u32. cbn [fst].
  rewrite !Z.lor_spec, Z.bits_0, orb_false_l, !Z.land_spec.
  rewrite Z.shiftr_spec by lia. rewrite Z.land_spec.
  destruct (Z.ltb_spec n 32) as [H32 | H32].
  - rewrite Z.mod_pow2_bits_low by lia.
    rewrite Z.shiftl_spec by lia. rewrite Z.land_spec.
    assert (In n (map Z.of_nat (seq 0 32))) as H.
    { apply in_map_iff. exists (Z.to_nat n). split; [lia | apply in_seq; lia]. }
    cbn in H.
    repeat (destruct H as [<- | H]); try contradiction;
      cbn -[Z.testbit];
      repeat match goal with
        | |- context [Z.testbit (Z.pos ?p) ?k] =>
            let v := eval vm_compute in (Z.testbit (Z.pos p) k) in
            change (Z.testbit (Z.pos p) k) with v
        end;
      rewrite ?Z.testbit_neg_r by lia;
      rewrite ?andb_true_r, ?andb_false_r, ?orb_false_r, ?orb_false_l;
      reflexivity.
  - rewrite Z.mod_pow2_bits_high by lia.
    assert (forall m k, 0 <= m < 2 ^ 32 -> 32 <= k -> Z.testbit m k = false) as Hi.
    { intros m k Hm Hk. destruct (Z.eq_dec m 0) as [-> | Nz]; [apply Z.bits_0 |].
      apply Z.bits_above_log2; [lia |].
      apply Z.log2_lt_pow2; [lia |].
      apply Z.lt_le_trans with (2 ^ 32); [lia |].
      apply Z.pow_le_mono_r; lia. }
    rewrite (Hi 0xff00ff00 n), (Hi 0x00ff0000 (n + 16)) by lia.
    rewrite !andb_false_r.
    destruct (Z.ltb_spec n 8); [lia |]. destruct (Z.ltb_spec n 16); [lia |].
    destruct (Z.ltb_spec n 24); [lia |]. reflexivity.
Qed.

Lemma lane_testbit (v k n : Z) :
  0 <= k -> 0 <= n ->
  Z.testbit (lane v k) n = if n <? 8 then Z.testbit v (n + 8 * k) else false.
Proof.
  intros Hk Hn. unfold lane. rewrite Z.land_spec, Z.shiftr_spec by lia.
  change 0xff with (Z.ones 8).
  destruct (Z.ltb_spec n 8).
  - rewrite Z.ones_spec_low by lia. apply andb_true_r.
  - rewrite Z.ones_spec_high by lia. apply andb_false_r.
Qed.

Lemma fixup_d3dcolor_lane (src k : Z) :
  0 <= k < 4 ->
  lane (fst (fixup_d3dcolor src)) k
  = lane src (if k =? 0 then 2 else if k =? 2 then 0 else k).
Proof.
  intros Hk. apply Z.bits_inj'. intros n Hn.
  rewrite !lane_testbit by (repeat destruct (_ =? _); lia).
  destruct (Z.ltb_spec n 8) as [H8 | H8]; [| reflexivity].
  rewrite fixup_d3dcolor_testbit by lia.
  assert (k = 0 \/ k = 1 \/ k = 2 \/ k = 3) as [-> | [-> | [-> | ->]]] by lia;
    cbn [Z.eqb Pos.eqb Z.mul Pos.mul];
    repeat match goal with
      | |- context [?a <? ?b] => destruct (Z.ltb_spec a b); try lia
      end;
    f_equal; lia.
Qed.

Lemma fixup_d3dcolor_range (src : Z) : 0 <= fst (fixup_d3dcolor src) < 2 ^ 32.
Proof.
  assert (0 <= fst (fixup_d3dcolor src)) as Hp.
  { unfold fixup_d3dcolor, u32. cbn [fst].
    apply Z.lor_nonneg. split; [apply Z.lor_nonneg; split |].
    - apply Z.lor_nonneg. split; [lia | apply Z.land_nonneg; lia].
    - apply Z.shiftr_nonneg, Z.land_nonneg. lia.
    - apply Z.mod_pos_bound. lia. }
  split; [exact Hp |].
  destruct (Z.lt_ge_cases (fst (fixup_d3dcolor src)) (2 ^ 32)) as [| Hge]; [assumption |].
  exfalso.
  assert (0 < fst (fixup_d3dcolor src)) as Hpos by lia.
  pose proof (Z.bit_log2 _ Hpos) as Hbit.
  assert (32 <= Z.log2 (fst (fixup_d3dcolor src))) as Hlog.
  { apply Z.log2_le_pow2; lia. }
  rewrite fixup_d3dcolor_testbit in Hbit by lia.
  repeat match type of Hbit with
    | context [?a <? ?b] => destruct (Z.ltb_spec a b); try lia
    end;
    try discriminate.
Qed.

(** C6: the D3DCOLOR fixup keeps the alpha and green lanes and swaps
    the red and blue lanes; a 4-byte buffer holding 0x11223344,
    converted with stride 4 and a map of D3DCOLOR, reaches the buffer
    object as 0x11443322. *)
Theorem fixup_d3dcolor_swizzle :
  (forall src : Z,
      let dst := fst (fixup_d3dcolor src) in
      lane dst 3 = lane src 3 /\ lane dst 2 = lane src 0
      /\ lane dst 1 = lane src 1 /\ lane dst 0 = lane src 2
      /\ 0 <= dst < 2 ^ 32
      /\ snd (fixup_d3dcolor src) = 4)
  /\ (let '(ok, b, _) :=
        wined3d_buffer_load_location sample_color_buffer sample_context
          WINED3D_LOCATION_BUFFER in
      ok = true
      /\ option_map (fun bo => load32 bo 0) (buffer_object b) = Some 0x11443322
      /\ option_map (fun mem => load32 mem 0) (heap_memory (resource sample_color_buffer))
         = Some 0x11223344).
Proof.
  split.
  - intros src dst. subst dst.
    split; [apply (fixup_d3dcolor_lane src 3); lia |].
    split; [apply (fixup_d3dcolor_lane src 2); lia |].
    split; [apply (fixup_d3dcolor_lane src 1); lia |].
    split; [apply (fixup_d3dcolor_lane src 0); lia |].
    split; [apply fixup_d3dcolor_range | reflexivity].
  - vm_compute. repeat split; congruence.
Qed.

End D3DColor.

(** * Operations keep the description of the buffer *)

Section Kept.

Implicit Types (b : wined3d_buffer) (c : wined3d_context).

Lemma test_pow2 (x n : Z) : 0 <= n -> test x (2 ^ n) = Z.testbit x n.
Proof.
  intros Hn. destruct (Z.testbit x n) eqn:B.
  - apply (test_bit _ _ n). rewrite Z.land_spec, B, Z.pow2_bits_true by lia.
    reflexivity.
  - apply test_false. apply Z.bits_inj'. intros m Hm.
    rewrite Z.land_spec, Z.bits_0, Z.pow2_bits_eqb by lia.
    destruct (Z.eqb_spec n m) as [<- | _]; [now rewrite B | apply andb_false_r].
Qed.

Lemma use_bo_testbit b : use_bo b = Z.testbit (flags b) 1.
Proof. apply (test_pow2 _ 1). lia. Qed.

Lemma kept_refl b : kept b b.
Proof. constructor; auto. Qed.

Lemma kept_trans b1 b2 b3 : kept b1 b2 -> kept b2 b3 -> kept b1 b3.
Proof.
  intros K1 K2. constructor.
  - rewrite (kept_size _ _ K2). apply K1.
  - rewrite (kept_usage _ _ K2). apply K1.
  - rewrite (kept_ops _ _ K2). apply K1.
  - intros H. apply K1, K2, H.
Qed.

Lemma frame_kept b b' : frame b b' -> kept b b'.
Proof.
  intros F. constructor; try apply F.
  rewrite !use_bo_testbit. destruct (frame_flags _ _ F) as [-> | ->]; [auto |].
  rewrite Z.land_spec. intros H. now apply andb_true_iff in H.
Qed.

Lemma kept_clear_flag b mask :
  kept b (set_flags (Z.land (flags b) (not32 mask)) b).
Proof.
  constructor; auto. rewrite !use_bo_testbit. cbn [flags set_flags].
  rewrite Z.land_spec. intros H. now apply andb_true_iff in H.
Qed.

Lemma wined3d_buffer_unload_location_kept b c location b' c' :
  wined3d_buffer_unload_location b c location = (b', c') -> kept b b'.
Proof.
  unfold wined3d_buffer_unload_location, wined3d_buffer_no3d_unload_location,
    wined3d_buffer_gl_unload_location, wined3d_buffer_vk_unload_location,
    wined3d_buffer_gl_destroy_buffer_object.
  branches; intros [= <- <-]; constructor; auto.
Qed.

Lemma wined3d_buffer_load_location_kept b c location ok b' c' :
  wined3d_buffer_load_location b c location = (ok, b', c') -> kept b b'.
Proof.
  intros E. apply frame_kept.
  pose proof (wined3d_buffer_load_location_frame b c location) as F.
  now rewrite E in F.
Qed.

Lemma buffer_resource_unload_kept b c b' c' :
  buffer_resource_unload b c = (b', c') -> kept b b'.
Proof.
  unfold buffer_resource_unload.
  destruct (buffer_object b); [| intros [= <- <-]; apply kept_refl].
  destruct (wined3d_buffer_load_location b c _) as [[ok b1] c1] eqn:L.
  apply wined3d_buffer_load_location_kept in L.
  destruct (wined3d_buffer_invalidate_location b1 c1 _) as [b2 c2] eqn:I.
  apply wined3d_buffer_invalidate_location_frame, frame_kept in I.
  destruct (wined3d_buffer_unload_location b2 c2 _) as [b3 c3] eqn:U.
  apply wined3d_buffer_unload_location_kept in U.
  intros [= <- <-].
  eapply kept_trans; [exact L |]. eapply kept_trans; [exact I |].
  eapply kept_trans; [exact U |].
  constructor; auto. rewrite !use_bo_testbit. cbn [flags set_flags].
  rewrite Z.land_spec. intros H. now apply andb_true_iff in H.
Qed.

Lemma wined3d_buffer_drop_bo_kept b c b' c' :
  wined3d_buffer_drop_bo b c = (b', c') -> kept b b' /\ use_bo b' = false.
Proof.
  unfold wined3d_buffer_drop_bo. intros U.
  apply buffer_resource_unload_kept in U.
  pose proof (kept_clear_flag b WINED3D_BUFFER_USE_BO) as K.
  split; [eauto using kept_trans |].
  destruct (use_bo b') eqn:B; [| reflexivity].
  apply (kept_use_bo _ _ U) in B. rewrite use_bo_testbit in B.
  cbn [flags set_flags] in B. rewrite Z.land_spec in B.
  apply andb_true_iff in B. destruct B as (_ & B). discriminate B.
Qed.

Lemma wined3d_buffer_get_memory_kept b c location a b' c' :
  wined3d_buffer_get_memory b c = (location, a, b', c') -> kept b b'.
Proof.
  unfold wined3d_buffer_get_memory.
  destruct (test (locations b) _).
  - destruct (wined3d_buffer_load_location b c _) as [[ok b1] c1] eqn:L.
    apply wined3d_buffer_load_location_kept in L.
    branches; intros [= <- <- <- <-]; exact L.
  - branches; intros [= <- <- <- <-]; apply kept_refl.
Qed.

Lemma wined3d_buffer_copy_bo_address_kept b c dst_offset src_addr size_ b' c' :
  wined3d_buffer_copy_bo_address b c dst_offset src_addr size_ = (b', c') -> kept b b'.
Proof.
  unfold wined3d_buffer_copy_bo_address.
  destruct (wined3d_buffer_get_memory b c) as [[[l a] b1] c1] eqn:G.
  apply wined3d_buffer_get_memory_kept in G.
  destruct (wined3d_context_copy_bo_address c1 b1 _ _ _ _) as [b2 c2] eqn:Cp.
  apply wined3d_context_copy_bo_address_frame in Cp. destruct Cp as (Cp & _).
  apply frame_kept in Cp.
  intros I. apply wined3d_buffer_invalidate_range_frame, frame_kept in I.
  eauto using kept_trans.
Qed.

Lemma wined3d_buffer_load_sysmem_kept b c mem b' c' :
  wined3d_buffer_load_sysmem b c = (mem, b', c') -> kept b b'.
Proof.
  unfold wined3d_buffer_load_sysmem.
  destruct (wined3d_buffer_load_location b c _) as [[ok b1] c1] eqn:L.
  apply wined3d_buffer_load_location_kept in L.
  intros [= <- <- <-]. eapply kept_trans; [exact L |].
  destruct ok; [constructor; auto | apply kept_refl].
Qed.

Lemma buffer_resource_sub_resource_unmap_kept b c idx hr b' c' :
  buffer_resource_sub_resource_unmap b c idx = (hr, b', c') -> kept b b'.
Proof.
  unfold buffer_resource_sub_resource_unmap.
  branches; intros [= <- <- <-]; constructor; auto.
Qed.

End Kept.

(** * Map and unmap *)

Section Map.

Implicit Types (b : wined3d_buffer) (c : wined3d_context).

Lemma first_map_stage flags_ count b c b' c' :
  (if count =? 1
   then
     let '(address, context) :=
       wined3d_context_map_bo_address c b (size (resource b)) flags_ in
     let buffer := set_map_ptr address b in
     if negb (Z.land (map_ptr buffer) (RESOURCE_ALIGNMENT - 1) =? 0) then
       let context := wined3d_context_unmap_bo_address context [] in
       let buffer := set_map_ptr 0 buffer in
       if test (usage (resource buffer)) WINED3DUSAGE_DYNAMIC
       then wined3d_buffer_drop_bo buffer context
       else
         let '(_, buffer, context) :=
           wined3d_buffer_load_location buffer context WINED3D_LOCATION_SYSMEM in
         (set_resource (set_pin_sysmem true (resource buffer)) buffer, context)
     else (buffer, context)
   else (b, c)) = (b', c') ->
  count = 1 /\ first_map flags_ b c b' c' \/ count <> 1 /\ b' = b /\ c' = c.
Proof.
  destruct (Z.eqb_spec count 1) as [E | N]; [| intros [= <- <-]; auto].
  intros H. left. split; [exact E |]. revert H.
  destruct (wined3d_context_map_bo_address c b _ flags_) as [address c1] eqn:M.
  cbv zeta. cbn [map_ptr set_map_ptr].
  destruct (Z.eqb_spec (Z.land address (RESOURCE_ALIGNMENT - 1)) 0) as [A | A];
    cbn [negb].
  - intros [= <- <-]. now apply first_map_aligned.
  - cbn [usage resource set_map_ptr] in *.
    destruct (test (usage (resource b)) WINED3DUSAGE_DYNAMIC) eqn:Dy.
    + intros D. eapply first_map_dropped; eauto.
    + destruct (wined3d_buffer_load_location _ _ _) as [[ok b2] c2] eqn:L.
      intros [= <- <-]. eapply first_map_doublebuffered; eauto.
Qed.

Lemma buffer_resource_sub_resource_map_exit b c idx box flags_ r :
  buffer_resource_sub_resource_map b c idx box flags_ = r ->
  map_exit b c box flags_ r.
Proof.
  intros <-. unfold buffer_resource_sub_resource_map.
  fold (count_map b). fold (dirty_range box flags_).
  destruct (dirty_range box flags_) as [dirty_offset dirty_size] eqn:Dr.
  cbv zeta.
  change (locations (count_map b)) with (locations b).
  change (pin_sysmem (resource (count_map b))) with (pin_sysmem (resource b)).
  change (flags (count_map b)) with (flags b).
  fold (map_through_sysmem b flags_).
  destruct (map_through_sysmem b flags_) eqn:Fast.
  - destruct (if negb (test (locations b) WINED3D_LOCATION_SYSMEM) then _ else _)
      as [b1 c1] eqn:S1.
    destruct (if test flags_ WINED3D_MAP_WRITE then _ else _) as [b2 c2] eqn:S2.
    fold (returned_pointer b2 box).
    eapply map_exit_sysmem; eauto. rewrite Dr. exact S2.
  - destruct (test flags_ WINED3D_MAP_DISCARD) eqn:Dis.
    + destruct (wined3d_buffer_prepare_location (count_map b) c _)
        as [[[] b1] c1] eqn:P; cbn [negb].
      * destruct (if test flags_ WINED3D_MAP_WRITE then _ else _) as [b2 c2] eqn:S2.
        destruct (if _ && _ then _ else _) as [b3 c3] eqn:S3.
        destruct (if _ =? 1 then _ else _) as [b4 c4] eqn:S4.
        fold (returned_pointer b4 box).
        apply first_map_stage in S4.
        apply (map_exit_bo b c box flags_
                 (wined3d_buffer_validate_location b1 WINED3D_LOCATION_BUFFER) c1
                 b2 c2 b3 c3 b4 c4 Fast).
        -- now apply resident_discard.
        -- rewrite Dr. exact S2.
        -- rewrite Dis. exact S3.
        -- exact S4.
      * now apply map_exit_out_of_memory.
    + destruct (wined3d_buffer_load_location (count_map b) c _)
        as [[ok b1] c1] eqn:L; cbn [negb].
      destruct (if test flags_ WINED3D_MAP_WRITE then _ else _) as [b2 c2] eqn:S2.
      destruct (if _ && _ then _ else _) as [b3 c3] eqn:S3.
      destruct (if _ =? 1 then _ else _) as [b4 c4] eqn:S4.
      fold (returned_pointer b4 box).
      apply first_map_stage in S4.
      apply (map_exit_bo b c box flags_ b1 c1 b2 c2 b3 c3 b4 c4 Fast).
      * eapply resident_load; eauto.
      * rewrite Dr. exact S2.
      * rewrite Dis. exact S3.
      * exact S4.
Qed.


(** *** The stages of a map *)

Lemma count_map_kept b : kept b (count_map b).
Proof. constructor; auto. Qed.

Lemma map_sysmem_stage_frame b c b1 c1 :
  (if negb (test (locations b) WINED3D_LOCATION_SYSMEM)
   then
     let '(_, b1, c1) :=
       wined3d_buffer_load_location (count_map b) c WINED3D_LOCATION_SYSMEM in
     (b1, c1)
   else (count_map b, c)) = (b1, c1) ->
  frame (count_map b) b1.
Proof.
  destruct (negb _); [| intros [= <- <-]; apply frame_refl].
  pose proof (wined3d_buffer_load_location_frame (count_map b) c
                WINED3D_LOCATION_SYSMEM) as F.
  destruct (wined3d_buffer_load_location (count_map b) c _) as [[ok b2] c2].
  now intros [= <- <-].
Qed.

Lemma map_invalidate_stage_frame b c flags_ offset size_ b' c' :
  (if test flags_ WINED3D_MAP_WRITE
   then wined3d_buffer_invalidate_range b c (not32 WINED3D_LOCATION_SYSMEM) offset size_
   else (b, c)) = (b', c') ->
  frame b b'.
Proof.
  destruct (test _ _); [| intros [= <- <-]; apply frame_refl].
  apply wined3d_buffer_invalidate_range_frame.
Qed.

Lemma map_resident_frame flags_ b c b' c' :
  map_resident flags_ b c b' c' -> frame b b'.
Proof.
  intros [b1 c1 _ P | ok b1 c1 _ L].
  - apply wined3d_buffer_prepare_location_frame in P.
    eauto using frame_trans, wined3d_buffer_validate_location_frame.
  - pose proof (wined3d_buffer_load_location_frame b c WINED3D_LOCATION_BUFFER) as F.
    now rewrite L in F.
Qed.

Lemma map_write_stage_frame b c flags_ offset size_ b' c' :
  (if test flags_ WINED3D_MAP_WRITE
   then
     let '(b2, c2) :=
       wined3d_buffer_invalidate_location b c (not32 WINED3D_LOCATION_BUFFER) in
     buffer_invalidate_bo_range b2 c2 offset size_
   else (b, c)) = (b', c') ->
  frame b b'.
Proof.
  destruct (test _ _); [| intros [= <- <-]; apply frame_refl].
  destruct (wined3d_buffer_invalidate_location b c _) as [b2 c2] eqn:I.
  apply wined3d_buffer_invalidate_location_frame in I.
  intros R. apply buffer_invalidate_bo_range_frame in R. eauto using frame_trans.
Qed.

Lemma map_evict_stage_frame b c (cond : bool) b' c' :
  (if cond then wined3d_buffer_evict_sysmem b c else (b, c)) = (b', c') ->
  frame b b' /\ maps b' = maps b.
Proof.
  destruct cond; [| intros [= <- <-]; split; [apply frame_refl | reflexivity]].
  intros E. split; [eapply wined3d_buffer_evict_sysmem_frame, E |].
  revert E. unfold wined3d_buffer_evict_sysmem, wined3d_buffer_invalidate_location,
    wined3d_buffer_invalidate_range.
  destruct (pin_sysmem (resource b)); [now intros [= <- <-] |].
  change (test WINED3D_LOCATION_SYSMEM WINED3D_LOCATION_BUFFER) with false.
  now intros [= <- <-].
Qed.

Lemma first_map_kept flags_ b c b' c' : first_map flags_ b c b' c' -> kept b b'.
Proof.
  intros [address c1 _ _ | address c1 b2 c2 _ _ _ D | address c1 ok b2 c2 _ _ _ L].
  - constructor; auto.
  - apply wined3d_buffer_drop_bo_kept in D. destruct D as (D & _).
    eapply kept_trans; [| exact D]. constructor; auto.
  - apply wined3d_buffer_load_location_kept in L.
    eapply kept_trans; [| eapply kept_trans; [exact L |]]; constructor; auto.
Qed.

Lemma buffer_resource_sub_resource_map_kept b c idx box flags_ hr p b' c' :
  buffer_resource_sub_resource_map b c idx box flags_ = (hr, p, b', c') -> kept b b'.
Proof.
  intros M. apply buffer_resource_sub_resource_map_exit in M.
  pose proof (count_map_kept b) as K0.
  inversion M as [b1 c1 b2 c2 _ S1 S2 | b1 c1 _ _ P
                 | b1 c1 b2 c2 b3 c3 b4 c4 _ R S2 S3 S4]; subst.
  - apply map_sysmem_stage_frame, frame_kept in S1.
    apply map_invalidate_stage_frame, frame_kept in S2.
    eauto using kept_trans.
  - apply wined3d_buffer_prepare_location_frame, frame_kept in P.
    eauto using kept_trans.
  - apply map_resident_frame, frame_kept in R.
    apply map_write_stage_frame, frame_kept in S2.
    apply map_evict_stage_frame in S3. destruct S3 as (S3 & _).
    apply frame_kept in S3.
    assert (kept b b3) as K3 by eauto using kept_trans.
    destruct S4 as [(_ & F) | (_ & -> & ->)]; [| exact K3].
    apply first_map_kept in F. eauto using kept_trans.
Qed.

End Map.

(** * Claims about map and unmap *)

Section MapClaims.

Implicit Types (b : wined3d_buffer) (c : wined3d_context).

Lemma s32_small (x : Z) : - 2 ^ 31 <= x < 2 ^ 31 -> s32 x = x.
Proof. intros H. unfold s32. rewrite Z.mod_small; lia. Qed.


(** Unmapping a buffer that is mapped once more than [n] times leaves
    it mapped [n] times. *)
Lemma buffer_resource_sub_resource_unmap_count b c n :
  0 <= n < 2 ^ 31 - 1 ->
  map_count (resource b) = n + 1 ->
  let '(hr, b', _) := buffer_resource_sub_resource_unmap b c 0 in
  hr = WINED3D_OK /\ map_count (resource b') = n.
Proof.
  intros Hn E. unfold buffer_resource_sub_resource_unmap. cbn [Z.eqb negb].
  destruct (Z.eqb_spec (map_count (resource b)) 0) as [Z0 | _]; [lia |].
  cbn [resource set_resource map_count set_map_count].
  rewrite E. replace (n + 1 - 1) with n by lia. rewrite s32_small by lia.
  destruct (negb (n =? 0)); [auto |].
  destruct (map_ptr _ =? 0); auto.
Qed.

Lemma buffer_resource_unload_map_count b c b' c' :
  buffer_resource_unload b c = (b', c') ->
  map_count (resource b') = map_count (resource b) /\ map_ptr b' = map_ptr b.
Proof.
  unfold buffer_resource_unload.
  destruct (buffer_object b); [| now intros [= <- <-]].
  destruct (wined3d_buffer_load_location b c _) as [[ok b1] c1] eqn:L.
  pose proof (wined3d_buffer_load_location_frame b c WINED3D_LOCATION_SYSMEM) as F1.
  rewrite L in F1. cbn [fst snd] in F1.
  destruct (wined3d_buffer_invalidate_location b1 c1 _) as [b2 c2] eqn:I.
  apply wined3d_buffer_invalidate_location_frame in I.
  destruct (wined3d_buffer_unload_location b2 c2 _) as [b3 c3] eqn:U.
  assert (map_count (resource b3) = map_count (resource b2)
          /\ map_ptr b3 = map_ptr b2) as [M3 P3].
  { revert U.
    unfold wined3d_buffer_unload_location, wined3d_buffer_no3d_unload_location,
      wined3d_buffer_gl_unload_location, wined3d_buffer_vk_unload_location,
      wined3d_buffer_gl_destroy_buffer_object.
    branches; now intros [= <- <-]. }
  intros [= <- <-]. cbn.
  rewrite M3, P3, (frame_map_count _ _ I), (frame_map_ptr _ _ I).
  split; apply F1.
Qed.

Lemma first_map_map_count flags_ b c b' c' :
  first_map flags_ b c b' c' -> map_count (resource b') = map_count (resource b).
Proof.
  intros [address c1 _ _ | address c1 b2 c2 _ _ _ D | address c1 ok b2 c2 _ _ _ L].
  - reflexivity.
  - unfold wined3d_buffer_drop_bo in D.
    apply buffer_resource_unload_map_count in D. apply D.
  - pose proof (wined3d_buffer_load_location_frame
                  (set_map_ptr 0 (set_map_ptr address b))
                  (wined3d_context_unmap_bo_address c1 []) WINED3D_LOCATION_SYSMEM) as F.
    rewrite L in F. cbn [fst snd] in F. cbn. apply (frame_map_count _ _ F).
Qed.

(** The map is counted on every path, failure included. *)
Lemma buffer_resource_sub_resource_map_count b c idx box flags_ :
  map_count (resource (snd (fst (buffer_resource_sub_resource_map b c idx box flags_))))
  = s32 (map_count (resource b) + 1).
Proof.
  destruct (buffer_resource_sub_resource_map b c idx box flags_)
    as [[[hr p] b'] c'] eqn:M. cbn [fst snd].
  apply buffer_resource_sub_resource_map_exit in M.
  change (s32 (map_count (resource b) + 1)) with (map_count (resource (count_map b))).
  inversion M as [b1 c1 b2 c2 _ S1 S2 | b1 c1 _ _ P
                 | b1 c1 b2 c2 b3 c3 b4 c4 _ R S2 S3 S4]; subst.
  - apply map_sysmem_stage_frame in S1. apply map_invalidate_stage_frame in S2.
    rewrite (frame_map_count _ _ S2). apply (frame_map_count _ _ S1).
  - apply wined3d_buffer_prepare_location_frame in P. apply (frame_map_count _ _ P).
  - apply map_resident_frame in R. apply map_write_stage_frame in S2.
    apply map_evict_stage_frame in S3. destruct S3 as (S3 & _).
    assert (map_count (resource b3) = map_count (resource (count_map b))) as E3.
    { rewrite (frame_map_count _ _ S3), (frame_map_count _ _ S2).
      apply (frame_map_count _ _ R). }
    destruct S4 as [(_ & F) | (_ & -> & ->)]; [| exact E3].
    apply first_map_map_count in F. congruence.
Qed.

(** C10: on the buffer-object path a DISCARD map counts the map before
    it prepares the buffer object; when that fails the call returns
    E_OUTOFMEMORY with the count still incremented, and a matching
    unmap restores it. *)
Theorem map_out_of_memory_keeps_count b c idx box flags_ :
  map_through_sysmem b flags_ = false ->
  test flags_ WINED3D_MAP_DISCARD = true ->
  fst (fst (wined3d_buffer_prepare_location (count_map b) c WINED3D_LOCATION_BUFFER))
  = false ->
  0 <= map_count (resource b) < 2 ^ 31 - 1 ->
  let '(hr, p, b', c') := buffer_resource_sub_resource_map b c idx box flags_ in
  hr = E_OUTOFMEMORY /\ p = None
  /\ map_count (resource b') = map_count (resource b) + 1
  /\ (let '(hr', b'', _) := buffer_resource_sub_resource_unmap b' c' 0 in
      hr' = WINED3D_OK /\ map_count (resource b'') = map_count (resource b)).
Proof.
  intros Fast Dis Pf Hn.
  destruct (buffer_resource_sub_resource_map b c idx box flags_)
    as [[[hr p] b'] c'] eqn:M.
  apply buffer_resource_sub_resource_map_exit in M.
  inversion M as [b1 c1 b2 c2 F _ _ | b1 c1 _ _ P
                 | b1 c1 b2 c2 b3 c3 b4 c4 _ R _ _ _]; subst.
  - congruence.
  - apply wined3d_buffer_prepare_location_frame in P.
    assert (map_count (resource b') = map_count (resource b) + 1) as E.
    { rewrite (frame_map_count _ _ P). cbn. apply s32_small. lia. }
    repeat split; auto.
    apply buffer_resource_sub_resource_unmap_count; [lia | exact E].
  - exfalso. inversion R as [b5 c5 _ P | ok b5 c5 Nd _]; subst.
    + rewrite P in Pf. discriminate Pf.
    + congruence.
Qed.

Lemma map_out_of_memory_keeps_count_witness :
  let '(hr, p, b', c') :=
    buffer_resource_sub_resource_map sample_buffer
      (with_alloc_results [false] sample_context) 0 (mk_box 0 16)
      (Z.lor WINED3D_MAP_WRITE WINED3D_MAP_DISCARD) in
  hr = E_OUTOFMEMORY /\ p = None
  /\ map_count (resource b') = map_count (resource sample_buffer) + 1
  /\ (let '(hr', b'', _) := buffer_resource_sub_resource_unmap b' c' 0 in
      hr' = WINED3D_OK /\ map_count (resource b'') = map_count (resource sample_buffer)).
Proof.
  apply (map_out_of_memory_keeps_count sample_buffer
           (with_alloc_results [false] sample_context) 0 (mk_box 0 16)
           (Z.lor WINED3D_MAP_WRITE WINED3D_MAP_DISCARD)).
  - reflexivity.
  - reflexivity.
  - reflexivity.
  - vm_compute. split; congruence.
Defined.




End MapClaims.

(** * Dirty ranges after a DISCARD map *)

Section Discard.

Implicit Types (b : wined3d_buffer) (c : wined3d_context).

Lemma wined3d_buffer_prepare_location_sysmem_maps b c ok b' c' :
  wined3d_buffer_prepare_location b c WINED3D_LOCATION_SYSMEM = (ok, b', c') ->
  maps b' = maps b.
Proof.
  unfold wined3d_buffer_prepare_location, wined3d_buffer_no3d_prepare_location,
    wined3d_buffer_gl_prepare_location, wined3d_buffer_vk_prepare_location.
  cbn [Z.eqb WINED3D_LOCATION_SYSMEM Pos.eqb].
  destruct (buffer_ops b); intros E; apply prepare_sysmem_locations in E; tauto.
Qed.

Lemma wined3d_buffer_validate_location_maps b location :
  test location WINED3D_LOCATION_BUFFER = false ->
  maps (wined3d_buffer_validate_location b location) = maps b.
Proof. intros T. unfold wined3d_buffer_validate_location. now rewrite T. Qed.

Lemma wined3d_buffer_invalidate_range_maps b c location offset size_ b' c' :
  test location WINED3D_LOCATION_BUFFER = false ->
  wined3d_buffer_invalidate_range b c location offset size_ = (b', c') ->
  maps b' = maps b.
Proof.
  intros T. unfold wined3d_buffer_invalidate_range. rewrite T. now intros [= <- <-].
Qed.

Lemma load_location_finish_sysmem_maps b c ok b' c' :
  load_location_finish b c WINED3D_LOCATION_SYSMEM = (ok, b', c') -> maps b' = maps b.
Proof.
  unfold load_location_finish.
  change (WINED3D_LOCATION_SYSMEM =? WINED3D_LOCATION_BUFFER) with false.
  rewrite andb_false_r. cbn [andb]. now intros [= <- <- <-].
Qed.

(** Loading the host memory leaves the dirty ranges alone. *)
Lemma wined3d_buffer_load_location_sysmem_maps b c ok b' c' :
  wined3d_buffer_load_location b c WINED3D_LOCATION_SYSMEM = (ok, b', c') ->
  maps b' = maps b.
Proof.
  revert ok b' c'.
  apply (load_location_induction
           (fun b _ l r => l = WINED3D_LOCATION_SYSMEM ->
              forall ok b' c', r = (ok, b', c') -> maps b' = maps b));
    [| reflexivity].
  clear. intros f IH b c l r H Ls. apply load_location_body_exit in H.
  destruct H as [V | r V E0 F | b1 c1 V N0 P | b1 c1 b2 c2 V N0 P D I
                | b1 c1 V N0 P D _ Cl | b1 c1 b2 c2 V N0 P D _ Cl Cp
                | b1 c1 b2 c2 V N0 P D Lb St | b1 c1 b2 c2 b3 c3 V N0 P D Lb St Cm Cp
                | b1 c1 b2 c2 b3 c3 V N0 P D Lb St Cm U | b1 c1 V N0 P D Ln Lb];
    intros ok b' c' E; subst l; try discriminate; try contradiction.
  - now inversion E.
  - rewrite (IH _ _ _ _ F eq_refl _ _ _ E).
    now apply wined3d_buffer_validate_location_maps.
  - inversion E; subst. eapply wined3d_buffer_prepare_location_sysmem_maps, P.
  - inversion E; subst. apply wined3d_buffer_prepare_location_sysmem_maps in P.
    apply wined3d_buffer_invalidate_range_maps in I; [| reflexivity].
    rewrite I, wined3d_buffer_validate_location_maps by reflexivity. exact P.
  - apply load_location_finish_sysmem_maps in E.
    apply wined3d_buffer_prepare_location_sysmem_maps in P.
    destruct (memset_heap_memory_frame b1) as (_ & _ & Mm). congruence.
  - apply load_location_finish_sysmem_maps in E.
    apply wined3d_buffer_prepare_location_sysmem_maps in P.
    apply wined3d_context_copy_bo_address_frame in Cp. destruct Cp as (_ & _ & Mc).
    congruence.
Qed.

Lemma first_map_maps flags_ b c b' c' :
  first_map flags_ b c b' c' ->
  maps b' = maps b
  \/ maps b' = [] /\ use_bo b' = false
     /\ test (usage (resource b)) WINED3DUSAGE_DYNAMIC = true.
Proof.
  intros [address c1 _ _ | address c1 b2 c2 _ _ Dy D | address c1 ok b2 c2 _ _ _ L].
  - now left.
  - pose proof (wined3d_buffer_drop_bo_kept _ _ _ _ D) as (_ & U).
    revert D. unfold wined3d_buffer_drop_bo, buffer_resource_unload.
    cbn [buffer_object set_flags set_map_ptr].
    destruct (buffer_object b); [| intros [= <- <-]; now left].
    destruct (wined3d_buffer_load_location _ _ _) as [[ok b3] c3].
    destruct (wined3d_buffer_invalidate_location b3 c3 _) as [b4 c4].
    destruct (wined3d_buffer_unload_location b4 c4 _) as [b5 c5].
    intros [= <- <-]. right. auto.
  - apply wined3d_buffer_load_location_sysmem_maps in L. now left.
Qed.

(** What the stages before the mapping of the buffer object leave alone:
    the addresses the backend will answer with, and the buffer object. *)
Lemma allocate_addresses c ok c' :
  allocate c = (ok, c') -> bo_map_addresses c' = bo_map_addresses c.
Proof. unfold allocate. destruct (alloc_results c); now intros [= <- <-]. Qed.

Lemma buffer_invalidate_bo_range_addresses b c offset size_ b' c' :
  buffer_invalidate_bo_range b c offset size_ = (b', c') ->
  bo_map_addresses c' = bo_map_addresses c /\ buffer_object b' = buffer_object b.
Proof.
  unfold buffer_invalidate_bo_range, wined3d_array_reserve.
  destruct (_ && _); [now intros [= <- <-] |].
  destruct (_ || _); [now intros [= <- <-] |].
  destruct (_ <=? _); [now intros [= <- <-] |].
  destruct (allocate c) as [[] c1] eqn:A; apply allocate_addresses in A;
    now intros [= <- <-].
Qed.

Lemma wined3d_buffer_invalidate_range_addresses b c location offset size_ b' c' :
  wined3d_buffer_invalidate_range b c location offset size_ = (b', c') ->
  bo_map_addresses c' = bo_map_addresses c /\ buffer_object b' = buffer_object b.
Proof.
  unfold wined3d_buffer_invalidate_range.
  destruct (test location WINED3D_LOCATION_BUFFER).
  - destruct (buffer_invalidate_bo_range b c offset size_) as [b1 c1] eqn:E.
    apply buffer_invalidate_bo_range_addresses in E. now intros [= <- <-].
  - now intros [= <- <-].
Qed.

Lemma wined3d_buffer_evict_sysmem_addresses b c b' c' :
  wined3d_buffer_evict_sysmem b c = (b', c') ->
  bo_map_addresses c' = bo_map_addresses c /\ buffer_object b' = buffer_object b.
Proof.
  unfold wined3d_buffer_evict_sysmem, wined3d_buffer_invalidate_location.
  destruct (pin_sysmem (resource b)); [now intros [= <- <-] |].
  destruct (wined3d_buffer_invalidate_range b c _ 0 0) as [b1 c1] eqn:E.
  apply wined3d_buffer_invalidate_range_addresses in E. now intros [= <- <-].
Qed.

(** Preparing the buffer object: success leaves a buffer object, which
    only OpenGL and Vulkan have; failure records no dirty range. *)
Lemma wined3d_buffer_prepare_location_buffer b c ok b' c' :
  wined3d_buffer_prepare_location b c WINED3D_LOCATION_BUFFER = (ok, b', c') ->
  bo_map_addresses c' = bo_map_addresses c
  /\ if ok
     then buffer_object b' <> None /\ buffer_ops b <> wined3d_buffer_no3d_ops
     else maps b' = maps b \/ maps b' = [].
Proof.
  unfold wined3d_buffer_prepare_location, wined3d_buffer_no3d_prepare_location,
    wined3d_buffer_gl_prepare_location, wined3d_buffer_vk_prepare_location,
    wined3d_buffer_gl_create_buffer_object, wined3d_buffer_vk_create_buffer_object.
  change (WINED3D_LOCATION_BUFFER =? WINED3D_LOCATION_SYSMEM) with false.
  change (WINED3D_LOCATION_BUFFER =? WINED3D_LOCATION_BUFFER) with true.
  cbv iota.
  set (c0 := log (call_prepare_location WINED3D_LOCATION_BUFFER) c).
  assert (bo_map_addresses c0 = bo_map_addresses c) as A0 by reflexivity.
  clearbody c0.
  assert (forall b1 c3 b2 c4,
            buffer_invalidate_bo_range
              (set_buffer_object (Some (zeroes (size (resource b)))) b1) c3 0 0
            = (b2, c4) ->
            bo_map_addresses c4 = bo_map_addresses c3 /\ buffer_object b2 <> None)
    as Created.
  { intros b1 c3 b2 c4 I. apply buffer_invalidate_bo_range_addresses in I.
    destruct I as (I1 & I2). split; [exact I1 |]. now rewrite I2. }
  destruct (buffer_ops b).
  - intros [= <- <- <-]. auto.
  - destruct (buffer_object b) eqn:Bo.
    { intros [= <- <- <-]. rewrite Bo. repeat split; auto; discriminate. }
    destruct (test (flags b) WINED3D_BUFFER_USE_BO); cbn [negb];
      [| intros [= <- <- <-]; auto].
    destruct (allocate c0) as [[] c1] eqn:A1; apply allocate_addresses in A1;
      cbn [negb].
    2: { intros [= <- <- <-]. split; [congruence | auto]. }
    destruct (allocate (log _ c1)) as [[] c2] eqn:A2; apply allocate_addresses in A2;
      cbn [negb].
    2: { intros [= <- <- <-]. split; [rewrite A2; cbn; congruence | auto]. }
    destruct (buffer_invalidate_bo_range _ c2 0 0) as [b2 c3] eqn:I.
    apply Created in I. destruct I as (I1 & I2).
    intros [= <- <- <-].
    split; [rewrite I1, A2; cbn; congruence |].
    split; [exact I2 | discriminate].
  - destruct (buffer_object b) eqn:Bo.
    { intros [= <- <- <-]. rewrite Bo. repeat split; auto; discriminate. }
    destruct (allocate c0) as [[] c1] eqn:A1; apply allocate_addresses in A1;
      cbn [negb].
    2: { intros [= <- <- <-]. split; [congruence | auto]. }
    destruct (allocate (log _ c1)) as [[] c2] eqn:A2; apply allocate_addresses in A2;
      cbn [negb].
    2: { intros [= <- <- <-]. split; [rewrite A2; cbn; congruence | auto]. }
    destruct (buffer_invalidate_bo_range _ c2 0 0) as [b2 c3] eqn:I.
    apply Created in I. destruct I as (I1 & I2).
    intros [= <- <- <-].
    split; [rewrite I1, A2; cbn; congruence |].
    split; [exact I2 | discriminate].
Qed.

(** Dropping an existing buffer object of OpenGL or Vulkan destroys it
    and leaves no dirty range. *)
Lemma wined3d_buffer_drop_bo_destroys b c b' c' :
  wined3d_buffer_drop_bo b c = (b', c') ->
  buffer_object b <> None -> buffer_ops b <> wined3d_buffer_no3d_ops ->
  maps b' = [] /\ buffer_object b' = None /\ map_ptr b' = map_ptr b.
Proof.
  unfold wined3d_buffer_drop_bo, buffer_resource_unload.
  cbn [buffer_object set_flags]. intros D Bo Ops. revert D.
  destruct (buffer_object b); [clear Bo | contradiction].
  set (b0 := set_flags _ b).
  pose proof (wined3d_buffer_load_location_frame b0 c WINED3D_LOCATION_SYSMEM) as F1.
  destruct (wined3d_buffer_load_location b0 c WINED3D_LOCATION_SYSMEM)
    as [[ok b1] c1].
  cbn [fst snd] in F1.
  destruct (wined3d_buffer_invalidate_location b1 c1 WINED3D_LOCATION_BUFFER)
    as [b2 c2] eqn:I.
  apply wined3d_buffer_invalidate_location_frame in I.
  assert (buffer_ops b2 = buffer_ops b /\ map_ptr b2 = map_ptr b) as (O2 & M2).
  { rewrite (frame_ops _ _ I), (frame_ops _ _ F1), (frame_map_ptr _ _ I),
      (frame_map_ptr _ _ F1). auto. }
  unfold wined3d_buffer_unload_location, wined3d_buffer_no3d_unload_location,
    wined3d_buffer_gl_unload_location, wined3d_buffer_vk_unload_location,
    wined3d_buffer_gl_destroy_buffer_object.
  change (WINED3D_LOCATION_BUFFER =? WINED3D_LOCATION_BUFFER) with true. cbv iota.
  rewrite O2.
  destruct (buffer_ops b); [contradiction | |].
  - destruct (buffer_object b2) eqn:B2; intros [= <- <-]; cbn; auto.
  - intros [= <- <-]. cbn. auto.
Qed.

(** C2, as the code has it.  A map with WRITE and DISCARD that succeeds
    leaves the single dirty range [0,size), whatever the box, with one
    exception: the first map ([map_count] becomes 1) of a dynamic buffer
    through its buffer object, when the address of the mapping is not
    aligned.  Then the buffer object is dropped: no dirty range and no
    buffer object are left, [WINED3D_BUFFER_USE_BO] is clear and the
    buffer is not mapped through a buffer object.  The map fails with
    E_OUTOFMEMORY, on the path through the buffer object only, without
    recording a dirty range. *)
Theorem map_discard_dirty_range b c idx box flags_ hr p b' c' :
  buffer_resource_sub_resource_map b c idx box flags_ = (hr, p, b', c') ->
  test flags_ WINED3D_MAP_WRITE = true ->
  test flags_ WINED3D_MAP_DISCARD = true ->
  let address := fst (next_map_address c) in
  let fallback :=
    negb (map_through_sysmem b flags_)
    && (s32 (map_count (resource b) + 1) =? 1)
    && negb (Z.land address (RESOURCE_ALIGNMENT - 1) =? 0)
    && test (usage (resource b)) WINED3DUSAGE_DYNAMIC in
  (hr = WINED3D_OK
   /\ size (resource b') = size (resource b)
   /\ if fallback
      then maps b' = [] /\ buffer_object b' = None /\ use_bo b' = false
           /\ map_ptr b' = 0
      else maps b' = [mk_range 0 (size (resource b))])
  \/ (hr = E_OUTOFMEMORY /\ p = None
      /\ map_through_sysmem b flags_ = false
      /\ (maps b' = maps b \/ maps b' = [])).
Proof.
  intros M Wr Dis address fallback.
  pose proof (buffer_resource_sub_resource_map_kept _ _ _ _ _ _ _ _ _ M) as K.
  apply buffer_resource_sub_resource_map_exit in M.
  assert (dirty_range box flags_ = (0, 0)) as Dr
    by (unfold dirty_range; now rewrite Dis).
  inversion M as [b1 c1 b2 c2 Fast S1 S2 | b1 c1 Slow _ P
                 | b1 c1 b2 c2 b3 c3 b4 c4 Slow R S2 S3 S4]; subst.
  - left. split; [reflexivity |]. split; [apply K |].
    assert (fallback = false) as -> by (unfold fallback; now rewrite Fast).
    apply map_sysmem_stage_frame in S1. rewrite Wr, Dr in S2. cbn [fst snd] in S2.
    unfold wined3d_buffer_invalidate_range in S2.
    change (test (not32 WINED3D_LOCATION_SYSMEM) WINED3D_LOCATION_BUFFER)
      with true in S2.
    rewrite buffer_invalidate_bo_range_whole in S2 by auto.
    inversion S2; subst. cbn [maps set_locations invalidate_all set_maps].
    now rewrite (frame_size _ _ S1).
  - right. apply wined3d_buffer_prepare_location_buffer in P.
    destruct P as (_ & P). auto.
  - left. split; [reflexivity |]. split; [apply K |].
    inversion R as [b0 c0 _ P | ok b0 c0 Nd _]; subst; [| congruence].
    pose proof (wined3d_buffer_prepare_location_frame _ _ _ _ _ _ P) as F0.
    apply wined3d_buffer_prepare_location_buffer in P.
    destruct P as (A0 & Bo0 & Ops).
    apply map_resident_frame in R. rewrite Wr, Dr in S2. cbn [fst snd] in S2.
    destruct (wined3d_buffer_invalidate_location
                (wined3d_buffer_validate_location b0 WINED3D_LOCATION_BUFFER) c1 _)
      as [b5 c5] eqn:I.
    pose proof (wined3d_buffer_invalidate_location_frame _ _ _ _ _ I) as FI.
    apply wined3d_buffer_invalidate_range_addresses in I. destruct I as (A5 & Bo5).
    rewrite buffer_invalidate_bo_range_whole in S2 by auto.
    inversion S2; subst. clear S2.
    pose proof (map_evict_stage_frame _ _ _ _ _ S3) as (F3 & M3).
    assert (bo_map_addresses c3 = bo_map_addresses c
            /\ buffer_object b3 <> None) as (A3 & Bo3).
    { assert (bo_map_addresses c2 = bo_map_addresses c
              /\ buffer_object (invalidate_all b5) <> None) as (A2 & B2).
      { split; [congruence |]. cbn [invalidate_all set_maps buffer_object].
        rewrite Bo5. unfold wined3d_buffer_validate_location, buffer_clear_dirty_areas.
        change (test WINED3D_LOCATION_BUFFER WINED3D_LOCATION_BUFFER) with true.
        cbn. exact Bo0. }
      revert S3. destruct (test flags_ WINED3D_MAP_DISCARD && _).
      - intros E. apply wined3d_buffer_evict_sysmem_addresses in E.
        destruct E as (-> & ->). auto.
      - intros [= <- <-]. auto. }
    assert (maps b3 = [mk_range 0 (size (resource b))]) as E3.
    { rewrite M3. cbn [maps invalidate_all set_maps].
      now rewrite (frame_size _ _ FI), (frame_size _ _ R). }
    assert (usage (resource b3) = usage (resource b)) as U3.
    { rewrite (frame_usage _ _ F3). cbn [usage resource invalidate_all set_maps].
      now rewrite (frame_usage _ _ FI), (frame_usage _ _ R). }
    assert (buffer_ops b3 <> wined3d_buffer_no3d_ops) as O3.
    { rewrite (frame_ops _ _ F3). cbn [buffer_ops invalidate_all set_maps].
      now rewrite (frame_ops _ _ FI), (frame_ops _ _ R). }
    assert (forall a c6,
              wined3d_context_map_bo_address c3 b3 (size (resource b3)) flags_
              = (a, c6) -> a = address) as Addr.
    { unfold address, wined3d_context_map_bo_address, next_map_address.
      destruct (buffer_object b3); [| contradiction].
      cbn [bo_map_addresses log]. rewrite A3.
      destruct (bo_map_addresses c); cbn [fst]; intros a c6 E; now inversion E. }
    unfold fallback. rewrite Slow. cbn [negb andb].
    destruct S4 as [(C1 & F) | (C1 & -> & ->)].
    + rewrite C1. cbn [Z.eqb Pos.eqb andb].
      destruct F as [a c6 Ma Al | a c6 b6 c7 Ma Al Dy D | a c6 ok b6 c7 Ma Al Dy L];
        apply Addr in Ma; subst a.
      * rewrite Al. cbn [Z.eqb negb andb]. exact E3.
      * apply Z.eqb_neq in Al. rewrite Al. rewrite U3 in Dy. rewrite Dy.
        cbn [negb andb].
        pose proof (wined3d_buffer_drop_bo_kept _ _ _ _ D) as (_ & U).
        apply wined3d_buffer_drop_bo_destroys in D; auto.
        destruct D as (D1 & D2 & D3). auto.
      * rewrite U3 in Dy. rewrite Dy, andb_false_r.
        apply wined3d_buffer_load_location_sysmem_maps in L.
        cbn [maps set_resource]. now rewrite L.
    + apply Z.eqb_neq in C1. rewrite C1. cbn [andb]. exact E3.
Qed.

Lemma map_discard_dirty_range_witness :
  let r :=
    buffer_resource_sub_resource_map sample_buffer sample_context 0
      (mk_box 8 16) (Z.lor WINED3D_MAP_WRITE WINED3D_MAP_DISCARD) in
  let b' := snd (fst r) in
  fst (fst (fst r)) = WINED3D_OK
  /\ size (resource b') = size (resource sample_buffer)
  /\ maps b' = [mk_range 0 (size (resource sample_buffer))].
Proof.
  intros r b'.
  assert (buffer_resource_sub_resource_map sample_buffer sample_context 0
            (mk_box 8 16) (Z.lor WINED3D_MAP_WRITE WINED3D_MAP_DISCARD)
          = (fst (fst (fst r)), snd (fst (fst r)), b', snd r)) as M
    by (vm_compute; reflexivity).
  destruct (map_discard_dirty_range sample_buffer sample_context 0 (mk_box 8 16)
              (Z.lor WINED3D_MAP_WRITE WINED3D_MAP_DISCARD)
              (fst (fst (fst r))) (snd (fst (fst r))) b' (snd r) M eq_refl eq_refl)
    as [H | (H & _)].
  - exact H.
  - vm_compute in H. discriminate H.
Defined.

(** The claim as stated fails: the first WRITE|DISCARD map of a dynamic
    buffer whose mapping comes back misaligned succeeds and leaves no
    dirty range. *)
Lemma map_discard_not_fully_dirty :
  let '(hr, _, b', _) :=
    buffer_resource_sub_resource_map sample_dynamic_buffer
      (with_bo_map_addresses [0x10001] sample_context) 0 (mk_box 8 16)
      (Z.lor WINED3D_MAP_WRITE WINED3D_MAP_DISCARD) in
  hr = WINED3D_OK
  /\ maps b' <> [mk_range 0 (size (resource sample_dynamic_buffer))]
  /\ buffer_is_fully_dirty b' = false.
Proof. vm_compute. repeat split; congruence. Qed.

End Discard.

(** * Claims about loading a location *)

Section LoadClaims.

Implicit Types (b : wined3d_buffer) (c : wined3d_context).

Lemma wined3d_buffer_load_location_recover b c location :
  locations b = 0 ->
  wined3d_buffer_load_location b c location
  = wined3d_buffer_load_location
      (wined3d_buffer_validate_location b WINED3D_LOCATION_DISCARDED) c location.
Proof.
  intros E0.
  pose proof (wined3d_buffer_load_location_eq b c location) as E.
  change (load_location_fuel 3 b c location)
    with (wined3d_buffer_load_location_body (load_location_fuel 2) b c location) in E.
  unfold wined3d_buffer_load_location_body at 1 in E.
  assert (test (locations b) location = false) as T
    by (apply test_false; rewrite E0; apply Z.land_0_l).
  rewrite T, E0 in E. cbn [Z.eqb] in E.
  apply load_location_fuel_mono in E.
  rewrite wined3d_buffer_load_location_eq in E. now inversion E.
Qed.

(** C1, as the code has it: a load never returns with an empty set of
    locations; entered with an empty set, it validates DISCARDED and
    loads again. *)
Theorem load_location_keeps_a_location b c location :
  locations (snd (fst (wined3d_buffer_load_location b c location))) <> 0
  /\ (locations b = 0 ->
      wined3d_buffer_load_location b c location
      = wined3d_buffer_load_location
          (wined3d_buffer_validate_location b WINED3D_LOCATION_DISCARDED) c location).
Proof.
  split.
  - apply wined3d_buffer_load_location_locations.
  - apply wined3d_buffer_load_location_recover.
Qed.

Lemma load_location_keeps_a_location_witness :
  let b := set_locations 0 sample_buffer in
  locations (snd (fst (wined3d_buffer_load_location b sample_context
                         WINED3D_LOCATION_SYSMEM))) <> 0
  /\ wined3d_buffer_load_location b sample_context WINED3D_LOCATION_SYSMEM
     = wined3d_buffer_load_location
         (wined3d_buffer_validate_location b WINED3D_LOCATION_DISCARDED)
         sample_context WINED3D_LOCATION_SYSMEM.
Proof.
  intros b.
  destruct (load_location_keeps_a_location b sample_context WINED3D_LOCATION_SYSMEM)
    as (H1 & H2).
  split; [exact H1 | apply H2; reflexivity].
Defined.

(** The claim as stated fails: invalidating the only valid location
    leaves the set empty, and so does a WRITE map of a cleared buffer
    whose host memory cannot be allocated, which still returns
    WINED3D_OK. *)
Lemma operations_leave_no_location :
  (locations sample_managed_buffer <> 0
   /\ locations (fst (run_op (op_invalidate_location WINED3D_LOCATION_SYSMEM)
                        sample_managed_buffer sample_context)) = 0)
  /\ (let '(hr, _, b', _) :=
        buffer_resource_sub_resource_map sample_buffer
          (with_alloc_results [false] sample_context) 0 (mk_box 0 16)
          WINED3D_MAP_WRITE in
      locations sample_buffer <> 0 /\ hr = WINED3D_OK /\ locations b' = 0).
Proof. vm_compute. repeat split; congruence. Qed.

(** C9: after a successful load of a location, loading it again
    returns success and leaves the buffer and the context as they are:
    no call to the backend, no copy.  The two loads together ask for
    at most one copy. *)
Theorem load_location_twice b c location ok b1 c1 :
  0 <= locations b < 16 ->
  wined3d_buffer_load_location b c location = (ok, b1, c1) ->
  ok = true ->
  wined3d_buffer_load_location b1 c1 location = (true, b1, c1)
  /\ (copies (snd (wined3d_buffer_load_location b1 c1 location)) <= copies c + 1)%nat.
Proof.
  intros Hb L Hok.
  pose proof (wined3d_buffer_load_location_valid _ _ _ _ _ _ L Hok) as V.
  apply wined3d_buffer_load_location_noop with (c := c1) in V.
  split; [exact V |]. rewrite V. cbn [snd].
  eapply wined3d_buffer_load_location_copies; eauto.
Qed.

Lemma load_location_twice_witness :
  let '(ok, b1, c1) :=
    wined3d_buffer_load_location sample_color_buffer sample_context
      WINED3D_LOCATION_BUFFER in
  wined3d_buffer_load_location b1 c1 WINED3D_LOCATION_BUFFER = (true, b1, c1)
  /\ (copies (snd (wined3d_buffer_load_location b1 c1 WINED3D_LOCATION_BUFFER))
      <= copies sample_context + 1)%nat.
Proof.
  destruct (wined3d_buffer_load_location sample_color_buffer sample_context
              WINED3D_LOCATION_BUFFER) as [[ok b1] c1] eqn:L.
  apply (load_location_twice sample_color_buffer sample_context
           WINED3D_LOCATION_BUFFER ok b1 c1).
  - vm_compute. split; congruence.
  - exact L.
  - vm_compute in L. now inversion L.
Defined.

End LoadClaims.

(** * The per-draw load *)

Section Draw.

Implicit Types (b : wined3d_buffer) (c : wined3d_context).

Lemma conversion_changed_refl b : conversion_changed b b.
Proof. now destruct b. Qed.

Lemma conversion_changed_trans b1 b2 b3 :
  conversion_changed b1 b2 -> conversion_changed b2 b3 -> conversion_changed b1 b3.
Proof.
  unfold conversion_changed. intros E2 E3. rewrite E3 at 1. rewrite E2 at 1.
  reflexivity.
Qed.

Lemma conversion_changed_stride b v : conversion_changed b (set_stride v b).
Proof. now destruct b. Qed.

Lemma conversion_changed_map b v : conversion_changed b (set_conversion_map v b).
Proof. now destruct b. Qed.

Lemma fold_left_invariant {A B : Type} (P : A -> Prop) (f : A -> B -> A) (l : list B) :
  (forall a x, P a -> P (f a x)) -> forall a, P a -> P (fold_left f l a).
Proof. intros Hf. induction l as [| x l IH]; intros a Ha; cbn; auto. Qed.

Lemma buffer_process_converted_attribute_changed b t attrib s ret b' s' :
  buffer_process_converted_attribute b t attrib s = (ret, b', s') ->
  conversion_changed b b'.
Proof.
  unfold buffer_process_converted_attribute.
  set (first := if element_stride attrib =? 0 then _ else _).
  assert (conversion_changed b (snd (fst first))) as H1.
  { subst first. branches; try apply conversion_changed_refl.
    eapply conversion_changed_trans;
      [apply conversion_changed_stride | apply conversion_changed_map]. }
  destruct first as [[ret1 b1] s1]. cbn [fst snd] in H1.
  destruct (stride b1 =? 0); [now intros [= <- <- <-] |].
  match goal with
  | |- context [fold_left ?f ?l ?a] =>
      pose proof (fold_left_invariant
                    (fun p : bool * wined3d_buffer => conversion_changed b (snd p))
                    f l) as H2;
      specialize (fun Hf => H2 Hf a);
      destruct (fold_left f l a) as [ret2 b2]
  end.
  intros [= <- <- <-]. apply H2; [| exact H1].
  intros [r0 b0] i H0. cbn [snd] in *.
  branches; auto.
  eapply conversion_changed_trans; [exact H0 | apply conversion_changed_map].
Qed.

Lemma buffer_check_attribute_changed b si state idx fixup s ret b' s' :
  buffer_check_attribute b si state idx fixup s = (ret, b', s') ->
  conversion_changed b b'.
Proof.
  unfold buffer_check_attribute.
  repeat (match goal with
          | |- context [buffer_process_converted_attribute ?b ?t ?a ?s] =>
              let E := fresh "E" in
              destruct (buffer_process_converted_attribute b t a s)
                as [[? ?] ?] eqn:E;
              apply buffer_process_converted_attribute_changed in E
          end).
  branches; intros [= <- <- <-]; auto using conversion_changed_refl.
Qed.

Lemma buffer_find_decl_changed b si state fixup ret b' :
  buffer_find_decl b si state fixup = (ret, b') -> conversion_changed b b'.
Proof.
  unfold buffer_find_decl.
  destruct (_ && _); [intros [= <- <-]; apply conversion_changed_refl |].
  destruct (fixup =? 0).
  { destruct (conversion_map b); intros [= <- <-];
      [| apply conversion_changed_refl].
    unfold drop_conversion_map.
    eapply conversion_changed_trans;
      [apply conversion_changed_map | apply conversion_changed_stride]. }
  cbv zeta.
  destruct (buffer_check_attribute b si state WINED3D_FFP_POSITION fixup 0)
    as [[r0 b0] s0] eqn:E0.
  apply buffer_check_attribute_changed in E0.
  match goal with
  | |- context [fold_left ?f ?l ?a] =>
      pose proof (fold_left_invariant
                    (fun p : bool * wined3d_buffer * Z =>
                       conversion_changed b (snd (fst p))) f l) as H2;
      specialize (fun Hf => H2 Hf a);
      destruct (fold_left f l a) as [[ret2 b2] s2]
  end.
  assert (conversion_changed b b2) as H3.
  { apply H2; [| exact E0].
    intros [[r1 b1] s1] idx H1. cbn [fst snd] in *.
    destruct (buffer_check_attribute b1 si state idx _ s1) as [[r3 b3] s3] eqn:E.
    apply buffer_check_attribute_changed in E. cbn [fst snd].
    eauto using conversion_changed_trans. }
  branches; intros [= <- <-]; auto.
  unfold drop_conversion_map.
  eapply conversion_changed_trans; [exact H3 |].
  eapply conversion_changed_trans;
    [apply conversion_changed_map | apply conversion_changed_stride].
Qed.

Lemma wined3d_buffer_load_exit b c state r :
  wined3d_buffer_load b c state = r -> draw_exit b c r.
Proof.
  intros <-. unfold wined3d_buffer_load.
  destruct (negb (map_count (resource b) =? 0) && negb (map_ptr b =? 0)) eqn:Mp.
  { apply andb_true_iff in Mp. rewrite !negb_true_iff, !Z.eqb_neq in Mp.
    now apply draw_mapped. }
  clear Mp. fold (use_bo b). destruct (use_bo b) eqn:Ub; cbn [negb];
    [| now apply draw_no_bo].
  destruct (wined3d_buffer_prepare_location b c _) as [[[] b1] c1] eqn:P;
    cbn [negb]; [| now apply draw_prepare_failed].
  assert (forall (dc : bool) b2, declared b1 b2 ->
    draw_exit b c
      (if negb dc
          && negb (test (flags b2) WINED3D_BUFFER_HASDESC && buffer_is_dirty b2)
       then (path_clean, count_draw b2, c1)
       else if dc then
         let buffer :=
           set_decl_change_count (u32 (decl_change_count b2 + 1)) b2 in
         let buffer := set_draw_count 0 buffer in
         if (decl_change_count buffer >? VB_MAXDECLCHANGES)
            || (bool_decide (conversion_map buffer <> None)
                && test (usage (resource buffer)) WINED3DUSAGE_DYNAMIC)
         then
           let '(buffer, context) := wined3d_buffer_drop_bo buffer c1 in
           (path_decl_changed_drop, buffer, context)
         else
           let '(buffer, context) := buffer_invalidate_bo_range buffer c1 0 0 in
           let '(_, buffer, context) :=
             wined3d_buffer_load_location buffer context WINED3D_LOCATION_BUFFER in
           (path_decl_changed, buffer, context)
       else if bool_decide (conversion_map b2 <> None) && buffer_is_fully_dirty b2
       then
         let buffer :=
           set_full_conversion_count (u32 (full_conversion_count b2 + 1)) b2 in
         if full_conversion_count buffer >? VB_MAXFULLCONVERSIONS then
           let '(buffer, context) := wined3d_buffer_drop_bo buffer c1 in
           (path_full_conversion_drop, buffer, context)
         else
           let '(_, buffer, context) :=
             wined3d_buffer_load_location buffer c1 WINED3D_LOCATION_BUFFER in
           (path_full_conversion, buffer, context)
       else
         let buffer := count_draw b2 in
         let '(_, buffer, context) :=
           wined3d_buffer_load_location buffer c1 WINED3D_LOCATION_BUFFER in
         (path_upload, buffer, context))) as Tail.
  { intros dc b2 Hd.
    destruct (negb dc && _) eqn:Cl; [eapply draw_clean; eauto |].
    cbv zeta. fold (count_decl_change b2). fold (count_full_conversion b2).
    change (conversion_map (count_decl_change b2)) with (conversion_map b2).
    change (resource (count_decl_change b2)) with (resource b2).
    clear Cl. destruct dc; cbv iota.
    - destruct (_ || _) eqn:Cut.
      + destruct (wined3d_buffer_drop_bo _ c1) as [b3 c3] eqn:D.
        eapply draw_decl_changed_drop; eauto.
      + destruct (buffer_invalidate_bo_range _ c1 0 0) as [b3 c3] eqn:I.
        destruct (wined3d_buffer_load_location b3 c3 _) as [[ok b4] c4] eqn:L.
        eapply draw_decl_changed; eauto.
    - destruct (bool_decide _ && _) eqn:Fd.
      + destruct (Z.gtb_spec (full_conversion_count (count_full_conversion b2))
                    VB_MAXFULLCONVERSIONS) as [Gt | Le].
        * destruct (wined3d_buffer_drop_bo _ c1) as [b3 c3] eqn:D.
          eapply draw_full_conversion_drop; eauto. lia.
        * destruct (wined3d_buffer_load_location _ c1 _) as [[ok b3] c3] eqn:L.
          eapply draw_full_conversion; eauto.
      + destruct (wined3d_buffer_load_location _ c1 _) as [[ok b3] c3] eqn:L.
        eapply draw_upload; eauto. }
  destruct state as [state |].
  - destruct (buffer_find_decl b1 (stream_info c1) state _) as [dc b2] eqn:F.
    apply buffer_find_decl_changed in F.
    apply (Tail dc (set_flags (Z.lor (flags b2) WINED3D_BUFFER_HASDESC) b2)).
    exists b2. split; [exact F | now right].
  - apply (Tail false b1).
    exists b1. split; [apply conversion_changed_refl | now left].
Qed.

End Draw.

(** * Claims about the per-draw load *)

Section DrawClaims.

Implicit Types (b : wined3d_buffer) (c : wined3d_context).

Lemma declared_frame b b' :
  declared b b' ->
  decl_change_count b' = decl_change_count b
  /\ full_conversion_count b' = full_conversion_count b
  /\ draw_count b' = draw_count b
  /\ buffer_object b' = buffer_object b
  /\ kept b b' /\ use_bo b' = use_bo b.
Proof.
  intros (b1 & E & [-> | ->]); rewrite E; cbn; repeat split; auto.
  rewrite !use_bo_testbit. cbn [flags set_flags set_stride set_conversion_map].
  rewrite Z.lor_spec. intros H. apply orb_true_iff in H.
  destruct H as [H | H]; [exact H | discriminate H].
  rewrite !use_bo_testbit. cbn [flags set_flags set_stride set_conversion_map].
  rewrite Z.lor_spec. apply orb_false_r.
Qed.

Lemma frame_counters b b' :
  frame b b' ->
  decl_change_count b' = decl_change_count b
  /\ full_conversion_count b' = full_conversion_count b
  /\ draw_count b' = draw_count b.
Proof. intros F. repeat split; apply F. Qed.

Lemma count_draw_counters b :
  draw_count (count_draw b) = u32 (draw_count b + 1)
  /\ decl_change_count (count_draw b)
     = (if u32 (draw_count b + 1) >? VB_RESETDECLCHANGE
        then 0 else decl_change_count b)
  /\ full_conversion_count (count_draw b)
     = (if u32 (draw_count b + 1) >? VB_RESETFULLCONVS
        then 0 else full_conversion_count b).
Proof.
  unfold count_draw. cbn [draw_count set_draw_count].
  destruct (u32 (draw_count b + 1) >? VB_RESETDECLCHANGE);
    cbn [draw_count set_draw_count set_decl_change_count];
    destruct (u32 (draw_count b + 1) >? VB_RESETFULLCONVS); cbn; auto.
Qed.

(** What a clean draw does to the counters. *)
Lemma clean_draw_counters b c state p b' c' :
  wined3d_buffer_load b c state = (p, b', c') ->
  clean_draw p = true ->
  draw_count b' = u32 (draw_count b + 1)
  /\ decl_change_count b'
     = (if draw_count b' >? VB_RESETDECLCHANGE then 0 else decl_change_count b)
  /\ full_conversion_count b'
     = (if draw_count b' >? VB_RESETFULLCONVS then 0 else full_conversion_count b).
Proof.
  intros L Hp. apply wined3d_buffer_load_exit in L.
  assert (forall b1 c1 b2,
            wined3d_buffer_prepare_location b c WINED3D_LOCATION_BUFFER
            = (true, b1, c1) ->
            declared b1 b2 ->
            draw_count (count_draw b2) = u32 (draw_count b + 1)
            /\ decl_change_count (count_draw b2)
               = (if draw_count (count_draw b2) >? VB_RESETDECLCHANGE
                  then 0 else decl_change_count b)
            /\ full_conversion_count (count_draw b2)
               = (if draw_count (count_draw b2) >? VB_RESETFULLCONVS
                  then 0 else full_conversion_count b)) as Hc.
  { intros b1 c1 b2 P D.
    apply wined3d_buffer_prepare_location_frame, frame_counters in P.
    apply declared_frame in D.
    destruct P as (P1 & P2 & P3), D as (D1 & D2 & D3 & _).
    destruct (count_draw_counters b2) as (-> & -> & ->).
    rewrite D1, D2, D3, P1, P2, P3. auto. }
  inversion L; subst; try discriminate Hp.
  - eapply Hc; eauto.
  - match goal with
    | H : wined3d_buffer_load_location _ _ _ = _ |- _ =>
        pose proof (wined3d_buffer_load_location_frame (count_draw b2) c1
                      WINED3D_LOCATION_BUFFER) as F;
        rewrite H in F; cbn [fst snd] in F
    end.
    apply frame_counters in F. destruct F as (-> & -> & ->). eapply Hc; eauto.
Qed.

Section Decay.

(** A counter that a clean draw resets once the draw count exceeds
    [limit]. *)
Variables (limit : Z) (counter : wined3d_buffer -> Z).
Hypothesis limit_range : 0 <= limit < 2 ^ 32 - 1.
Hypothesis counter_step :
  forall b c state p b' c',
    wined3d_buffer_load b c state = (p, b', c') ->
    clean_draw p = true ->
    draw_count b' = u32 (draw_count b + 1)
    /\ counter b' = (if draw_count b' >? limit then 0 else counter b).

Lemma decay_invariant draws :
  forall b b' first k,
    clean_draws draws b = Some b' ->
    0 <= first < 2 ^ 32 - 1 -> 0 <= k ->
    counter b = 0 \/ draw_count b = first + k /\ (k = 0 \/ first + k <= limit) ->
    let n := k + Z.of_nat (length draws) in
    counter b' = 0 \/ draw_count b' = first + n /\ (n = 0 \/ first + n <= limit).
Proof.
  induction draws as [| [c state] draws IH]; intros b b' first k R Hf Hk Inv n.
  - inversion R; subst. subst n. cbn [length Z.of_nat].
    rewrite Z.add_0_r. exact Inv.
  - cbn [clean_draws] in R.
    destruct (wined3d_buffer_load b c state) as [[p b1] c1] eqn:L.
    destruct (clean_draw p) eqn:Hp; [| discriminate R].
    destruct (counter_step _ _ _ _ _ _ L Hp) as (Dc & Cn).
    subst n. cbn [length]. rewrite Nat2Z.inj_succ.
    replace (k + Z.succ (Z.of_nat (length draws)))
      with ((k + 1) + Z.of_nat (length draws)) by lia.
    apply (IH b1 b' first (k + 1) R Hf ltac:(lia)).
    destruct Inv as [Z0 | (Dk & Hk')].
    + left. rewrite Cn, Z0. now destruct (_ >? _).
    + assert (u32 (draw_count b + 1) = first + (k + 1)) as E.
      { unfold u32. rewrite Z.mod_small; lia. }
      rewrite E in Dc.
      destruct (Z.gtb_spec (draw_count b1) limit) as [Gt | Le].
      * left. rewrite Cn. destruct (Z.gtb_spec (draw_count b1) limit); [auto | lia].
      * right. split; [exact Dc | right; lia].
Qed.

Lemma decay draws b b' :
  clean_draws draws b = Some b' ->
  0 <= draw_count b < 2 ^ 32 - 1 ->
  limit < Z.of_nat (length draws) ->
  counter b' = 0.
Proof.
  intros R Hd Hn.
  destruct (decay_invariant draws b b' (draw_count b) 0 R Hd ltac:(lia))
    as [Z0 | (_ & [E | Le])]; [right; split; [lia | now left] | exact Z0 | lia | lia].
Qed.

End Decay.

(** C4, as the code has it: the counters are reset by the draw that
    takes the draw count above the limit, so it takes 1001 consecutive
    clean draws to reset [decl_change_count] and 21 to reset
    [full_conversion_count], from any state whose draw count is not
    about to wrap around. *)
Theorem counters_decay draws b b' :
  clean_draws draws b = Some b' ->
  0 <= draw_count b < 2 ^ 32 - 1 ->
  ((1001 <= length draws)%nat -> decl_change_count b' = 0)
  /\ ((21 <= length draws)%nat -> full_conversion_count b' = 0).
Proof.
  intros R Hd. split; intros Hn.
  - apply (decay VB_RESETDECLCHANGE decl_change_count) with (draws := draws) (b := b);
      auto; unfold VB_RESETDECLCHANGE; try lia.
    intros b0 c0 s0 p0 b1 c1 L Hp.
    destruct (clean_draw_counters _ _ _ _ _ _ L Hp) as (H1 & H2 & _). auto.
  - apply (decay VB_RESETFULLCONVS full_conversion_count) with (draws := draws) (b := b);
      auto; unfold VB_RESETFULLCONVS; try lia.
    intros b0 c0 s0 p0 b1 c1 L Hp.
    destruct (clean_draw_counters _ _ _ _ _ _ L Hp) as (H1 & _ & H3). auto.
Qed.

Lemma counters_decay_witness :
  exists b',
    clean_draws (replicate 1001 (sample_context, Some sample_state))
      sample_counted_buffer = Some b'
    /\ decl_change_count b' = 0 /\ full_conversion_count b' = 0.
Proof.
  destruct (clean_draws (replicate 1001 (sample_context, Some sample_state))
              sample_counted_buffer) as [b' |] eqn:R.
  - exists b'. split; [reflexivity |].
    destruct (counters_decay _ _ _ R) as (H1 & H2).
    + vm_compute. split; congruence.
    + split; [apply H1 | apply H2]; rewrite length_replicate; lia.
  - vm_compute in R. discriminate R.
Defined.

(** The claim as stated fails: after 1000 clean draws of a buffer
    whose draw count starts at 0 the declaration changes are still
    counted, and after 20 the full conversions are. *)
Lemma counters_survive_the_limit :
  (exists b',
      clean_draws (replicate 1000 (sample_context, Some sample_state))
        sample_counted_buffer = Some b'
      /\ draw_count sample_counted_buffer = 0
      /\ draw_count b' = 1000 /\ decl_change_count b' = 1)
  /\ (exists b',
         clean_draws (replicate 20 (sample_context, Some sample_state))
           sample_counted_buffer = Some b'
         /\ draw_count b' = 20 /\ full_conversion_count b' = 1).
Proof.
  split.
  - destruct (clean_draws (replicate 1000 (sample_context, Some sample_state))
                sample_counted_buffer) as [b' |] eqn:R;
      vm_compute in R; [| discriminate R].
    exists b'. inversion R. repeat split.
  - destruct (clean_draws (replicate 20 (sample_context, Some sample_state))
                sample_counted_buffer) as [b' |] eqn:R;
      vm_compute in R; [| discriminate R].
    exists b'. inversion R. repeat split.
Qed.

End DrawClaims.

(** * The buffer object is given up for good *)

Section Cutoff.

Implicit Types (b : wined3d_buffer) (c : wined3d_context).

Lemma wined3d_buffer_load_kept b c state p b' c' :
  wined3d_buffer_load b c state = (p, b', c') -> kept b b'.
Proof.
  intros L. apply wined3d_buffer_load_exit in L.
  assert (forall b1 c1 b2,
            wined3d_buffer_prepare_location b c WINED3D_LOCATION_BUFFER
            = (true, b1, c1) ->
            declared b1 b2 -> kept b b2) as Hd.
  { intros b1 c1 b2 P D.
    apply wined3d_buffer_prepare_location_frame, frame_kept in P.
    apply declared_frame in D. destruct D as (_ & _ & _ & _ & D & _).
    eauto using kept_trans. }
  inversion L; subst; try apply kept_refl.
  - eapply frame_kept, wined3d_buffer_prepare_location_frame; eauto.
  - eapply kept_trans; [eapply Hd; eauto |]. unfold count_draw.
    branches; constructor; auto.
  - eapply kept_trans; [eapply Hd; eauto |].
    eapply kept_trans; [| eapply wined3d_buffer_drop_bo_kept; eauto].
    constructor; auto.
  - eapply kept_trans; [eapply Hd; eauto |].
    eapply kept_trans; [| eapply wined3d_buffer_load_location_kept; eauto].
    eapply kept_trans;
      [| eapply frame_kept, buffer_invalidate_bo_range_frame; eauto].
    constructor; auto.
  - eapply kept_trans; [eapply Hd; eauto |].
    eapply kept_trans; [| eapply wined3d_buffer_drop_bo_kept; eauto].
    constructor; auto.
  - eapply kept_trans; [eapply Hd; eauto |].
    eapply kept_trans; [| eapply wined3d_buffer_load_location_kept; eauto].
    constructor; auto.
  - eapply kept_trans; [eapply Hd; eauto |].
    eapply kept_trans; [| eapply wined3d_buffer_load_location_kept; eauto].
    unfold count_draw. branches; constructor; auto.
Qed.

(** Every operation keeps the description of the buffer. *)
Lemma run_op_kept op b c : kept b (fst (run_op op b c)).
Proof.
  destruct op; cbn [run_op].
  - apply frame_kept, wined3d_buffer_validate_location_frame.
  - destruct (wined3d_buffer_invalidate_location b c location) as [b' c'] eqn:E.
    eapply frame_kept, wined3d_buffer_invalidate_location_frame, E.
  - destruct (wined3d_buffer_load_location b c location) as [[ok b'] c'] eqn:E.
    eapply wined3d_buffer_load_location_kept, E.
  - destruct (wined3d_buffer_load_sysmem b c) as [[mem b'] c'] eqn:E.
    eapply wined3d_buffer_load_sysmem_kept, E.
  - destruct (wined3d_buffer_get_memory b c) as [[[l a] b'] c'] eqn:E.
    eapply wined3d_buffer_get_memory_kept, E.
  - destruct (wined3d_buffer_load b c state) as [[p b'] c'] eqn:E.
    eapply wined3d_buffer_load_kept, E.
  - unfold buffer_resource_preload.
    destruct (wined3d_buffer_load b c None) as [[p b'] c'] eqn:E.
    eapply wined3d_buffer_load_kept, E.
  - destruct (buffer_resource_unload b c) as [b' c'] eqn:E.
    eapply buffer_resource_unload_kept, E.
  - destruct (buffer_resource_sub_resource_map b c sub_resource_idx box flags_)
      as [[[hr p] b'] c'] eqn:E.
    eapply buffer_resource_sub_resource_map_kept, E.
  - destruct (buffer_resource_sub_resource_unmap b c sub_resource_idx)
      as [[hr b'] c'] eqn:E.
    eapply buffer_resource_sub_resource_unmap_kept, E.
  - destruct (wined3d_buffer_copy_bo_address b c dst_offset src_addr size_)
      as [b' c'] eqn:E.
    eapply wined3d_buffer_copy_bo_address_kept, E.
Qed.

Lemma run_ops_kept ops : forall b, kept b (run_ops ops b).
Proof.
  induction ops as [| [op c] ops IH]; intros b; cbn [run_ops].
  - apply kept_refl.
  - eapply kept_trans; [apply run_op_kept | apply IH].
Qed.

(** Once [WINED3D_BUFFER_USE_BO] is clear, no operation sets it. *)
Lemma run_ops_use_bo ops b : use_bo b = false -> use_bo (run_ops ops b) = false.
Proof.
  intros U. destruct (use_bo (run_ops ops b)) eqn:E; [| reflexivity].
  apply (kept_use_bo _ _ (run_ops_kept ops b)) in E. congruence.
Qed.

Lemma wined3d_buffer_prepare_location_buffer_ops b c b' c' :
  wined3d_buffer_prepare_location b c WINED3D_LOCATION_BUFFER = (true, b', c') ->
  buffer_ops b <> wined3d_buffer_no3d_ops.
Proof.
  unfold wined3d_buffer_prepare_location. intros P E. rewrite E in P.
  discriminate P.
Qed.

Lemma wined3d_buffer_unload_location_buffer_object b c b' c' :
  buffer_ops b <> wined3d_buffer_no3d_ops ->
  wined3d_buffer_unload_location b c WINED3D_LOCATION_BUFFER = (b', c') ->
  buffer_object b' = None.
Proof.
  unfold wined3d_buffer_unload_location, wined3d_buffer_gl_unload_location,
    wined3d_buffer_vk_unload_location, wined3d_buffer_gl_destroy_buffer_object.
  intros N. destruct (buffer_ops b); [contradiction | |]; cbn [Z.eqb Pos.eqb].
  - change (WINED3D_LOCATION_BUFFER =? WINED3D_LOCATION_BUFFER) with true.
    destruct (buffer_object b) eqn:Bo; intros [= <- <-]; auto.
  - change (WINED3D_LOCATION_BUFFER =? WINED3D_LOCATION_BUFFER) with true.
    now intros [= <- <-].
Qed.

(** Dropping the buffer object of an OpenGL or Vulkan buffer leaves
    none. *)
Lemma wined3d_buffer_drop_bo_buffer_object b c b' c' :
  buffer_ops b <> wined3d_buffer_no3d_ops ->
  wined3d_buffer_drop_bo b c = (b', c') -> buffer_object b' = None.
Proof.
  intros N. unfold wined3d_buffer_drop_bo, buffer_resource_unload.
  cbn [buffer_object set_flags].
  destruct (buffer_object b) eqn:Bo; [| now intros [= <- <-]].
  destruct (wined3d_buffer_load_location _ c _) as [[ok b1] c1] eqn:L.
  apply wined3d_buffer_load_location_kept in L.
  destruct (wined3d_buffer_invalidate_location b1 c1 _) as [b2 c2] eqn:I.
  apply wined3d_buffer_invalidate_location_frame in I.
  destruct (wined3d_buffer_unload_location b2 c2 _) as [b3 c3] eqn:U.
  apply wined3d_buffer_unload_location_buffer_object in U.
  - now intros [= <- <-].
  - rewrite (frame_ops _ _ I), (kept_ops _ _ L). exact N.
Qed.

(** C3: a load that sees the declaration change for the 101st time
    without a reset drops the buffer object and clears
    [WINED3D_BUFFER_USE_BO], and no later operation sets the flag
    again. *)
Theorem declaration_change_cutoff b c state p b1 c1 :
  wined3d_buffer_load b c state = (p, b1, c1) ->
  p = path_decl_changed \/ p = path_decl_changed_drop ->
  VB_MAXDECLCHANGES <= decl_change_count b < 2 ^ 32 - 1 ->
  p = path_decl_changed_drop
  /\ buffer_object b1 = None
  /\ use_bo b1 = false
  /\ forall ops, use_bo (run_ops ops b1) = false.
Proof.
  intros L Hp Hc. apply wined3d_buffer_load_exit in L.
  assert (forall b2 c2 b3,
            wined3d_buffer_prepare_location b c WINED3D_LOCATION_BUFFER
            = (true, b2, c2) ->
            declared b2 b3 ->
            decl_change_count (count_decl_change b3) > VB_MAXDECLCHANGES
            /\ buffer_ops (count_decl_change b3) <> wined3d_buffer_no3d_ops) as Hd.
  { intros b2 c2 b3 P D.
    pose proof (wined3d_buffer_prepare_location_buffer_ops _ _ _ _ P) as N.
    apply wined3d_buffer_prepare_location_frame in P.
    apply declared_frame in D. destruct D as (D1 & _ & _ & _ & D & _).
    cbn [count_decl_change decl_change_count set_draw_count set_decl_change_count
           buffer_ops].
    rewrite D1, (frame_decl_change_count _ _ P), (kept_ops _ _ D), (frame_ops _ _ P).
    split; [| exact N].
    unfold u32, VB_MAXDECLCHANGES in *. rewrite Z.mod_small; lia. }
  inversion L as [Mc Mp | U | b2 c2 U P | b2 c2 b3 U P D
                 | b2 c2 b3 b4 c4 U P D Cut Dr
                 | b2 c2 b3 b4 c4 ok b5 c5 U P D Cut I Ld
                 | b2 c2 b3 b4 c4 U P D Gt Dr | b2 c2 b3 ok b4 c4 U P D Le Ld
                 | b2 c2 b3 ok b4 c4 U P D Ld];
    subst; destruct Hp as [Hp | Hp]; try discriminate Hp.
  - destruct (Hd _ _ _ P D) as (_ & N).
    pose proof (wined3d_buffer_drop_bo_buffer_object _ _ _ _ N Dr) as Bo.
    apply wined3d_buffer_drop_bo_kept in Dr. destruct Dr as (_ & Ub).
    repeat split; auto. intros ops. now apply run_ops_use_bo.
  - exfalso. destruct (Hd _ _ _ P D) as (G & _).
    apply orb_false_iff in Cut. destruct Cut as (Cut & _).
    rewrite Z.gtb_ltb in Cut. apply Z.ltb_ge in Cut. lia.
Qed.

Lemma declaration_change_cutoff_witness :
  let '(p, b1, _) :=
    wined3d_buffer_load sample_changing_buffer sample_context (Some sample_state) in
  p = path_decl_changed_drop
  /\ buffer_object b1 = None
  /\ use_bo b1 = false
  /\ use_bo (run_ops
               [(op_map 0 (mk_box 0 4) (Z.lor WINED3D_MAP_WRITE WINED3D_MAP_DISCARD),
                 sample_context);
                (op_unmap 0, sample_context);
                (op_load (Some sample_state), sample_context);
                (op_load_location WINED3D_LOCATION_BUFFER, sample_context)] b1)
     = false.
Proof.
  destruct (wined3d_buffer_load sample_changing_buffer sample_context
              (Some sample_state)) as [[p b1] c1] eqn:L.
  destruct (declaration_change_cutoff _ _ _ _ _ _ L) as (H1 & H2 & H3 & H4).
  - vm_compute in L. inversion L. now right.
  - vm_compute. split; congruence.
  - repeat split; auto.
Defined.

End Cutoff.

(** * Streaming buffer *)

Section Streaming.

Implicit Types (b : wined3d_buffer) (c : wined3d_context).

(** A map without DISCARD does not fail. *)
Lemma buffer_resource_sub_resource_map_succeeds b c idx box flags_ :
  test flags_ WINED3D_MAP_DISCARD = false ->
  fst (fst (fst (buffer_resource_sub_resource_map b c idx box flags_))) = WINED3D_OK.
Proof.
  intros Nd.
  destruct (buffer_resource_sub_resource_map b c idx box flags_)
    as [[[hr p] b'] c'] eqn:M.
  apply buffer_resource_sub_resource_map_exit in M.
  inversion M; subst; try reflexivity. congruence.
Qed.

Lemma wined3d_buffer_init_data_frame b c d b' c' :
  wined3d_buffer_init_data b c d = (b', c') -> frame b b'.
Proof.
  unfold wined3d_buffer_init_data.
  destruct (test (flags b) WINED3D_BUFFER_USE_BO).
  - intros [= <- <-]. apply frame_refl.
  - intros I. apply wined3d_buffer_invalidate_location_frame in I.
    eapply frame_trans; [| exact I].
    eapply frame_trans; [| apply wined3d_buffer_validate_location_frame].
    destruct (heap_memory (resource b)); [frame_fields | apply frame_refl].
Qed.

Lemma wined3d_buffer_init_size b device desc data c ops hr b' c' :
  wined3d_buffer_init b device desc data c ops = (hr, b', c') ->
  hr = WINED3D_OK -> size (resource b') = byte_width desc.
Proof.
  unfold wined3d_buffer_init.
  destruct (byte_width desc =? 0); [intros [= <- <- <-]; discriminate |].
  destruct (_ && _); [intros [= <- <- <-]; discriminate |].
  destruct (match data with Some _ => _ | None => _ end);
    [intros [= <- <- <-]; discriminate |].
  cbv zeta.
  match goal with
  | |- context [if ?cond then prepare_sysmem ?b1 c else _] =>
      assert (size (resource b1) = byte_width desc) as Sz
        by (destruct (_ || _); reflexivity);
      destruct (if cond then prepare_sysmem b1 c else (true, b1, c))
        as [[ok b2] c2] eqn:Ps;
      assert (size (resource b2) = byte_width desc) as Sz2
  end.
  { destruct (_ || _) in Ps.
    - apply prepare_sysmem_frame in Ps. now rewrite (frame_size _ _ Ps).
    - now inversion Ps; subst. }
  destruct ok; cbn [negb]; [| intros [= <- <- <-]; discriminate].
  destruct (allocate c2) as [[] c3]; cbn [negb].
  - destruct data as [d |].
    + destruct (wined3d_buffer_init_data (set_maps_size 1 b2) c3 d) as [b3 c4] eqn:I.
      apply wined3d_buffer_init_data_frame in I.
      intros [= <- <- <-] _. now rewrite (frame_size _ _ I).
    + intros [= <- <- <-] _. exact Sz2.
  - destruct (buffer_resource_unload b2 c3). intros [= <- <- <-]. discriminate.
Qed.

Lemma wined3d_buffer_create_size device desc data c hr created c' :
  wined3d_buffer_create device desc data c = (hr, created, c') ->
  SUCCEEDED hr = true ->
  exists b, created = Some b /\ size (resource b) = byte_width desc.
Proof.
  unfold wined3d_buffer_create, wined3d_buffer_no3d_init, wined3d_buffer_gl_init,
    wined3d_buffer_vk_init.
  destruct (allocate c) as [[] c1]; cbn [negb]; [| intros [= <- <- <-]; discriminate].
  destruct (adapter_buffer_ops device).
  - destruct (wined3d_buffer_init _ device desc data c1 _) as [[hr1 b1] c2] eqn:I.
    destruct (SUCCEEDED hr1) eqn:S; intros [= <- <- <-] S'; [| congruence].
    exists b1. split; [reflexivity |].
    eapply wined3d_buffer_init_size; [exact I |]. now destruct hr1.
  - destruct (wined3d_buffer_init _ device desc data c1 _) as [[hr1 b1] c2] eqn:I.
    destruct (SUCCEEDED hr1) eqn:S; intros [= <- <- <-] S'; [| congruence].
    exists b1. split; [reflexivity |].
    eapply wined3d_buffer_init_size; [exact I |]. now destruct hr1.
  - destruct (_ && _); cbn [SUCCEEDED]; [intros [= <- <- <-]; discriminate |].
    destruct (wined3d_buffer_init _ device desc data c1 _) as [[hr1 b1] c2] eqn:I.
    destruct (SUCCEEDED hr1) eqn:S; intros [= <- <- <-] S'; [| congruence].
    exists b1. split; [reflexivity |].
    eapply wined3d_buffer_init_size; [exact I |]. now destruct hr1.
Qed.

Lemma wined3d_resource_map_size b c idx box flags_ hr p b' c' :
  wined3d_resource_map b c idx box flags_ = (hr, p, b', c') ->
  size (resource b') = size (resource b).
Proof.
  unfold wined3d_resource_map. intros M.
  apply buffer_resource_sub_resource_map_kept in M. apply M.
Qed.

(** The first map of 300000 bytes at stride 16 on a fresh streaming
    buffer: when the buffer can be created it has the minimum size, the
    map succeeds at position 0 with NOOVERWRITE and moves the cursor to
    300000; otherwise the call fails. *)
Lemma streaming_first_map device c bind :
  let '(r, sb, _) :=
    wined3d_streaming_buffer_map device c (mk_streaming_buffer None 0 bind)
      300000 16 in
  (map_hr r = WINED3D_OK ->
   ret_pos r = Some 0
   /\ map_flags_used r = Some (Z.lor WINED3D_MAP_WRITE WINED3D_MAP_NOOVERWRITE)
   /\ pos sb = 300000
   /\ exists b, buffer sb = Some b /\ size (resource b) = SB_MIN_SIZE)
  /\ map_hr r
     = fst (fst (wined3d_buffer_create device
                   (mk_desc SB_MIN_SIZE WINED3DUSAGE_DYNAMIC bind
                      (Z.lor WINED3D_RESOURCE_ACCESS_GPU WINED3D_RESOURCE_ACCESS_MAP_W)
                      0 0) None c)).
Proof.
  unfold wined3d_streaming_buffer_map, wined3d_streaming_buffer_prepare.
  cbn [buffer pos streaming_bind_flags].
  change (bool_decide (None <> None) && _) with false. cbv iota.
  change (Z.max SB_MIN_SIZE (Z.max (u32 (0 * 2)) 300000)) with SB_MIN_SIZE.
  destruct (wined3d_buffer_create device _ None c) as [[hr created] c0] eqn:Cr.
  cbn [fst].
  destruct (SUCCEEDED hr) eqn:S.
  - destruct (wined3d_buffer_create_size _ _ _ _ _ _ _ Cr S) as (b0 & -> & Sz).
    cbn [buffer pos streaming_bind_flags byte_width] in *. cbn [negb].
    rewrite Sz.
    change (u32 (0 + 300000 + _) >? SB_MIN_SIZE) with false. cbv iota.
    change (u32 (0 + (if negb (0 mod 16 =? 0) then u32 (16 - 0 mod 16) else 0 mod 16)))
      with 0.
    change (u32 (0 + 300000)) with 300000.
    pose proof (buffer_resource_sub_resource_map_succeeds b0
                  (log (call_resource_map 0 (mk_box 0 300000)
                          (Z.lor WINED3D_MAP_WRITE WINED3D_MAP_NOOVERWRITE)) c0)
                  0 (mk_box 0 300000)
                  (Z.lor WINED3D_MAP_WRITE WINED3D_MAP_NOOVERWRITE) eq_refl) as Ok.
    destruct (wined3d_resource_map b0 c0 0 _ _) as [[[hr2 p2] b2] c2] eqn:M.
    unfold wined3d_resource_map in M. rewrite M in Ok. cbn [fst] in Ok. subst hr2.
    apply buffer_resource_sub_resource_map_kept in M.
    rewrite S. cbn [negb SUCCEEDED map_hr ret_pos map_flags_used pos buffer].
    split; [| now destruct hr].
    intros _. repeat split. exists b2. split; [reflexivity |].
    now rewrite (kept_size _ _ M).
  - cbn [buffer]. cbn [map_hr]. split; [| reflexivity].
    intros ->. discriminate S.
Qed.

(** The second map of 300000 bytes does not fit behind the cursor: it
    is a DISCARD map at position 0. *)
Lemma streaming_second_map device c b bind :
  size (resource b) = SB_MIN_SIZE ->
  let '(r, sb, _) :=
    wined3d_streaming_buffer_map device c (mk_streaming_buffer (Some b) 300000 bind)
      300000 16 in
  map_flags_used r = Some (Z.lor WINED3D_MAP_WRITE WINED3D_MAP_DISCARD)
  /\ (map_hr r = WINED3D_OK -> ret_pos r = Some 0 /\ pos sb = 300000).
Proof.
  intros Sz.
  unfold wined3d_streaming_buffer_map, wined3d_streaming_buffer_prepare.
  cbn [buffer pos streaming_bind_flags]. rewrite Sz.
  change (bool_decide (Some b <> None) && (SB_MIN_SIZE >=? 300000)) with true.
  cbv iota. cbn [buffer pos streaming_bind_flags SUCCEEDED negb]. rewrite Sz.
  change (u32 (300000 + 300000 + _) >? SB_MIN_SIZE) with true. cbv iota.
  change (u32 (0 + 300000)) with 300000.
  destruct (wined3d_resource_map b c 0 _ _) as [[[hr2 p2] b2] c2].
  destruct (SUCCEEDED hr2) eqn:S; cbn [map_hr ret_pos map_flags_used pos];
    split; auto.
  intros ->. discriminate S.
Qed.

(** C8, as the code has it: on a fresh streaming buffer the first map
    of 300000 bytes at stride 16 returns position 0 with NOOVERWRITE,
    not DISCARD, since the bytes fit into the new buffer of 524288
    bytes; the second map does not fit behind the cursor, so it is a
    DISCARD map that returns position 0, and the cursor is 300000
    afterwards. *)
Theorem streaming_buffer_wrap device c1 c2 bind :
  let '(r1, sb1, _) :=
    wined3d_streaming_buffer_map device c1 (mk_streaming_buffer None 0 bind)
      300000 16 in
  map_hr r1 = WINED3D_OK ->
  SB_MIN_SIZE = 524288
  /\ ret_pos r1 = Some 0
  /\ map_flags_used r1 = Some (Z.lor WINED3D_MAP_WRITE WINED3D_MAP_NOOVERWRITE)
  /\ pos sb1 = 300000
  /\ (let '(r2, sb2, _) := wined3d_streaming_buffer_map device c2 sb1 300000 16 in
      map_flags_used r2 = Some (Z.lor WINED3D_MAP_WRITE WINED3D_MAP_DISCARD)
      /\ (map_hr r2 = WINED3D_OK -> ret_pos r2 = Some 0 /\ pos sb2 = 300000)).
Proof.
  pose proof (streaming_first_map device c1 bind) as H1.
  destruct (wined3d_streaming_buffer_map device c1 _ 300000 16) as [[r1 sb1] c1'] eqn:M1.
  destruct H1 as (H1 & _). intros Ok.
  destruct (H1 Ok) as (P1 & F1 & C1 & b1 & B1 & Sz).
  repeat split; auto.
  assert (streaming_bind_flags sb1 = bind) as Bf.
  { revert M1. unfold wined3d_streaming_buffer_map, wined3d_streaming_buffer_prepare.
    cbn [buffer pos streaming_bind_flags].
    repeat (branch; cbn [buffer pos streaming_bind_flags]);
      intros [= <- <- <-]; reflexivity. }
  destruct sb1 as [ob1 pos1 bind1]. cbn [buffer pos streaming_bind_flags] in *.
  subst. exact (streaming_second_map device c2 b1 bind Sz).
Qed.

Lemma streaming_buffer_wrap_witness :
  let '(r1, sb1, _) :=
    wined3d_streaming_buffer_map sample_device sample_context
      (mk_streaming_buffer None 0 WINED3D_BIND_VERTEX_BUFFER) 300000 16 in
  SB_MIN_SIZE = 524288
  /\ ret_pos r1 = Some 0
  /\ map_flags_used r1 = Some (Z.lor WINED3D_MAP_WRITE WINED3D_MAP_NOOVERWRITE)
  /\ pos sb1 = 300000
  /\ (let '(r2, sb2, _) :=
        wined3d_streaming_buffer_map sample_device sample_context sb1 300000 16 in
      map_flags_used r2 = Some (Z.lor WINED3D_MAP_WRITE WINED3D_MAP_DISCARD)
      /\ (map_hr r2 = WINED3D_OK -> ret_pos r2 = Some 0 /\ pos sb2 = 300000)).
Proof.
  pose proof (streaming_buffer_wrap sample_device sample_context sample_context
                WINED3D_BIND_VERTEX_BUFFER) as W.
  pose proof (streaming_first_map sample_device sample_context
                WINED3D_BIND_VERTEX_BUFFER) as F.
  destruct (wined3d_streaming_buffer_map sample_device sample_context _ 300000 16)
    as [[r1 sb1] c1'].
  apply W. destruct F as (_ & ->). vm_compute. reflexivity.
Defined.

(** The claim as stated fails: the first map is not a DISCARD map. *)
Lemma streaming_first_map_not_discard :
  let '(r1, _, _) :=
    wined3d_streaming_buffer_map sample_device sample_context
      (mk_streaming_buffer None 0 WINED3D_BIND_VERTEX_BUFFER) 300000 16 in
  map_hr r1 = WINED3D_OK
  /\ ret_pos r1 = Some 0
  /\ exists map_flags,
       map_flags_used r1 = Some map_flags
       /\ test map_flags WINED3D_MAP_DISCARD = false
       /\ test map_flags WINED3D_MAP_NOOVERWRITE = true.
Proof.
  pose proof (streaming_first_map sample_device sample_context
                WINED3D_BIND_VERTEX_BUFFER) as F.
  destruct (wined3d_streaming_buffer_map sample_device sample_context _ 300000 16)
    as [[r1 sb1] c1'].
  destruct F as (F & E).
  assert (map_hr r1 = WINED3D_OK) as Ok by (rewrite E; vm_compute; reflexivity).
  destruct (F Ok) as (P1 & F1 & _).
  repeat split; auto. eexists. split; [exact F1 |]. split; reflexivity.
Qed.

End Streaming.

(** * Further properties of the residency functions *)

Section LoadLocationMore.

Implicit Types (b : wined3d_buffer) (c : wined3d_context).

(** After the retry on an empty set of locations the buffer holds
    DISCARDED, and the load returns without a further call. *)
Lemma load_location_fuel_2_any b c location :
  load_location_fuel 2 b c location <> None.
Proof.
  destruct (Z.eq_dec (locations b) 0) as [E0 | N0];
    [| now apply load_location_fuel_2_total].
  change (wined3d_buffer_load_location_body (load_location_fuel 1) b c location <> None).
  unfold wined3d_buffer_load_location_body at 1.
  destruct (test (locations b) location); [discriminate |].
  rewrite E0. cbn [Z.eqb].
  pose proof (validate_discarded_locations b E0) as L.
  set (b0 := wined3d_buffer_validate_location b WINED3D_LOCATION_DISCARDED) in *.
  cbn [load_location_fuel]. unfold wined3d_buffer_load_location_body.
  destruct (test (locations b0) location); [discriminate |].
  rewrite L. cbn [Z.eqb WINED3D_LOCATION_DISCARDED].
  destruct (wined3d_buffer_prepare_location b0 c location) as [[ok b1] c1] eqn:P.
  apply wined3d_buffer_prepare_location_locations in P.
  destruct ok; cbn [negb]; [| discriminate].
  rewrite P, L. change (test WINED3D_LOCATION_DISCARDED WINED3D_LOCATION_DISCARDED)
    with true. cbv iota.
  destruct (wined3d_buffer_invalidate_location _ _ _). discriminate.
Qed.

(** X1.  The recursion of [wined3d_buffer_load_location] (into itself
    after validating DISCARDED on an empty set of locations, and through
    [buffer_conversion_upload] for the host memory) ends within two
    nested calls: with a budget of two or more calls the bounded function
    returns, and its result is that of the total function.  One call is
    not always enough. *)
Theorem load_location_terminates n b c location :
  (2 <= n)%nat ->
  load_location_fuel n b c location
  = Some (wined3d_buffer_load_location b c location)
  /\ load_location_fuel 1 (set_locations 0 b) c location = None.
Proof.
  intros H. split.
  - pose proof (load_location_fuel_2_any b c location) as T.
    destruct (load_location_fuel 2 b c location) as [r |] eqn:E2; [clear T | congruence].
    assert (wined3d_buffer_load_location b c location = r) as ->.
    { unfold wined3d_buffer_load_location.
      now rewrite (load_location_fuel_mono 2 b c location r E2). }
    induction H as [| n H IH]; [exact E2 |].
    now apply load_location_fuel_mono.
  - cbn [load_location_fuel]. unfold wined3d_buffer_load_location_body.
    now destruct location.
Qed.

Lemma load_location_terminates_witness :
  load_location_fuel 7 sample_color_buffer sample_context WINED3D_LOCATION_BUFFER
  = Some (wined3d_buffer_load_location sample_color_buffer sample_context
            WINED3D_LOCATION_BUFFER)
  /\ load_location_fuel 1 (set_locations 0 sample_color_buffer) sample_context
       WINED3D_LOCATION_BUFFER = None.
Proof.
  apply (load_location_terminates 7 sample_color_buffer sample_context
           WINED3D_LOCATION_BUFFER).
  lia.
Defined.

(** X2.  A load that reports success leaves the requested location valid.
    It can only succeed for a location that was valid already, for
    WINED3D_LOCATION_SYSMEM or WINED3D_LOCATION_BUFFER, or, on a buffer
    without any valid location, for a location holding the DISCARDED bit
    (which the retry has just validated). *)
Theorem load_location_success b c location ok b' c' :
  wined3d_buffer_load_location b c location = (ok, b', c') ->
  ok = true ->
  test (locations b') location = true
  /\ (test (locations b) location = true
      \/ location = WINED3D_LOCATION_SYSMEM
      \/ location = WINED3D_LOCATION_BUFFER
      \/ locations b = 0 /\ test location WINED3D_LOCATION_DISCARDED = true).
Proof.
  intros L Hok. split; [exact (wined3d_buffer_load_location_valid _ _ _ _ _ _ L Hok) |].
  assert (fst (fst (wined3d_buffer_load_location b c location)) = true) as H
    by now rewrite L.
  clear L Hok. revert H.
  apply (load_location_induction
           (fun b _ l r =>
              fst (fst r) = true ->
              test (locations b) l = true
              \/ l = WINED3D_LOCATION_SYSMEM
              \/ l = WINED3D_LOCATION_BUFFER
              \/ locations b = 0 /\ test l WINED3D_LOCATION_DISCARDED = true)).
  clear. intros f IH b c l r H. apply load_location_body_exit in H.
  destruct H as [V | r V E0 F | b1 c1 V N0 P | b1 c1 b2 c2 V N0 P D I
                | b1 c1 V N0 P D Ls Cl | b1 c1 b2 c2 V N0 P D Ls Cl Cp
                | b1 c1 b2 c2 V N0 P D Lb St | b1 c1 b2 c2 b3 c3 V N0 P D Lb St Cm Cp
                | b1 c1 b2 c2 b3 c3 V N0 P D Lb St Cm U | b1 c1 V N0 P D Ls Lb];
    cbn [fst snd]; intros Hok; try discriminate; auto.
  - apply IH in F; [| exact Hok]. destruct F as [T | [-> | [-> | [E _]]]]; auto.
    + rewrite validate_discarded_locations in T by exact E0.
      do 3 right. split; [exact E0 |].
      unfold test in *. now rewrite Z.land_comm.
    + rewrite validate_discarded_locations in E by exact E0. discriminate.
  - apply wined3d_buffer_prepare_location_ok in P. tauto.
Qed.

Lemma load_location_success_witness :
  test
    (locations
       (snd (fst (wined3d_buffer_load_location sample_buffer sample_context
                    WINED3D_LOCATION_SYSMEM))))
    WINED3D_LOCATION_SYSMEM = true
  /\ (test (locations sample_buffer) WINED3D_LOCATION_SYSMEM = true
      \/ WINED3D_LOCATION_SYSMEM = WINED3D_LOCATION_SYSMEM
      \/ WINED3D_LOCATION_SYSMEM = WINED3D_LOCATION_BUFFER
      \/ locations sample_buffer = 0
         /\ test WINED3D_LOCATION_SYSMEM WINED3D_LOCATION_DISCARDED = true).
Proof.
  apply (load_location_success sample_buffer sample_context WINED3D_LOCATION_SYSMEM
           true _
           (snd (wined3d_buffer_load_location sample_buffer sample_context
                   WINED3D_LOCATION_SYSMEM)));
    reflexivity.
Defined.

(** X3.  Loading a location, whatever the outcome, leaves the
    description and the bookkeeping of the buffer alone: size, usage,
    table of operations, map count and mapped address, the three counters
    of the per-draw heuristic, the stride and the conversion map. *)
Theorem load_location_keeps_bookkeeping b c location :
  let b' := snd (fst (wined3d_buffer_load_location b c location)) in
  size (resource b') = size (resource b)
  /\ usage (resource b') = usage (resource b)
  /\ buffer_ops b' = buffer_ops b
  /\ map_count (resource b') = map_count (resource b)
  /\ map_ptr b' = map_ptr b
  /\ decl_change_count b' = decl_change_count b
  /\ full_conversion_count b' = full_conversion_count b
  /\ draw_count b' = draw_count b
  /\ stride b' = stride b
  /\ conversion_map b' = conversion_map b.
Proof.
  intros b'. pose proof (wined3d_buffer_load_location_frame b c location) as F.
  fold b' in F. repeat split; apply F.
Qed.

Lemma load_location_finish_buffer_maps b c ok b' c' :
  load_location_finish b c WINED3D_LOCATION_BUFFER = (ok, b', c') -> maps b' = [].
Proof.
  unfold load_location_finish.
  destruct (_ && _).
  - destruct (wined3d_buffer_evict_sysmem _ c) as [b1 c1] eqn:Ev.
    intros [= _ <- _]. unfold wined3d_buffer_evict_sysmem in Ev.
    destruct (pin_sysmem _); [now inversion Ev |].
    destruct (wined3d_buffer_invalidate_location _ c _) as [b2 c2] eqn:I.
    inversion Ev; subst. cbn.
    now apply wined3d_buffer_invalidate_range_maps in I.
  - now intros [= _ <- _].
Qed.

(** X4.  Loading WINED3D_LOCATION_SYSMEM never changes the set of dirty
    ranges, and a successful load of WINED3D_LOCATION_BUFFER that has
    work to do (the location was not valid) leaves no dirty range. *)
Theorem load_location_dirty_ranges b c location ok b' c' :
  wined3d_buffer_load_location b c location = (ok, b', c') ->
  (location = WINED3D_LOCATION_SYSMEM -> maps b' = maps b)
  /\ (location = WINED3D_LOCATION_BUFFER ->
      test (locations b) WINED3D_LOCATION_BUFFER = false ->
      ok = true -> maps b' = []).
Proof.
  intros L. split.
  { intros ->. exact (wined3d_buffer_load_location_sysmem_maps _ _ _ _ _ L). }
  intros -> V Hok.
  assert (fst (fst (wined3d_buffer_load_location b c WINED3D_LOCATION_BUFFER)) = true)
    as H by now rewrite L.
  replace b' with (snd (fst (wined3d_buffer_load_location b c WINED3D_LOCATION_BUFFER)))
    by now rewrite L.
  clear L Hok. revert V H.
  apply (load_location_induction
           (fun b _ l r =>
              l = WINED3D_LOCATION_BUFFER ->
              test (locations b) WINED3D_LOCATION_BUFFER = false ->
              fst (fst r) = true -> maps (snd (fst r)) = [])); [| reflexivity].
  clear. intros f IH b c l r H El. subst l. apply load_location_body_exit in H.
  assert (forall b0 c0,
            maps (snd (fst (load_location_finish b0 c0 WINED3D_LOCATION_BUFFER))) = [])
    as Hfin.
  { intros b0 c0.
    destruct (load_location_finish b0 c0 WINED3D_LOCATION_BUFFER) as [[ok1 b1] c1] eqn:Fi.
    exact (load_location_finish_buffer_maps _ _ _ _ _ Fi). }
  destruct H as [V | r V E0 F | b1 c1 V N0 P | b1 c1 b2 c2 V N0 P D I
                | b1 c1 V N0 P D Ls Cl | b1 c1 b2 c2 V N0 P D Ls Cl Cp
                | b1 c1 b2 c2 V N0 P D Lb St | b1 c1 b2 c2 b3 c3 V N0 P D Lb St Cm Cp
                | b1 c1 b2 c2 b3 c3 V N0 P D Lb St Cm U | b1 c1 V N0 P D Ls Lb];
    cbn [fst snd]; intros V' Hok; try discriminate; try congruence; auto.
  - apply (IH _ _ _ _ F); auto.
    now rewrite validate_discarded_locations by exact E0.
  - apply wined3d_buffer_invalidate_range_maps in I; [| reflexivity].
    rewrite I. reflexivity.
Qed.

Lemma load_location_dirty_ranges_witness :
  let b' :=
    snd (fst (wined3d_buffer_load_location sample_color_buffer sample_context
                WINED3D_LOCATION_BUFFER)) in
  (WINED3D_LOCATION_BUFFER = WINED3D_LOCATION_SYSMEM ->
   maps b' = maps sample_color_buffer)
  /\ (WINED3D_LOCATION_BUFFER = WINED3D_LOCATION_BUFFER ->
      test (locations sample_color_buffer) WINED3D_LOCATION_BUFFER = false ->
      true = true -> maps b' = []).
Proof.
  apply (load_location_dirty_ranges sample_color_buffer sample_context
           WINED3D_LOCATION_BUFFER true _
           (snd (wined3d_buffer_load_location sample_color_buffer sample_context
                   WINED3D_LOCATION_BUFFER))).
  reflexivity.
Defined.

End LoadLocationMore.

(** * Preparing storage *)

Section PrepareLocation.

Implicit Types (b : wined3d_buffer) (c : wined3d_context).

Lemma prepare_sysmem_heap_memory b c b' c' :
  prepare_sysmem b c = (true, b', c') ->
  heap_memory (resource b') <> None
  /\ (heap_memory (resource b) <> None -> b' = b /\ c' = c).
Proof.
  unfold prepare_sysmem, wined3d_resource_prepare_sysmem.
  destruct (heap_memory (resource b)) eqn:H.
  - intros [= <- <-]. cbn. rewrite H. split; [discriminate |].
    intros _. split; [now destruct b |reflexivity].
  - destruct (allocate c) as [[] c1]; intros [= <- <-]; cbn.
    split; [discriminate | contradiction].
Qed.

(** X5.  When [wined3d_buffer_prepare_location] succeeds, the storage of
    the location exists: host memory for WINED3D_LOCATION_SYSMEM, a buffer
    object for WINED3D_LOCATION_BUFFER (never on the backend without 3D).
    No other location can be prepared.  The set of valid locations is not
    changed, and a buffer object created by the call starts with the whole
    buffer dirty. *)
Theorem prepare_location_provides_storage b c location b' c' :
  wined3d_buffer_prepare_location b c location = (true, b', c') ->
  locations b' = locations b
  /\ (location = WINED3D_LOCATION_SYSMEM /\ heap_memory (resource b') <> None
      \/ location = WINED3D_LOCATION_BUFFER
         /\ buffer_object b' <> None
         /\ buffer_ops b <> wined3d_buffer_no3d_ops
         /\ (buffer_object b = None -> maps b' = [mk_range 0 (size (resource b))])).
Proof.
  intros P. split; [exact (wined3d_buffer_prepare_location_locations _ _ _ _ _ _ P) |].
  revert P. unfold wined3d_buffer_prepare_location.
  set (c0 := log _ c). clearbody c0.
  assert (forall b1 c1,
            buffer_invalidate_bo_range b1 c1 0 0 = (invalidate_all b1, c1)) as W.
  { intros. apply buffer_invalidate_bo_range_whole. now left. }
  destruct (buffer_ops b) eqn:Ops;
    unfold wined3d_buffer_no3d_prepare_location, wined3d_buffer_gl_prepare_location,
      wined3d_buffer_vk_prepare_location;
    (destruct (location =? WINED3D_LOCATION_SYSMEM) eqn:Es;
     [apply Z.eqb_eq in Es; intros P; left; split;
      [exact Es | exact (proj1 (prepare_sysmem_heap_memory _ _ _ _ P))] |]);
    try discriminate;
    (destruct (location =? WINED3D_LOCATION_BUFFER) eqn:Eb; [| discriminate]);
    apply Z.eqb_eq in Eb; right; (split; [exact Eb |]);
    destruct (buffer_object b) eqn:Bo.
  - inversion P; subst. rewrite Bo. repeat split; congruence.
  - revert P. destruct (negb (test (flags b) WINED3D_BUFFER_USE_BO)); [discriminate |].
    unfold wined3d_buffer_gl_create_buffer_object.
    destruct (allocate c0) as [[] c1]; cbn [negb]; [| discriminate].
    destruct (allocate (log _ c1)) as [[] c2]; cbn [negb]; [| discriminate].
    rewrite W. intros [= <- <-]. cbn. repeat split; congruence.
  - inversion P; subst. rewrite Bo. repeat split; congruence.
  - revert P. unfold wined3d_buffer_vk_create_buffer_object.
    destruct (allocate c0) as [[] c1]; cbn [negb]; [| discriminate].
    destruct (allocate (log _ c1)) as [[] c2]; cbn [negb]; [| discriminate].
    rewrite W. intros [= <- <-]. cbn. repeat split; congruence.
Qed.

Lemma prepare_location_provides_storage_witness :
  let b' :=
    snd (fst (wined3d_buffer_prepare_location sample_buffer sample_context
                WINED3D_LOCATION_BUFFER)) in
  locations b' = locations sample_buffer
  /\ (WINED3D_LOCATION_BUFFER = WINED3D_LOCATION_SYSMEM
      /\ heap_memory (resource b') <> None
      \/ WINED3D_LOCATION_BUFFER = WINED3D_LOCATION_BUFFER
         /\ buffer_object b' <> None
         /\ buffer_ops sample_buffer <> wined3d_buffer_no3d_ops
         /\ (buffer_object sample_buffer = None ->
             maps b' = [mk_range 0 (size (resource sample_buffer))])).
Proof.
  apply (prepare_location_provides_storage sample_buffer sample_context
           WINED3D_LOCATION_BUFFER _
           (snd (wined3d_buffer_prepare_location sample_buffer sample_context
                   WINED3D_LOCATION_BUFFER))).
  reflexivity.
Defined.

(** X6.  Preparing a location is idempotent: once a call has succeeded,
    preparing the same location again succeeds without allocating and
    without changing the buffer. *)
Theorem prepare_location_idempotent b c location b' c' c2 :
  wined3d_buffer_prepare_location b c location = (true, b', c') ->
  wined3d_buffer_prepare_location b' c2 location
  = (true, b', log (call_prepare_location location) c2).
Proof.
  intros P.
  pose proof (wined3d_buffer_prepare_location_frame _ _ _ _ _ _ P) as F.
  pose proof (frame_ops _ _ F) as Ops.
  assert (location = WINED3D_LOCATION_SYSMEM /\ heap_memory (resource b') <> None
          \/ location = WINED3D_LOCATION_BUFFER /\ buffer_object b' <> None
             /\ buffer_ops b <> wined3d_buffer_no3d_ops) as S.
  { revert P. unfold wined3d_buffer_prepare_location.
    set (c0 := log _ c). clearbody c0.
    destruct (buffer_ops b);
      unfold wined3d_buffer_no3d_prepare_location, wined3d_buffer_gl_prepare_location,
        wined3d_buffer_vk_prepare_location;
      (destruct (location =? WINED3D_LOCATION_SYSMEM) eqn:Es;
       [apply Z.eqb_eq in Es; intros P; left; split;
        [exact Es | exact (proj1 (prepare_sysmem_heap_memory _ _ _ _ P))] |]);
      try discriminate;
      (destruct (location =? WINED3D_LOCATION_BUFFER) eqn:Eb; [| discriminate]);
      apply Z.eqb_eq in Eb; right; (split; [exact Eb |]);
      (split; [| discriminate]);
      destruct (buffer_object b) eqn:Bo.
    - inversion P; subst. congruence.
    - revert P.
      destruct (negb (test (flags b) WINED3D_BUFFER_USE_BO)); [discriminate |].
      unfold wined3d_buffer_gl_create_buffer_object.
      destruct (allocate c0) as [[] c1]; cbn [negb]; [| discriminate].
      destruct (allocate (log _ c1)) as [[] c3]; cbn [negb]; [| discriminate].
      rewrite buffer_invalidate_bo_range_whole by now left.
      intros [= <- _]. discriminate.
    - inversion P; subst. congruence.
    - revert P. unfold wined3d_buffer_vk_create_buffer_object.
      destruct (allocate c0) as [[] c1]; cbn [negb]; [| discriminate].
      destruct (allocate (log _ c1)) as [[] c3]; cbn [negb]; [| discriminate].
      rewrite buffer_invalidate_bo_range_whole by now left.
      intros [= <- _]. discriminate. }
  clear P F. unfold wined3d_buffer_prepare_location. rewrite Ops.
  set (c0 := log _ c2). clearbody c0.
  destruct S as [[-> H] | (-> & H & N)].
  - assert (prepare_sysmem b' c0 = (true, b', c0)) as E.
    { unfold prepare_sysmem, wined3d_resource_prepare_sysmem.
      destruct (heap_memory (resource b')) eqn:Hm; [| contradiction].
      now destruct b'. }
    destruct (buffer_ops b); exact E.
  - destruct (buffer_ops b); [contradiction | |];
      unfold wined3d_buffer_gl_prepare_location, wined3d_buffer_vk_prepare_location;
      cbn [Z.eqb WINED3D_LOCATION_SYSMEM WINED3D_LOCATION_BUFFER Pos.eqb];
      now destruct (buffer_object b').
Qed.

Lemma prepare_location_idempotent_witness :
  let r :=
    wined3d_buffer_prepare_location sample_buffer sample_context
      WINED3D_LOCATION_BUFFER in
  wined3d_buffer_prepare_location (snd (fst r)) (snd r) WINED3D_LOCATION_BUFFER
  = (true, snd (fst r), log (call_prepare_location WINED3D_LOCATION_BUFFER) (snd r)).
Proof.
  apply (prepare_location_idempotent sample_buffer sample_context
           WINED3D_LOCATION_BUFFER _
           (snd (wined3d_buffer_prepare_location sample_buffer sample_context
                   WINED3D_LOCATION_BUFFER))).
  reflexivity.
Defined.

End PrepareLocation.

(** * Addresses of the buffer's memory *)

Section GetMemory.

Implicit Types (b : wined3d_buffer) (c : wined3d_context).

Lemma test_land_pow2 (x n : Z) :
  0 <= n -> test x (2 ^ n) = true -> Z.land x (2 ^ n) = 2 ^ n.
Proof.
  intros Hn T. rewrite test_pow2 in T by exact Hn.
  apply Z.bits_inj'. intros m Hm. rewrite Z.land_spec, Z.pow2_bits_eqb by exact Hn.
  destruct (Z.eqb_spec n m) as [<- |]; [now rewrite T | apply andb_false_r].
Qed.

Lemma wined3d_buffer_get_memory_valid b c location a b' c' :
  wined3d_buffer_get_memory b c = (location, a, b', c') ->
  location = WINED3D_LOCATION_BUFFER
  /\ test (locations b') WINED3D_LOCATION_BUFFER = true
  \/ location = WINED3D_LOCATION_SYSMEM
     /\ test (locations b') WINED3D_LOCATION_SYSMEM = true
  \/ location = 0.
Proof.
  unfold wined3d_buffer_get_memory.
  destruct (test (locations b) _).
  - destruct (wined3d_buffer_load_location b c _) as [[ok b1] c1] eqn:L.
    destruct ok; cbn [negb]; [| intros [= <- _ _ _]; auto].
    pose proof (wined3d_buffer_load_location_valid _ _ _ _ _ _ L eq_refl) as V.
    destruct (test (flags b) WINED3D_BUFFER_USE_BO).
    + change (test WINED3D_LOCATION_BUFFER WINED3D_LOCATION_BUFFER) with true.
      cbv iota. intros [= <- _ <- _]. auto.
    + change (test WINED3D_LOCATION_SYSMEM WINED3D_LOCATION_BUFFER) with false.
      change (test WINED3D_LOCATION_SYSMEM WINED3D_LOCATION_SYSMEM) with true.
      cbv iota. intros [= <- _ <- _]. auto.
  - cbn [negb].
    destruct (test (locations b) WINED3D_LOCATION_BUFFER) eqn:Tb;
      [intros [= <- _ <- _]; auto |].
    destruct (test (locations b) WINED3D_LOCATION_SYSMEM) eqn:Ts;
      intros [= <- _ <- _]; auto.
Qed.

(** X7.  [wined3d_buffer_get_memory] returns WINED3D_LOCATION_BUFFER with
    the address of the buffer object, WINED3D_LOCATION_SYSMEM with the
    address of the host memory, or 0 with a null address; a location it
    returns is valid in the buffer afterwards.  A valid buffer object is
    preferred to the host memory, and a buffer that is neither discarded
    nor cleared is not touched. *)
Theorem get_memory_location b c location a b' c' :
  wined3d_buffer_get_memory b c = (location, a, b', c') ->
  (location = WINED3D_LOCATION_BUFFER /\ a = mk_address storage_bo 0
   /\ test (locations b') WINED3D_LOCATION_BUFFER = true
   \/ location = WINED3D_LOCATION_SYSMEM /\ a = mk_address storage_heap 0
      /\ test (locations b') WINED3D_LOCATION_SYSMEM = true
   \/ location = 0 /\ a = mk_address storage_null 0)
  /\ (test (locations b)
        (Z.lor WINED3D_LOCATION_DISCARDED WINED3D_LOCATION_CLEARED) = false ->
      b' = b /\ c' = c
      /\ (test (locations b) WINED3D_LOCATION_BUFFER = true ->
          location = WINED3D_LOCATION_BUFFER)).
Proof.
  unfold wined3d_buffer_get_memory.
  destruct (test (locations b) (Z.lor _ _)) eqn:T.
  - destruct (wined3d_buffer_load_location b c _) as [[ok b1] c1] eqn:L.
    intros G. split; [| discriminate]. revert G.
    destruct ok; cbn [negb]; [| intros [= <- <- _ _]; auto].
    pose proof (wined3d_buffer_load_location_valid _ _ _ _ _ _ L eq_refl) as V.
    destruct (test (flags b) WINED3D_BUFFER_USE_BO).
    + change (test WINED3D_LOCATION_BUFFER WINED3D_LOCATION_BUFFER) with true.
      cbv iota. intros [= <- <- <- _]. auto.
    + change (test WINED3D_LOCATION_SYSMEM WINED3D_LOCATION_BUFFER) with false.
      change (test WINED3D_LOCATION_SYSMEM WINED3D_LOCATION_SYSMEM) with true.
      cbv iota. intros [= <- <- <- _]. auto.
  - cbn [negb].
    destruct (test (locations b) WINED3D_LOCATION_BUFFER) eqn:Tb.
    { intros [= <- <- <- <-]. auto 10. }
    destruct (test (locations b) WINED3D_LOCATION_SYSMEM) eqn:Ts;
      intros [= <- <- <- <-]; split; auto 10; intros _; repeat split; discriminate.
Qed.

Lemma get_memory_location_witness :
  let r := wined3d_buffer_get_memory sample_buffer sample_context in
  let location := fst (fst (fst r)) in
  let a := snd (fst (fst r)) in
  let b' := snd (fst r) in
  (location = WINED3D_LOCATION_BUFFER /\ a = mk_address storage_bo 0
   /\ test (locations b') WINED3D_LOCATION_BUFFER = true
   \/ location = WINED3D_LOCATION_SYSMEM /\ a = mk_address storage_heap 0
      /\ test (locations b') WINED3D_LOCATION_SYSMEM = true
   \/ location = 0 /\ a = mk_address storage_null 0)
  /\ (test (locations sample_buffer)
        (Z.lor WINED3D_LOCATION_DISCARDED WINED3D_LOCATION_CLEARED) = false ->
      b' = sample_buffer /\ snd r = sample_context
      /\ (test (locations sample_buffer) WINED3D_LOCATION_BUFFER = true ->
          location = WINED3D_LOCATION_BUFFER)).
Proof.
  intros r location a b'.
  apply (get_memory_location sample_buffer sample_context location a b' (snd r)).
  vm_compute. reflexivity.
Defined.

(** X8.  After [wined3d_buffer_copy_bo_address] the only valid location
    of the destination is the one the data was written to, the location
    that [wined3d_buffer_get_memory] returned; when no memory could be
    obtained (it returned 0) no location is valid. *)
Theorem copy_bo_address_locations b c dst_offset src_addr size_ b' c' :
  wined3d_buffer_copy_bo_address b c dst_offset src_addr size_ = (b', c') ->
  locations b' = fst (fst (fst (wined3d_buffer_get_memory b c))).
Proof.
  unfold wined3d_buffer_copy_bo_address.
  destruct (wined3d_buffer_get_memory b c) as [[[l a] b1] c1] eqn:G.
  apply wined3d_buffer_get_memory_valid in G.
  destruct (wined3d_context_copy_bo_address c1 b1 _ _ _ _) as [b2 c2] eqn:Cp.
  apply wined3d_context_copy_bo_address_frame in Cp. destruct Cp as (_ & Lc & _).
  intros I. apply wined3d_buffer_invalidate_range_locations in I.
  rewrite I, Lc. cbn [fst].
  destruct G as [[-> V] | [[-> V] | ->]].
  - exact (test_land_pow2 _ 3 ltac:(lia) V).
  - exact (test_land_pow2 _ 1 ltac:(lia) V).
  - change (not32 (not32 0)) with 0. apply Z.land_0_r.
Qed.

Lemma copy_bo_address_locations_witness :
  locations
    (fst (wined3d_buffer_copy_bo_address sample_buffer sample_context 0
            (mk_address (storage_data [1; 2; 3; 4]) 0) 4))
  = fst (fst (fst (wined3d_buffer_get_memory sample_buffer sample_context))).
Proof.
  apply (copy_bo_address_locations sample_buffer sample_context 0
           (mk_address (storage_data [1; 2; 3; 4]) 0) 4
           (fst (wined3d_buffer_copy_bo_address sample_buffer sample_context 0
                   (mk_address (storage_data [1; 2; 3; 4]) 0) 4))
           (snd (wined3d_buffer_copy_bo_address sample_buffer sample_context 0
                   (mk_address (storage_data [1; 2; 3; 4]) 0) 4))).
  vm_compute. reflexivity.
Defined.

End GetMemory.

(** * Map and unmap *)

Section MapMore.

Implicit Types (b : wined3d_buffer) (c : wined3d_context).

(** X9.  [buffer_resource_sub_resource_map] counts the map on every
    path: whatever the flags and the outcome, failure included, the map
    count is one more than before.  The unmap of sub-resource 0 that
    follows restores the count.  When this brings the count back to zero
    the buffer is no longer mapped through its buffer object, and the
    dirty ranges recorded for such a mapping have been handed over and
    cleared. *)
Theorem map_unmap_round_trip b c idx box flags_ :
  0 <= map_count (resource b) < 2 ^ 31 - 1 ->
  let '(_, _, b1, c1) := buffer_resource_sub_resource_map b c idx box flags_ in
  let '(hr, b2, _) := buffer_resource_sub_resource_unmap b1 c1 0 in
  map_count (resource b1) = map_count (resource b) + 1
  /\ hr = WINED3D_OK
  /\ map_count (resource b2) = map_count (resource b)
  /\ (map_count (resource b) = 0 ->
      map_ptr b2 = 0 /\ (map_ptr b1 <> 0 -> maps b2 = [])).
Proof.
  intros Hn. pose proof (buffer_resource_sub_resource_map_count b c idx box flags_) as E.
  destruct (buffer_resource_sub_resource_map b c idx box flags_)
    as [[[hr p] b1] c1]. cbn [fst snd] in E.
  rewrite s32_small in E by lia.
  unfold buffer_resource_sub_resource_unmap. cbn [Z.eqb negb].
  destruct (Z.eqb_spec (map_count (resource b1)) 0) as [Z0 | _]; [lia |].
  cbn [resource set_resource map_count set_map_count].
  rewrite E. replace (map_count (resource b) + 1 - 1) with (map_count (resource b))
    by lia.
  rewrite s32_small by lia.
  destruct (Z.eqb_spec (map_count (resource b)) 0) as [Z0 | N0]; cbn [negb].
  - cbn [map_ptr set_resource].
    destruct (Z.eqb_spec (map_ptr b1) 0) as [P0 | P0]; cbn; repeat split; auto.
    contradiction.
  - cbn. repeat split; auto; contradiction.
Qed.

Lemma map_unmap_round_trip_witness :
  let '(_, _, b1, c1) :=
    buffer_resource_sub_resource_map sample_buffer sample_context 0 (mk_box 0 16)
      (Z.lor WINED3D_MAP_WRITE WINED3D_MAP_DISCARD) in
  let '(hr, b2, _) := buffer_resource_sub_resource_unmap b1 c1 0 in
  map_count (resource b1) = map_count (resource sample_buffer) + 1
  /\ hr = WINED3D_OK
  /\ map_count (resource b2) = map_count (resource sample_buffer)
  /\ (map_count (resource sample_buffer) = 0 ->
      map_ptr b2 = 0 /\ (map_ptr b1 <> 0 -> maps b2 = [])).
Proof.
  apply (map_unmap_round_trip sample_buffer sample_context 0 (mk_box 0 16)
           (Z.lor WINED3D_MAP_WRITE WINED3D_MAP_DISCARD)).
  vm_compute. split; congruence.
Defined.



(** X12.  A map for writing that goes through the host memory (neither
    NOOVERWRITE nor DISCARD, or pinned host memory, or no buffer object
    in use) succeeds and leaves the host memory as the only location that
    can be valid: every other location is invalidated.  It does not
    establish a mapping of the buffer object. *)
Theorem map_write_through_sysmem b c idx box flags_ hr p b' c' :
  buffer_resource_sub_resource_map b c idx box flags_ = (hr, p, b', c') ->
  map_through_sysmem b flags_ = true ->
  test flags_ WINED3D_MAP_WRITE = true ->
  hr = WINED3D_OK
  /\ (locations b' = WINED3D_LOCATION_SYSMEM \/ locations b' = 0)
  /\ map_ptr b' = map_ptr b.
Proof.
  intros M Fast Wr. apply buffer_resource_sub_resource_map_exit in M.
  inversion M as [b1 c1 b2 c2 _ S1 S2 | b1 c1 Slow _ _
                 | b1 c1 b2 c2 b3 c3 b4 c4 Slow _ _ _ _]; subst;
    try congruence.
  split; [reflexivity |].
  pose proof (map_sysmem_stage_frame _ _ _ _ S1) as F1.
  pose proof (map_invalidate_stage_frame _ _ _ _ _ _ _ S2) as F2.
  rewrite Wr in S2. apply wined3d_buffer_invalidate_range_locations in S2.
  split.
  - rewrite S2. change (not32 (not32 WINED3D_LOCATION_SYSMEM)) with (2 ^ 1).
    destruct (test (locations b1) (2 ^ 1)) eqn:T.
    + left. now apply test_land_pow2.
    + right. now apply test_false.
  - rewrite (frame_map_ptr _ _ F2). apply (frame_map_ptr _ _ F1).
Qed.

Lemma map_write_through_sysmem_witness :
  let r :=
    buffer_resource_sub_resource_map sample_buffer sample_context 0 (mk_box 0 16)
      WINED3D_MAP_WRITE in
  fst (fst (fst r)) = WINED3D_OK
  /\ (locations (snd (fst r)) = WINED3D_LOCATION_SYSMEM \/ locations (snd (fst r)) = 0)
  /\ map_ptr (snd (fst r)) = map_ptr sample_buffer.
Proof.
  intros r.
  apply (map_write_through_sysmem sample_buffer sample_context 0 (mk_box 0 16)
           WINED3D_MAP_WRITE (fst (fst (fst r))) (snd (fst (fst r))) (snd (fst r))
           (snd r)).
  - vm_compute. reflexivity.
  - reflexivity.
  - reflexivity.
Defined.

End MapMore.

(** * Conversion *)

Section ConversionMore.

Implicit Types (b : wined3d_buffer) (c : wined3d_context).

(** X13.  The D3DCOLOR fixup is an involution on 32-bit values: applied
    twice it gives back the colour it started from (reduced to 32 bits),
    so the same routine converts in both directions. *)
Theorem fixup_d3dcolor_involutive (src : Z) :
  fst (fixup_d3dcolor (fst (fixup_d3dcolor src))) = u32 src.
Proof.
  apply Z.bits_inj'. intros n Hn.
  rewrite fixup_d3dcolor_testbit by exact Hn.
  unfold u32.
  destruct (Z.ltb_spec n 8); [| destruct (Z.ltb_spec n 16);
    [| destruct (Z.ltb_spec n 24); [| destruct (Z.ltb_spec n 32)]]].
  - rewrite fixup_d3dcolor_testbit by lia.
    destruct (Z.ltb_spec (n + 16) 8); [lia |].
    destruct (Z.ltb_spec (n + 16) 16); [lia |].
    destruct (Z.ltb_spec (n + 16) 24); [| lia].
    rewrite Z.mod_pow2_bits_low by lia. f_equal. lia.
  - rewrite fixup_d3dcolor_testbit by lia.
    destruct (Z.ltb_spec n 8); [lia |].
    destruct (Z.ltb_spec n 16); [| lia].
    now rewrite Z.mod_pow2_bits_low by lia.
  - rewrite fixup_d3dcolor_testbit by lia.
    destruct (Z.ltb_spec (n - 16) 8); [| lia].
    rewrite Z.mod_pow2_bits_low by lia. f_equal. lia.
  - rewrite fixup_d3dcolor_testbit by lia.
    destruct (Z.ltb_spec n 8); [lia |].
    destruct (Z.ltb_spec n 16); [lia |].
    destruct (Z.ltb_spec n 24); [lia |].
    destruct (Z.ltb_spec n 32); [| lia].
    now rewrite Z.mod_pow2_bits_low by lia.
  - now rewrite Z.mod_pow2_bits_high by lia.
Qed.

(** X14.  The loop over the bytes of a vertex advances by at least one
    byte in every round and stops at the stride: from byte [j] it ends
    within [stride - j] rounds, and a larger budget gives the same
    result. *)
Theorem convert_vertex_fuel nan fuel b data i j :
  (Z.to_nat (stride b - j) <= fuel)%nat ->
  convert_vertex nan fuel b data i j
  = convert_vertex nan (Z.to_nat (stride b - j)) b data i j.
Proof.
  assert (forall n m data j,
            (Z.to_nat (stride b - j) <= n)%nat ->
            (Z.to_nat (stride b - j) <= m)%nat ->
            convert_vertex nan n b data i j = convert_vertex nan m b data i j) as H.
  { clear. induction n as [| n IH]; intros m data j Hn Hm.
    - destruct m as [| m]; [reflexivity |]. cbn [convert_vertex].
      destruct (Z.ltb_spec j (stride b)); [lia | reflexivity].
    - cbn [convert_vertex].
      destruct (Z.ltb_spec j (stride b)) as [Lt | Ge].
      + destruct m as [| m]; [lia |]. cbn [convert_vertex].
        destruct (Z.ltb_spec j (stride b)); [| lia].
        destruct (conversion_map_at b j) as [[] |].
        * apply IH; lia.
        * unfold fixup_d3dcolor. apply IH; lia.
        * unfold fixup_transformed_pos. destruct (_ && _); apply IH; lia.
        * apply IH; lia.
      + destruct m as [| m]; [reflexivity |]. cbn [convert_vertex].
        destruct (Z.ltb_spec j (stride b)); [lia | reflexivity]. }
  intros Hf. apply H; [exact Hf | lia].
Qed.

Lemma convert_vertex_fuel_witness :
  convert_vertex (float_nan sample_context) 9 sample_color_buffer [68; 51; 34; 17] 0 0
  = convert_vertex (float_nan sample_context)
      (Z.to_nat (stride sample_color_buffer - 0)) sample_color_buffer
      [68; 51; 34; 17] 0 0.
Proof.
  apply (convert_vertex_fuel (float_nan sample_context) 9 sample_color_buffer
           [68; 51; 34; 17] 0 0).
  vm_compute. lia.
Defined.

Lemma conversion_type_eqb_eq (t u : wined3d_buffer_conversion_type) :
  conversion_type_eqb t u = true -> t = u.
Proof. now destruct t, u. Qed.

(** The loop that marks the bytes of an attribute, from a buffer that
    has a map of the right size. *)
Lemma mark_bytes t (d : Z) (l : list Z) :
  forall ret b map,
    conversion_map b = Some map ->
    length map = Z.to_nat (stride b) ->
    0 < stride b ->
    exists ret' map',
      fold_left (mark_byte t d) l (ret, b)
      = (ret', set_conversion_map (Some map') b)
      /\ length map' = length map
      /\ (forall k, map !! k = Some t -> map' !! k = Some t)
      /\ (forall i, In i l -> map' !! Z.to_nat ((d + i) mod stride b) = Some t).
Proof.
  induction l as [| i l IH]; intros ret b map Hm Hl Hs.
  - exists ret, map. cbn [fold_left]. repeat split; auto.
    + rewrite <- Hm. now destruct b.
    + intros i [].
  - cbn [fold_left].
    pose proof (Z.mod_pos_bound (d + i) (stride b) Hs) as Hi.
    assert (Z.to_nat ((d + i) mod stride b) < length map)%nat as Lt by lia.
    destruct (lookup_lt_is_Some_2 map _ Lt) as [t0 Ht0].
    assert (mark_byte t d (ret, b) i
            = if negb (conversion_type_eqb t0 t)
              then (true,
                    set_conversion_map
                      (Some (<[Z.to_nat ((d + i) mod stride b) := t]> map)) b)
              else (ret, b)) as ->.
    { unfold mark_byte, conversion_map_at. rewrite Hm. cbv zeta.
      destruct (Z.ltb_spec ((d + i) mod stride b) 0) as [Neg | _]; [lia |].
      now rewrite Ht0. }
    destruct (conversion_type_eqb t0 t) eqn:Eq; cbn [negb].
    + apply conversion_type_eqb_eq in Eq. subst t0.
      destruct (IH ret b map Hm Hl Hs) as (ret' & map' & E & L' & K & I).
      exists ret', map'. repeat split; auto.
      intros i0 [<- | In0]; [apply K, Ht0 | now apply I].
    + set (map1 := <[Z.to_nat ((d + i) mod stride b) := t]> map) in *.
      set (b1 := set_conversion_map (Some map1) b).
      assert (length map1 = Z.to_nat (stride b1)) as Hl1.
      { unfold map1. now rewrite length_insert. }
      destruct (IH true b1 map1 eq_refl Hl1 Hs) as (ret' & map' & E & L' & K & I).
      exists ret', map'. repeat split.
      * rewrite E. reflexivity.
      * rewrite L'. unfold map1. apply length_insert.
      * intros k Hk. apply K. unfold map1.
        destruct (Nat.eq_dec (Z.to_nat ((d + i) mod stride b)) k) as [<- | Ne].
        -- now apply list_lookup_insert_eq.
        -- now rewrite list_lookup_insert_ne.
      * intros i0 [<- | In0]; [| now apply I].
        apply K. unfold map1. now apply list_lookup_insert_eq.
Qed.

(** The first part of [buffer_process_converted_attribute]: the stride
    of the run and the reallocation of the map. *)
Lemma process_converted_attribute_stride b attrib s :
  conversion_map_sized b ->
  let '(ret, b0, s0) :=
    if element_stride attrib =? 0 then (false, b, s)
    else if negb (element_stride attrib =? s) && negb (s =? 0)
    then (false, b, s)
    else
      let stride_this_run := element_stride attrib in
      if negb (stride b =? stride_this_run) then
        let buffer := set_stride stride_this_run b in
        let buffer :=
          set_conversion_map
            (Some (replicate (Z.to_nat (stride buffer)) CONV_NONE)) buffer in
        (true, buffer, stride_this_run)
      else (false, b, stride_this_run) in
  conversion_map_sized b0 /\ conversion_changed b b0.
Proof.
  intros Sz.
  destruct (element_stride attrib =? 0);
    [split; [exact Sz | apply conversion_changed_refl] |].
  destruct (negb (element_stride attrib =? s) && negb (s =? 0));
    [split; [exact Sz | apply conversion_changed_refl] |].
  cbv zeta.
  destruct (negb (stride b =? element_stride attrib));
    [| split; [exact Sz | apply conversion_changed_refl]].
  split.
  - unfold conversion_map_sized. cbn. apply length_replicate.
  - now destruct b.
Qed.

Lemma buffer_process_converted_attribute_sized b t attrib s ret b' s' :
  buffer_process_converted_attribute b t attrib s = (ret, b', s') ->
  conversion_map_sized b -> conversion_map_sized b'.
Proof.
  unfold buffer_process_converted_attribute. intros E Sz.
  pose proof (process_converted_attribute_stride b attrib s Sz) as H0.
  destruct (if element_stride attrib =? 0 then _ else _) as [[ret0 b0] s0].
  destruct H0 as (Sz0 & _).
  destruct (Z.eqb_spec (stride b0) 0) as [Z0 | N0]; [now inversion E; subst |].
  destruct (fold_left _ _ _) as [ret1 b1] eqn:Fo.
  assert (conversion_map_sized b1) as R; [| now inversion E; subst].
  change b1 with (snd (ret1, b1)). rewrite <- Fo.
  apply (fold_left_invariant (fun acc => conversion_map_sized (snd acc)));
    [| exact Sz0].
  clear. intros [ret b] i Sz. cbn [snd] in *.
  destruct (conversion_map b) as [map |] eqn:Hm; [| exact Sz].
  destruct (conversion_map_at b _); [| exact Sz].
  destruct (negb _); [| exact Sz].
  cbn [snd]. unfold conversion_map_sized in *. rewrite Hm in Sz. cbn.
  now rewrite length_insert.
Qed.

(** X15.  Inspecting the vertex declaration changes nothing of a
    buffer but its stride and its conversion map, and it keeps the map
    in step with the stride: whenever there is a map it has exactly
    [stride] entries, so the indices taken modulo the stride stay inside
    it. *)
Theorem buffer_find_decl_conversion_map b si state fixup_flags ret b' :
  buffer_find_decl b si state fixup_flags = (ret, b') ->
  b' = set_stride (stride b') (set_conversion_map (conversion_map b') b)
  /\ (conversion_map_sized b -> conversion_map_sized b').
Proof.
  intros E. split; [exact (buffer_find_decl_changed _ _ _ _ _ _ E) |].
  intros Sz. revert E. unfold buffer_find_decl.
  destruct (_ && _); [now intros [= _ <-] |].
  destruct (fixup_flags =? 0).
  { destruct (conversion_map b); intros [= _ <-]; [exact I | exact Sz]. }
  cbv zeta.
  assert (forall si state idx fixup s r b0 b1 s1,
            conversion_map_sized b0 ->
            buffer_check_attribute b0 si state idx fixup s = (r, b1, s1) ->
            conversion_map_sized b1) as Chk.
  { clear. intros si state idx fixup s r b0 b1 s1 Sz.
    unfold buffer_check_attribute.
    destruct (_ || _); [now intros [= _ <- _] |].
    destruct (_ && _); [intros P; eapply buffer_process_converted_attribute_sized; eauto |].
    destruct (_ && _).
    { destruct (negb _); [now intros [= _ <- _] |].
      intros P; eapply buffer_process_converted_attribute_sized; eauto. }
    destruct (conversion_map b0) eqn:Hm; [| now intros [= _ <- _]].
    intros P; eapply buffer_process_converted_attribute_sized; eauto. }
  destruct (buffer_check_attribute b si state WINED3D_FFP_POSITION fixup_flags 0)
    as [[r0 b0] s0] eqn:C0.
  pose proof (Chk _ _ _ _ _ _ _ _ _ Sz C0) as Sz0.
  match goal with
  | |- context [fold_left ?f ?l ?a] =>
      assert (conversion_map_sized (snd (fst (fold_left f l a)))) as Fo
  end.
  { apply (fold_left_invariant (fun acc => conversion_map_sized (snd (fst acc))));
      [| exact Sz0].
    intros [[r1 b1] s1] idx Sz1. cbn [fst snd] in *.
    destruct (buffer_check_attribute b1 si state idx _ s1) as [[r2 b2] s2] eqn:C2.
    cbn [fst snd]. eapply Chk; eauto. }
  destruct (fold_left _ _ _) as [[r3 b3] s3]. cbn [fst snd] in Fo.
  intros [= _ <-].
  destruct (conversion_map b3); [| exact Fo].
  destruct (s3 =? 0); [exact I | exact Fo].
Qed.

Lemma buffer_find_decl_conversion_map_witness :
  let b' :=
    snd (buffer_find_decl sample_color_buffer (stream_info sample_context)
           sample_state 0) in
  b' = set_stride (stride b')
         (set_conversion_map (conversion_map b') sample_color_buffer)
  /\ (conversion_map_sized sample_color_buffer -> conversion_map_sized b').
Proof.
  intros b'.
  apply (buffer_find_decl_conversion_map sample_color_buffer
           (stream_info sample_context) sample_state 0
           (fst (buffer_find_decl sample_color_buffer (stream_info sample_context)
                   sample_state 0)) b').
  vm_compute. reflexivity.
Defined.

Lemma mark_bytes_no_map t (d : Z) (l : list Z) ret b :
  conversion_map b = None -> fold_left (mark_byte t d) l (ret, b) = (ret, b).
Proof.
  intros Hm. induction l as [| i l IH]; [reflexivity |].
  cbn [fold_left]. unfold mark_byte at 2. now rewrite Hm.
Qed.

Lemma mark_bytes_stride t (d : Z) (l : list Z) :
  forall acc, stride (snd (fold_left (mark_byte t d) l acc)) = stride (snd acc).
Proof.
  induction l as [| i l IH]; intros [ret b]; [reflexivity |].
  cbn [fold_left]. rewrite IH. unfold mark_byte.
  destruct (conversion_map b); [| reflexivity].
  destruct (conversion_map_at b _); [| reflexivity].
  now destruct (negb _).
Qed.

(** X16.  After [buffer_process_converted_attribute] every byte of the
    attribute is marked with the conversion type in the conversion map,
    at its offset in the vertex (taken modulo the stride), provided the
    buffer ends with a map and a non-zero stride, the cases in which the
    C code does not trap. *)
Theorem process_converted_attribute_marks b t attrib s ret b' s' :
  buffer_process_converted_attribute b t attrib s = (ret, b', s') ->
  conversion_map_sized b ->
  conversion_map b' <> None ->
  0 < stride b' ->
  forall i, 0 <= i < byte_count (format attrib) ->
    conversion_map_at b' ((data_addr attrib mod stride b' + i) mod stride b') = Some t.
Proof.
  unfold buffer_process_converted_attribute. intros E Sz Hmap Hs i Hi.
  pose proof (process_converted_attribute_stride b attrib s Sz) as H0.
  destruct (if element_stride attrib =? 0 then _ else _) as [[ret0 b0] s0].
  destruct H0 as (Sz0 & _).
  destruct (Z.eqb_spec (stride b0) 0) as [Z0 | N0].
  { inversion E; subst. lia. }
  cbv zeta in E.
  destruct (fold_left _ _ _) as [ret1 b1] eqn:Fo in E.
  change (fold_left (mark_byte t (data_addr attrib mod stride b0))
            (seqZ 0 (byte_count (format attrib))) (ret0, b0) = (ret1, b1)) in Fo.
  rewrite <- Fo in E. clear Fo ret1 b1.
  destruct (conversion_map b0) as [map |] eqn:Hm.
  - unfold conversion_map_sized in Sz0. rewrite Hm in Sz0.
    assert (0 < stride b0) as Hs0.
    { pose proof (mark_bytes_stride t (data_addr attrib mod stride b0)
                    (seqZ 0 (byte_count (format attrib))) (ret0, b0)) as St.
      destruct (fold_left _ _ _) as [ret1 b1]. inversion E; subst. cbn in St. lia. }
    destruct (mark_bytes t (data_addr attrib mod stride b0)
                (seqZ 0 (byte_count (format attrib))) ret0 b0 map Hm Sz0 Hs0)
      as (ret' & map' & E' & L' & _ & I).
    rewrite E' in E. inversion E; subst. clear E.
    cbn [stride set_conversion_map] in *.
    unfold conversion_map_at. cbn [conversion_map set_conversion_map].
    pose proof (Z.mod_pos_bound (data_addr attrib mod stride b0 + i) (stride b0) Hs0).
    destruct (Z.ltb_spec ((data_addr attrib mod stride b0 + i) mod stride b0) 0);
      [lia |].
    apply I. apply list_elem_of_In, elem_of_seqZ. lia.
  - rewrite mark_bytes_no_map in E by exact Hm. inversion E; subst. contradiction.
Qed.

Lemma process_converted_attribute_marks_witness :
  let b' :=
    snd (fst (buffer_process_converted_attribute sample_buffer CONV_D3DCOLOR
                sample_color_attribute 0)) in
  conversion_map_at b'
    ((data_addr sample_color_attribute mod stride b' + 3) mod stride b')
  = Some CONV_D3DCOLOR.
Proof.
  intros b'.
  apply (process_converted_attribute_marks sample_buffer CONV_D3DCOLOR
           sample_color_attribute 0
           (fst (fst (buffer_process_converted_attribute sample_buffer CONV_D3DCOLOR
                        sample_color_attribute 0)))
           b'
           (snd (buffer_process_converted_attribute sample_buffer CONV_D3DCOLOR
                   sample_color_attribute 0))).
  - vm_compute. reflexivity.
  - exact I.
  - vm_compute. discriminate.
  - vm_compute. reflexivity.
  - vm_compute. split; congruence.
Defined.

End ConversionMore.

(** * The per-draw load *)

Section DrawMore.

Implicit Types (b : wined3d_buffer) (c : wined3d_context).

Lemma buffer_resource_unload_counters b c b' c' :
  buffer_resource_unload b c = (b', c') ->
  decl_change_count b' = decl_change_count b
  /\ full_conversion_count b' = full_conversion_count b
  /\ draw_count b' = draw_count b.
Proof.
  unfold buffer_resource_unload.
  destruct (buffer_object b); [| now intros [= <- <-]].
  destruct (wined3d_buffer_load_location b c _) as [[ok b1] c1] eqn:L.
  pose proof (wined3d_buffer_load_location_frame b c WINED3D_LOCATION_SYSMEM) as F1.
  rewrite L in F1. cbn [fst snd] in F1. apply frame_counters in F1.
  destruct (wined3d_buffer_invalidate_location b1 c1 _) as [b2 c2] eqn:I.
  apply wined3d_buffer_invalidate_location_frame, frame_counters in I.
  destruct (wined3d_buffer_unload_location b2 c2 _) as [b3 c3] eqn:U.
  assert (decl_change_count b3 = decl_change_count b2
          /\ full_conversion_count b3 = full_conversion_count b2
          /\ draw_count b3 = draw_count b2) as U3.
  { revert U.
    unfold wined3d_buffer_unload_location, wined3d_buffer_no3d_unload_location,
      wined3d_buffer_gl_unload_location, wined3d_buffer_vk_unload_location,
      wined3d_buffer_gl_destroy_buffer_object.
    branches; now intros [= <- <-]. }
  intros [= <- <-]. cbn.
  destruct U3 as (-> & -> & ->), I as (-> & -> & ->), F1 as (-> & -> & ->). auto.
Qed.

Lemma load_location_counters b c location ok b' c' :
  wined3d_buffer_load_location b c location = (ok, b', c') ->
  decl_change_count b' = decl_change_count b
  /\ full_conversion_count b' = full_conversion_count b
  /\ draw_count b' = draw_count b.
Proof.
  intros L. pose proof (wined3d_buffer_load_location_frame b c location) as F.
  rewrite L in F. now apply frame_counters in F.
Qed.

(** X17.  What a draw does to the counters of the heuristic when it is
    not a clean draw.  A draw that sees the declaration change adds one
    to the count of declaration changes and restarts the count of draws;
    a draw that converts a fully dirty buffer again adds one to the count
    of full conversions and leaves the other two alone; a draw that
    returns early (buffer mapped through its buffer object, no buffer
    object in use, or the buffer object cannot be prepared) changes no
    counter. *)
Theorem draw_counters b c state p b' c' :
  wined3d_buffer_load b c state = (p, b', c') ->
  match p with
  | path_decl_changed | path_decl_changed_drop =>
      decl_change_count b' = u32 (decl_change_count b + 1)
      /\ draw_count b' = 0
      /\ full_conversion_count b' = full_conversion_count b
  | path_full_conversion | path_full_conversion_drop =>
      full_conversion_count b' = u32 (full_conversion_count b + 1)
      /\ draw_count b' = draw_count b
      /\ decl_change_count b' = decl_change_count b
  | path_mapped | path_no_bo | path_prepare_failed =>
      decl_change_count b' = decl_change_count b
      /\ draw_count b' = draw_count b
      /\ full_conversion_count b' = full_conversion_count b
  | path_clean | path_upload => draw_count b' = u32 (draw_count b + 1)
  end.
Proof.
  intros L. pose proof L as L0. apply wined3d_buffer_load_exit in L.
  assert (forall b2 c2 b3,
            wined3d_buffer_prepare_location b c WINED3D_LOCATION_BUFFER
            = (true, b2, c2) ->
            declared b2 b3 ->
            decl_change_count b3 = decl_change_count b
            /\ full_conversion_count b3 = full_conversion_count b
            /\ draw_count b3 = draw_count b) as Hd.
  { intros b2 c2 b3 P D.
    apply wined3d_buffer_prepare_location_frame, frame_counters in P.
    apply declared_frame in D.
    destruct P as (P1 & P2 & P3), D as (D1 & D2 & D3 & _).
    rewrite D1, D2, D3. auto. }
  inversion L as [Mc Mp | U | b2 c2 U P | b2 c2 b3 U P D
                 | b2 c2 b3 b4 c4 U P D Cut Dr
                 | b2 c2 b3 b4 c4 ok b5 c5 U P D Cut I Ld
                 | b2 c2 b3 b4 c4 U P D Gt Dr | b2 c2 b3 ok b4 c4 U P D Le Ld
                 | b2 c2 b3 ok b4 c4 U P D Ld];
    subst; auto.
  - apply wined3d_buffer_prepare_location_frame, frame_counters in P. tauto.
  - exact (proj1 (clean_draw_counters _ _ _ _ _ _ L0 eq_refl)).
  - destruct (Hd _ _ _ P D) as (D1 & D2 & D3).
    unfold wined3d_buffer_drop_bo in Dr.
    apply buffer_resource_unload_counters in Dr. cbn in Dr.
    destruct Dr as (-> & -> & ->). rewrite D1, D2. auto.
  - destruct (Hd _ _ _ P D) as (D1 & D2 & D3).
    apply load_location_counters in Ld. destruct Ld as (-> & -> & ->).
    apply buffer_invalidate_bo_range_frame, frame_counters in I.
    destruct I as (-> & -> & ->). cbn. rewrite D1, D2. auto.
  - destruct (Hd _ _ _ P D) as (D1 & D2 & D3).
    unfold wined3d_buffer_drop_bo in Dr.
    apply buffer_resource_unload_counters in Dr. cbn in Dr.
    destruct Dr as (-> & -> & ->). rewrite D1, D2, D3. auto.
  - destruct (Hd _ _ _ P D) as (D1 & D2 & D3).
    apply load_location_counters in Ld. destruct Ld as (-> & -> & ->).
    cbn. rewrite D1, D2, D3. auto.
  - exact (proj1 (clean_draw_counters _ _ _ _ _ _ L0 eq_refl)).
Qed.

Lemma draw_counters_witness :
  let b := sample_changing_buffer in
  let r := wined3d_buffer_load b sample_context (Some sample_state) in
  let b' := snd (fst r) in
  match fst (fst r) with
  | path_decl_changed | path_decl_changed_drop =>
      decl_change_count b' = u32 (decl_change_count b + 1)
      /\ draw_count b' = 0
      /\ full_conversion_count b' = full_conversion_count b
  | path_full_conversion | path_full_conversion_drop =>
      full_conversion_count b' = u32 (full_conversion_count b + 1)
      /\ draw_count b' = draw_count b
      /\ decl_change_count b' = decl_change_count b
  | path_mapped | path_no_bo | path_prepare_failed =>
      decl_change_count b' = decl_change_count b
      /\ draw_count b' = draw_count b
      /\ full_conversion_count b' = full_conversion_count b
  | path_clean | path_upload => draw_count b' = u32 (draw_count b + 1)
  end.
Proof.
  intros b r b'.
  apply (draw_counters b sample_context (Some sample_state) (fst (fst r)) b' (snd r)).
  vm_compute. reflexivity.
Defined.

(** X18.  The cut-off on full conversions: a draw that has to convert a
    fully dirty buffer again when [VB_MAXFULLCONVERSIONS] full
    conversions are on record does not convert; it drops the buffer
    object and clears WINED3D_BUFFER_USE_BO, and no later operation sets
    the flag again. *)
Theorem full_conversion_cutoff b c state p b1 c1 :
  wined3d_buffer_load b c state = (p, b1, c1) ->
  p = path_full_conversion \/ p = path_full_conversion_drop ->
  VB_MAXFULLCONVERSIONS <= full_conversion_count b < 2 ^ 32 - 1 ->
  p = path_full_conversion_drop
  /\ buffer_object b1 = None
  /\ use_bo b1 = false
  /\ forall ops, use_bo (run_ops ops b1) = false.
Proof.
  intros L Hp Hc. apply wined3d_buffer_load_exit in L.
  assert (forall b2 c2 b3,
            wined3d_buffer_prepare_location b c WINED3D_LOCATION_BUFFER
            = (true, b2, c2) ->
            declared b2 b3 ->
            full_conversion_count (count_full_conversion b3) > VB_MAXFULLCONVERSIONS
            /\ buffer_ops (count_full_conversion b3) <> wined3d_buffer_no3d_ops) as Hd.
  { intros b2 c2 b3 P D.
    pose proof (wined3d_buffer_prepare_location_buffer_ops _ _ _ _ P) as N.
    apply wined3d_buffer_prepare_location_frame in P.
    apply declared_frame in D. destruct D as (_ & D2 & _ & _ & D & _).
    cbn [count_full_conversion full_conversion_count set_full_conversion_count
           buffer_ops].
    rewrite D2, (frame_full_conversion_count _ _ P), (kept_ops _ _ D),
      (frame_ops _ _ P).
    split; [| exact N].
    unfold u32, VB_MAXFULLCONVERSIONS in *. rewrite Z.mod_small; lia. }
  inversion L as [Mc Mp | U | b2 c2 U P | b2 c2 b3 U P D
                 | b2 c2 b3 b4 c4 U P D Cut Dr
                 | b2 c2 b3 b4 c4 ok b5 c5 U P D Cut I Ld
                 | b2 c2 b3 b4 c4 U P D Gt Dr | b2 c2 b3 ok b4 c4 U P D Le Ld
                 | b2 c2 b3 ok b4 c4 U P D Ld];
    subst; destruct Hp as [Hp | Hp]; try discriminate Hp.
  - destruct (Hd _ _ _ P D) as (_ & N).
    pose proof (wined3d_buffer_drop_bo_buffer_object _ _ _ _ N Dr) as Bo.
    apply wined3d_buffer_drop_bo_kept in Dr. destruct Dr as (_ & Ub).
    repeat split; auto. intros ops. now apply run_ops_use_bo.
  - exfalso. destruct (Hd _ _ _ P D) as (G & _). lia.
Qed.

Lemma full_conversion_cutoff_witness :
  let r := wined3d_buffer_load sample_converted_buffer sample_context None in
  fst (fst r) = path_full_conversion_drop
  /\ buffer_object (snd (fst r)) = None
  /\ use_bo (snd (fst r)) = false
  /\ forall ops, use_bo (run_ops ops (snd (fst r))) = false.
Proof.
  intros r.
  apply (full_conversion_cutoff sample_converted_buffer sample_context None
           (fst (fst r)) (snd (fst r)) (snd r)).
  - vm_compute. reflexivity.
  - right. vm_compute. reflexivity.
  - vm_compute. split; congruence.
Defined.

(** X19.  A dynamic buffer never keeps a buffer object together with a
    conversion map across a declaration change: when the draw that sees
    the change keeps the buffer object, a dynamic buffer has no
    conversion map afterwards. *)
Theorem dynamic_buffer_no_conversion b c state b' c' :
  wined3d_buffer_load b c state = (path_decl_changed, b', c') ->
  test (usage (resource b')) WINED3DUSAGE_DYNAMIC = true ->
  conversion_map b' = None.
Proof.
  intros L Dy. apply wined3d_buffer_load_exit in L.
  inversion L as [Mc Mp | U | b2 c2 U P | b2 c2 b3 U P D
                 | b2 c2 b3 b4 c4 U P D Cut Dr
                 | b2 c2 b3 b4 c4 ok b5 c5 U P D Cut I Ld
                 | b2 c2 b3 b4 c4 U P D Gt Dr | b2 c2 b3 ok b4 c4 U P D Le Ld
                 | b2 c2 b3 ok b4 c4 U P D Ld];
    subst.
  pose proof (wined3d_buffer_load_location_frame b4 c4 WINED3D_LOCATION_BUFFER) as F.
  rewrite Ld in F. cbn [fst snd] in F.
  apply buffer_invalidate_bo_range_frame in I.
  rewrite (frame_conversion_map _ _ F), (frame_conversion_map _ _ I).
  rewrite (frame_usage _ _ F), (frame_usage _ _ I) in Dy.
  cbn [count_decl_change conversion_map usage resource set_draw_count
         set_decl_change_count] in *.
  apply orb_false_iff in Cut. destruct Cut as (_ & Cut).
  rewrite Dy, andb_true_r in Cut.
  destruct (conversion_map b3); [| reflexivity].
  rewrite bool_decide_eq_false in Cut. exfalso. apply Cut. discriminate.
Qed.

Lemma dynamic_buffer_no_conversion_witness :
  conversion_map
    (snd (fst (wined3d_buffer_load sample_dynamic_color_buffer sample_context
                 (Some sample_state)))) = None.
Proof.
  apply (dynamic_buffer_no_conversion sample_dynamic_color_buffer sample_context
           (Some sample_state) _
           (snd (wined3d_buffer_load sample_dynamic_color_buffer sample_context
                   (Some sample_state)))).
  - vm_compute. reflexivity.
  - vm_compute. reflexivity.
Defined.

End DrawMore.

(** * Creation *)

Section CreationMore.

Implicit Types (b : wined3d_buffer) (c : wined3d_context).

Lemma wined3d_buffer_init_ok b0 device desc c ops b c' :
  wined3d_buffer_init b0 device desc None c ops = (WINED3D_OK, b, c') ->
  heap_memory (resource b0) = None ->
  let pinned :=
    software_vertexprocessing device || test (desc_usage desc) WINED3DUSAGE_MANAGED in
  byte_width desc <> 0
  /\ (test (desc_bind_flags desc) WINED3D_BIND_CONSTANT_BUFFER = true ->
      test (byte_width desc) (WINED3D_CONSTANT_BUFFER_ALIGNMENT - 1) = false)
  /\ size (resource b) = byte_width desc
  /\ usage (resource b) = desc_usage desc
  /\ bind_flags (resource b) = desc_bind_flags desc
  /\ buffer_ops b = ops
  /\ map_count (resource b) = 0
  /\ maps_size b = 1
  /\ b = set_maps_size 1
           (set_locations (locations b)
              (mk_buffer (resource b) ops (desc_structure_byte_stride desc)
                 (flags b0) (locations b0) (map_ptr b0) (buffer_object b0) (maps b0)
                 (maps_size b0) (decl_change_count b0) (full_conversion_count b0)
                 (draw_count b0) (stride b0) (conversion_map b0)
                 (conversion_stride b0)))
  /\ locations b = (if pinned then WINED3D_LOCATION_SYSMEM else WINED3D_LOCATION_CLEARED)
  /\ pin_sysmem (resource b) = (pinned || pin_sysmem (resource b0))
  /\ heap_memory (resource b)
     = (if pinned || negb (use_bo b0) then Some (zeroes (byte_width desc)) else None).
Proof.
  intros E H0 pinned. revert E. unfold wined3d_buffer_init.
  destruct (Z.eqb_spec (byte_width desc) 0) as [| Nz]; [discriminate |].
  destruct (test (desc_bind_flags desc) WINED3D_BIND_CONSTANT_BUFFER
            && test (byte_width desc) (WINED3D_CONSTANT_BUFFER_ALIGNMENT - 1)) eqn:Al;
    [discriminate |].
  assert (test (desc_bind_flags desc) WINED3D_BIND_CONSTANT_BUFFER = true ->
          test (byte_width desc) (WINED3D_CONSTANT_BUFFER_ALIGNMENT - 1) = false) as Al'.
  { intros Cb. now rewrite Cb in Al. }
  clear Al. cbv zeta. fold pinned.
  set (access_ := if _ && cb_access_map_w device then _ else _). clearbody access_.
  unfold prepare_sysmem, wined3d_resource_prepare_sysmem, resource_init, use_bo.
  destruct pinned;
    cbn [locations set_locations flags set_resource resource heap_memory
           set_pin_sysmem pin_sysmem size orb].
  - change (test WINED3D_LOCATION_SYSMEM WINED3D_LOCATION_SYSMEM) with true.
    cbn [orb]. rewrite H0.
    destruct (allocate c) as [[] c1]; cbn [negb]; [| discriminate].
    destruct (allocate c1) as [[] c2]; cbn [negb].
    + intros [= <- <-]. repeat split; auto.
    + destruct (buffer_resource_unload _ c2). discriminate.
  - change (test WINED3D_LOCATION_CLEARED WINED3D_LOCATION_SYSMEM) with false.
    cbn [orb].
    destruct (test (flags b0) WINED3D_BUFFER_USE_BO); cbn [negb].
    + destruct (allocate c) as [[] c1]; cbn [negb].
      * intros [= <- <-]. repeat split; auto.
      * destruct (buffer_resource_unload _ c1). discriminate.
    + rewrite H0.
      destruct (allocate c) as [[] c1]; cbn [negb]; [| discriminate].
      destruct (allocate c1) as [[] c2]; cbn [negb].
      * intros [= <- <-]. repeat split; auto.
      * destruct (buffer_resource_unload _ c2). discriminate.
Qed.

(** Creation with initial contents is creation without, followed by
    [wined3d_buffer_init_data]; it needs the pointer to the contents. *)
Lemma wined3d_buffer_init_with_data b0 device desc d c ops b c' :
  wined3d_buffer_init b0 device desc (Some d) c ops = (WINED3D_OK, b, c') ->
  exists bytes b1 c1,
    sub_resource_bytes d = Some bytes
    /\ wined3d_buffer_init b0 device desc None c ops = (WINED3D_OK, b1, c1)
    /\ wined3d_buffer_init_data b1 c1 d = (b, c').
Proof.
  unfold wined3d_buffer_init.
  destruct (byte_width desc =? 0); [discriminate |].
  destruct (_ && test (byte_width desc) _); [discriminate |].
  destruct (sub_resource_bytes d) as [bytes |] eqn:By;
    [| rewrite bool_decide_eq_true_2 by reflexivity; discriminate].
  rewrite bool_decide_eq_false_2 by discriminate.
  cbv zeta.
  match goal with
  | |- context [if ?cond then prepare_sysmem ?b1 c else _] =>
      destruct (if cond then prepare_sysmem b1 c else (true, b1, c)) as [[ok b2] c2]
  end.
  destruct ok; cbn [negb]; [| discriminate].
  destruct (allocate c2) as [[] c3]; cbn [negb].
  - destruct (wined3d_buffer_init_data (set_maps_size 1 b2) c3 d) as [b3 c4] eqn:I.
    intros [= <- <-]. exists bytes, (set_maps_size 1 b2), c3. auto.
  - destruct (buffer_resource_unload b2 c3). discriminate.
Qed.





End CreationMore.

(** * Streaming buffers *)

Section StreamingMore.

Implicit Types (b : wined3d_buffer) (c : wined3d_context).

Lemma wined3d_streaming_buffer_prepare_size device c sb min_size hr sb' c' :
  wined3d_streaming_buffer_prepare device c sb min_size = (hr, sb', c') ->
  SUCCEEDED hr = true ->
  exists b', buffer sb' = Some b'
    /\ min_size <= size (resource b')
    /\ (pos sb' = pos sb \/ pos sb' = 0).
Proof.
  unfold wined3d_streaming_buffer_prepare.
  destruct (buffer sb) as [b0 |] eqn:B.
  - change (bool_decide (Some b0 <> None)) with true. cbn [andb].
    destruct (Z.geb_spec (size (resource b0)) min_size) as [Ge | Lt].
    + intros [= <- <- <-] _. exists b0. auto.
    + destruct (wined3d_buffer_create device _ None c) as [[hr1 created] c1] eqn:Cr.
      destruct (SUCCEEDED hr1) eqn:S; intros [= <- <- <-] S'; [| congruence].
      destruct (wined3d_buffer_create_size _ _ _ _ _ _ _ Cr S) as (b1 & -> & Sz).
      exists b1. cbn [buffer pos byte_width] in *. rewrite Sz. repeat split; auto.
      lia.
  - change (bool_decide (None <> None)) with false. cbn [andb].
    destruct (wined3d_buffer_create device _ None c) as [[hr1 created] c1] eqn:Cr.
    destruct (SUCCEEDED hr1) eqn:S; intros [= <- <- <-] S'; [| congruence].
    destruct (wined3d_buffer_create_size _ _ _ _ _ _ _ Cr S) as (b1 & -> & Sz).
    exists b1. cbn [buffer pos byte_width] in *. rewrite Sz. repeat split; auto.
    lia.
Qed.

(** X21.  [wined3d_streaming_buffer_prepare] either keeps the buffer
    (when it holds [min_size] bytes already) or replaces it by a new
    dynamic buffer whose size is the largest of SB_MIN_SIZE, twice the
    old size and [min_size], with the cursor back at 0.  After a success
    the buffer holds at least [min_size] bytes; after a failure the
    streaming buffer is as before.  The bind flags never change. *)
Theorem streaming_buffer_prepare_grows device c sb min_size hr sb' c' :
  wined3d_streaming_buffer_prepare device c sb min_size = (hr, sb', c') ->
  streaming_bind_flags sb' = streaming_bind_flags sb
  /\ (SUCCEEDED hr = false -> sb' = sb)
  /\ (SUCCEEDED hr = true ->
      exists b', buffer sb' = Some b'
        /\ min_size <= size (resource b')
        /\ (sb' = sb
            \/ pos sb' = 0
               /\ size (resource b')
                  = Z.max SB_MIN_SIZE
                      (Z.max
                         (u32 (match buffer sb with
                               | Some b => size (resource b)
                               | None => 0
                               end * 2)) min_size))).
Proof.
  intros E.
  assert (forall b, buffer sb = Some b -> min_size <= size (resource b) ->
            hr = WINED3D_OK /\ sb' = sb) as Keep.
  { intros b B Ge. revert E. unfold wined3d_streaming_buffer_prepare. rewrite B.
    change (bool_decide (Some b <> None)) with true. cbn [andb].
    destruct (Z.geb_spec (size (resource b)) min_size); [| lia].
    now intros [= <- <- <-]. }
  assert ((forall b, buffer sb = Some b -> size (resource b) < min_size) ->
          let desc :=
            mk_desc
              (Z.max SB_MIN_SIZE
                 (Z.max
                    (u32 (match buffer sb with
                          | Some b => size (resource b)
                          | None => 0
                          end * 2)) min_size))
              WINED3DUSAGE_DYNAMIC (streaming_bind_flags sb)
              (Z.lor WINED3D_RESOURCE_ACCESS_GPU WINED3D_RESOURCE_ACCESS_MAP_W) 0 0 in
          let r := wined3d_buffer_create device desc None c in
          hr = fst (fst r)
          /\ sb' = (if SUCCEEDED hr
                    then mk_streaming_buffer (snd (fst r)) 0 (streaming_bind_flags sb)
                    else sb)) as Grow.
  { intros Lt desc r. revert E. unfold wined3d_streaming_buffer_prepare.
    fold desc. fold r.
    destruct (buffer sb) as [b0 |] eqn:B.
    - change (bool_decide (Some b0 <> None)) with true. cbn [andb].
      specialize (Lt b0 eq_refl).
      destruct (Z.geb_spec (size (resource b0)) min_size); [lia |].
      destruct r as [[hr1 created] c1]. cbn [fst snd].
      destruct (SUCCEEDED hr1) eqn:S; intros [= <- <- <-]; now rewrite S.
    - change (bool_decide (None <> None)) with false. cbn [andb].
      destruct r as [[hr1 created] c1]. cbn [fst snd].
      destruct (SUCCEEDED hr1) eqn:S; intros [= <- <- <-]; now rewrite S. }
  assert ((exists b, buffer sb = Some b /\ min_size <= size (resource b))
          \/ (forall b, buffer sb = Some b -> size (resource b) < min_size)) as [K | G].
  { destruct (buffer sb) as [b0 |].
    - destruct (Z_le_gt_dec min_size (size (resource b0))).
      + left. now exists b0.
      + right. intros b [= <-]. lia.
    - right. discriminate. }
  - destruct K as (b0 & B & Ge). destruct (Keep b0 B Ge) as (-> & ->).
    repeat split; auto. intros _. exists b0. auto.
  - specialize (Grow G). cbv zeta in Grow. destruct Grow as (Hr & Sb).
    destruct (wined3d_buffer_create device _ None c) as [[hr1 created] c1] eqn:Cr.
    cbn [fst snd] in *. subst hr1.
    destruct (SUCCEEDED hr) eqn:S; subst sb'; repeat split; auto; try discriminate.
    intros _.
    destruct (wined3d_buffer_create_size _ _ _ _ _ _ _ Cr S) as (b1 & -> & Sz).
    exists b1. cbn [buffer pos byte_width] in *. repeat split; auto; lia.
Qed.

Lemma streaming_buffer_prepare_grows_witness :
  let sb := mk_streaming_buffer None 0 WINED3D_BIND_VERTEX_BUFFER in
  let r := wined3d_streaming_buffer_prepare sample_device sample_context sb 600000 in
  let hr := fst (fst r) in
  let sb' := snd (fst r) in
  streaming_bind_flags sb' = streaming_bind_flags sb
  /\ (SUCCEEDED hr = false -> sb' = sb)
  /\ (SUCCEEDED hr = true ->
      exists b', buffer sb' = Some b'
        /\ 600000 <= size (resource b')
        /\ (sb' = sb
            \/ pos sb' = 0
               /\ size (resource b')
                  = Z.max SB_MIN_SIZE
                      (Z.max
                         (u32 (match buffer sb with
                               | Some b => size (resource b)
                               | None => 0
                               end * 2)) 600000))).
Proof.
  intros sb r hr sb'.
  apply (streaming_buffer_prepare_grows sample_device sample_context sb 600000
           hr sb' (snd r)).
  unfold hr, sb', r.
  now destruct (wined3d_streaming_buffer_prepare sample_device sample_context sb 600000)
    as [[? ?] ?].
Defined.

(** Rounding the cursor up to the next multiple of the stride. *)
Lemma streaming_align (pos_ stride_ : Z) :
  0 < stride_ < 2 ^ 32 -> 0 <= pos_ ->
  let align := pos_ mod stride_ in
  let align := if negb (align =? 0) then u32 (stride_ - align) else align in
  0 <= align < stride_ /\ (pos_ + align) mod stride_ = 0.
Proof.
  intros Hs Hp. cbv zeta.
  pose proof (Z.mod_pos_bound pos_ stride_ ltac:(lia)) as Hm.
  destruct (Z.eqb_spec (pos_ mod stride_) 0) as [E | N]; cbn [negb].
  - rewrite E, Z.add_0_r. split; [lia | exact E].
  - unfold u32. rewrite Z.mod_small by lia. split; [lia |].
    rewrite (Z.div_mod pos_ stride_) at 1 by lia.
    replace (stride_ * (pos_ / stride_) + pos_ mod stride_
             + (stride_ - pos_ mod stride_))
      with ((pos_ / stride_ + 1) * stride_) by lia.
    apply Z.mod_mul. lia.
Qed.

(** X22.  The range a successful [wined3d_streaming_buffer_map] returns
    starts at a multiple of the stride and lies inside the buffer, and
    the cursor is left at its end.  The range either starts at 0 in a
    DISCARD map (the bytes did not fit behind the cursor) or is mapped
    NOOVERWRITE less than one stride after the cursor. *)
Theorem streaming_buffer_map_range device c sb size_ stride_ r sb' c' :
  wined3d_streaming_buffer_map device c sb size_ stride_ = (r, sb', c') ->
  0 < stride_ -> 0 <= size_ -> 0 <= pos sb ->
  pos sb + size_ + stride_ < 2 ^ 32 ->
  map_hr r = WINED3D_OK ->
  exists p b' flags_,
    ret_pos r = Some p /\ buffer sb' = Some b' /\ map_flags_used r = Some flags_
    /\ 0 <= p /\ p mod stride_ = 0
    /\ p + size_ <= size (resource b')
    /\ pos sb' = p + size_
    /\ (flags_ = Z.lor WINED3D_MAP_WRITE WINED3D_MAP_DISCARD /\ p = 0
        \/ flags_ = Z.lor WINED3D_MAP_WRITE WINED3D_MAP_NOOVERWRITE
           /\ p < pos sb + stride_).
Proof.
  intros E Hs Hz Hp Hb Ok. revert E. unfold wined3d_streaming_buffer_map.
  destruct (wined3d_streaming_buffer_prepare device c sb size_)
    as [[hr1 sb1] c1] eqn:P.
  destruct (SUCCEEDED hr1) eqn:S1.
  2:{ destruct (buffer sb1); cbn [negb]; intros [= <- <- <-];
      cbn [map_hr] in Ok; subst hr1; discriminate S1. }
  destruct (wined3d_streaming_buffer_prepare_size _ _ _ _ _ _ _ P S1)
    as (b1 & B1 & Sz & Pos1).
  rewrite B1. cbn [negb].
  assert (0 <= pos sb1 <= pos sb) as Hp1 by (destruct Pos1 as [-> | ->]; lia).
  pose proof (streaming_align (pos sb1) stride_ ltac:(lia) ltac:(lia)) as Al.
  cbv zeta in Al.
  set (align := if negb (pos sb1 mod stride_ =? 0)
                then u32 (stride_ - pos sb1 mod stride_)
                else pos sb1 mod stride_) in *.
  destruct Al as (Ha & Hmod).
  assert (forall x, 0 <= x < 2 ^ 32 -> u32 x = x) as U
    by (intros x Hx; unfold u32; now rewrite Z.mod_small).
  rewrite (U (pos sb1 + size_ + align)) by lia.
  destruct (Z.gtb_spec (pos sb1 + size_ + align) (size (resource b1))) as [Wrap | Fit].
  - destruct (wined3d_resource_map b1 c1 0 _ _) as [[[hr2 d] b2] c2] eqn:M.
    apply wined3d_resource_map_size in M.
    destruct (SUCCEEDED hr2) eqn:S2; intros [= <- <- <-]; cbn [map_hr] in Ok;
      [| subst hr2; discriminate S2].
    exists 0, b2, (Z.lor WINED3D_MAP_WRITE WINED3D_MAP_DISCARD).
    cbn [ret_pos map_flags_used buffer pos]. rewrite M, (U (0 + size_)) by lia.
    repeat split; auto; lia.
  - rewrite (U (pos sb1 + align)) by lia.
    destruct (wined3d_resource_map b1 c1 0 _ _) as [[[hr2 d] b2] c2] eqn:M.
    apply wined3d_resource_map_size in M.
    destruct (SUCCEEDED hr2) eqn:S2; intros [= <- <- <-]; cbn [map_hr] in Ok;
      [| subst hr2; discriminate S2].
    exists (pos sb1 + align), b2, (Z.lor WINED3D_MAP_WRITE WINED3D_MAP_NOOVERWRITE).
    cbn [ret_pos map_flags_used buffer pos].
    rewrite M, (U (pos sb1 + align + size_)) by lia.
    repeat split; auto; lia.
Qed.

Lemma streaming_buffer_map_range_witness :
  let sb := mk_streaming_buffer None 0 WINED3D_BIND_VERTEX_BUFFER in
  let m := wined3d_streaming_buffer_map sample_device sample_context sb 300000 16 in
  exists p b' flags_,
    ret_pos (fst (fst m)) = Some p /\ buffer (snd (fst m)) = Some b'
    /\ map_flags_used (fst (fst m)) = Some flags_
    /\ 0 <= p /\ p mod 16 = 0
    /\ p + 300000 <= size (resource b')
    /\ pos (snd (fst m)) = p + 300000
    /\ (flags_ = Z.lor WINED3D_MAP_WRITE WINED3D_MAP_DISCARD /\ p = 0
        \/ flags_ = Z.lor WINED3D_MAP_WRITE WINED3D_MAP_NOOVERWRITE
           /\ p < pos sb + 16).
Proof.
  intros sb m. subst m.
  pose proof (streaming_first_map sample_device sample_context
                WINED3D_BIND_VERTEX_BUFFER) as F.
  fold sb in F.
  destruct (wined3d_streaming_buffer_map sample_device sample_context sb 300000 16)
    as [[r1 sb1] c1] eqn:M.
  cbn [fst snd].
  apply (streaming_buffer_map_range sample_device sample_context sb 300000 16
           r1 sb1 c1).
  - exact M.
  - lia.
  - lia.
  - cbn. lia.
  - cbn. lia.
  - destruct F as (_ & ->). vm_compute. reflexivity.
Defined.

End StreamingMore.

(** * Upload and unload *)

Section RoundTrip.

Implicit Types (b : wined3d_buffer) (c : wined3d_context).

Lemma memcpy_whole (dst src : list Z) (n : Z) :
  length dst = Z.to_nat n -> length src = Z.to_nat n ->
  memcpy dst (0 + 0) src (0 + 0) n = src.
Proof.
  intros Hd Hs. unfold memcpy. cbn [Z.add Z.ltb Z.compare orb Z.to_nat].
  rewrite drop_0, Nat.sub_0_r, Nat.add_0_l, take_0.
  rewrite (take_ge src) by lia. rewrite (take_ge src) by lia.
  rewrite drop_ge by lia. cbn [app]. apply app_nil_r.
Qed.

Lemma allocate_nil c : alloc_results c = [] -> allocate c = (true, c).
Proof. unfold allocate. now intros ->. Qed.

Lemma length_zeroes (n : Z) : length (zeroes n) = Z.to_nat n.
Proof. apply length_replicate. Qed.

(** A load is the body run on the function bounded by two calls. *)
Lemma load_location_by_body b c location r :
  wined3d_buffer_load_location_body (load_location_fuel 2) b c location = Some r ->
  wined3d_buffer_load_location b c location = r.
Proof.
  intros E. pose proof (wined3d_buffer_load_location_eq b c location) as L.
  change (load_location_fuel 3 b c location)
    with (wined3d_buffer_load_location_body (load_location_fuel 2) b c location) in L.
  congruence.
Qed.

(** Preparing the buffer object of a buffer that has none, when the
    allocations succeed. *)
Lemma prepare_location_creates b c :
  buffer_ops b <> wined3d_buffer_no3d_ops ->
  use_bo b = true ->
  buffer_object b = None ->
  alloc_results c = [] ->
  exists c1,
    wined3d_buffer_prepare_location b c WINED3D_LOCATION_BUFFER
    = (true,
       invalidate_all (set_buffer_object (Some (zeroes (size (resource b)))) b), c1)
    /\ alloc_results c1 = [].
Proof.
  intros Ops Ub Bo Al. unfold wined3d_buffer_prepare_location.
  set (c0 := log _ c).
  assert (alloc_results c0 = []) as Al0 by exact Al. clearbody c0.
  unfold use_bo in Ub.
  destruct (buffer_ops b); [contradiction | |];
    unfold wined3d_buffer_gl_prepare_location, wined3d_buffer_vk_prepare_location,
      wined3d_buffer_gl_create_buffer_object, wined3d_buffer_vk_create_buffer_object;
    change (WINED3D_LOCATION_BUFFER =? WINED3D_LOCATION_SYSMEM) with false;
    change (WINED3D_LOCATION_BUFFER =? WINED3D_LOCATION_BUFFER) with true;
    cbv iota; rewrite Bo, ?Ub; cbn [negb];
    rewrite (allocate_nil c0 Al0); cbn [negb];
    rewrite (allocate_nil (log _ c0)) by exact Al0; cbn [negb];
    rewrite buffer_invalidate_bo_range_whole by (now left);
    eexists; split; try reflexivity; exact Al0.
Qed.

(** The end of a load of the buffer object, from a buffer whose buffer
    object holds [data]. *)
Lemma load_location_finish_buffer b c data :
  buffer_object b = Some data ->
  alloc_results c = [] ->
  exists b' c',
    load_location_finish b c WINED3D_LOCATION_BUFFER = (true, b', c')
    /\ buffer_object b' = Some data
    /\ alloc_results c' = []
    /\ (locations b' = Z.lor (locations b) WINED3D_LOCATION_BUFFER
        /\ heap_memory (resource b') = heap_memory (resource b)
        \/ locations b'
           = Z.land (Z.lor (locations b) WINED3D_LOCATION_BUFFER)
               (not32 WINED3D_LOCATION_SYSMEM)
           /\ heap_memory (resource b') = None).
Proof.
  intros Bo Al. unfold load_location_finish.
  destruct (_ && _).
  - unfold wined3d_buffer_evict_sysmem.
    destruct (pin_sysmem _).
    + do 2 eexists. split; [reflexivity |]. cbn.
      change (test WINED3D_LOCATION_BUFFER WINED3D_LOCATION_BUFFER) with true.
      cbn. repeat split; auto.
    + unfold wined3d_buffer_invalidate_location, wined3d_buffer_invalidate_range.
      change (test WINED3D_LOCATION_SYSMEM WINED3D_LOCATION_BUFFER) with false.
      cbv iota. do 2 eexists. split; [reflexivity |]. cbn.
      change (test WINED3D_LOCATION_BUFFER WINED3D_LOCATION_BUFFER) with true.
      cbn. repeat split; auto.
  - do 2 eexists. split; [reflexivity |]. cbn.
    change (test WINED3D_LOCATION_BUFFER WINED3D_LOCATION_BUFFER) with true.
    cbn. repeat split; auto.
Qed.

(** Uploading the host memory into a buffer object created for it. *)
Lemma load_location_uploads b c data :
  buffer_ops b <> wined3d_buffer_no3d_ops ->
  use_bo b = true ->
  buffer_object b = None ->
  conversion_map b = None ->
  locations b = WINED3D_LOCATION_SYSMEM ->
  heap_memory (resource b) = Some data ->
  length data = Z.to_nat (size (resource b)) ->
  alloc_results c = [] ->
  exists b' c',
    wined3d_buffer_load_location b c WINED3D_LOCATION_BUFFER = (true, b', c')
    /\ buffer_object b' = Some data
    /\ alloc_results c' = []
    /\ (locations b' = Z.lor WINED3D_LOCATION_SYSMEM WINED3D_LOCATION_BUFFER
        /\ heap_memory (resource b') = Some data
        \/ locations b' = WINED3D_LOCATION_BUFFER
           /\ heap_memory (resource b') = None).
Proof.
  intros Ops Ub Bo Cm Lo Hm Len Al.
  destruct (prepare_location_creates b c Ops Ub Bo Al) as (c1 & P & Al1).
  set (b1 := invalidate_all (set_buffer_object (Some (zeroes (size (resource b)))) b))
    in *.
  set (b2 := set_buffer_object (Some data) b1).
  assert (wined3d_context_copy_bo_address c1 b1 (mk_address storage_bo 0)
            (mk_address storage_heap 0) (maps b1)
            (Z.lor WINED3D_MAP_WRITE WINED3D_MAP_DISCARD)
          = (b2, log (call_copy_bo_address true (maps b1)
                        (Z.lor WINED3D_MAP_WRITE WINED3D_MAP_DISCARD)) c1)) as Cp.
  { unfold wined3d_context_copy_bo_address.
    cbn [address_storage address_offset read_storage is_bo write_storage].
    change (buffer_object b1) with (Some (zeroes (size (resource b)))).
    change (heap_memory (resource b1)) with (heap_memory (resource b)). rewrite Hm.
    change (maps b1) with [mk_range 0 (size (resource b))].
    cbn [fold_left range_offset range_size].
    rewrite memcpy_whole; [reflexivity | apply length_zeroes | exact Len]. }
  destruct (load_location_finish_buffer b2
              (log (call_copy_bo_address true (maps b1)
                      (Z.lor WINED3D_MAP_WRITE WINED3D_MAP_DISCARD)) c1) data
              eq_refl Al1) as (b3 & c3 & Fi & Bo3 & Al3 & L3).
  exists b3, c3. split.
  - apply load_location_by_body. unfold wined3d_buffer_load_location_body.
    rewrite Lo.
    change (test WINED3D_LOCATION_SYSMEM WINED3D_LOCATION_BUFFER) with false.
    change (WINED3D_LOCATION_SYSMEM =? 0) with false. cbv iota.
    rewrite P. cbn [negb].
    change (locations b1) with (locations b). rewrite Lo.
    change (test WINED3D_LOCATION_SYSMEM WINED3D_LOCATION_DISCARDED) with false.
    change (test WINED3D_LOCATION_SYSMEM WINED3D_LOCATION_CLEARED) with false.
    change (WINED3D_LOCATION_BUFFER =? WINED3D_LOCATION_SYSMEM) with false.
    change (WINED3D_LOCATION_BUFFER =? WINED3D_LOCATION_BUFFER) with true.
    cbv iota. cbn [negb].
    change (conversion_map b1) with (conversion_map b). rewrite Cm.
    assert (buffer_is_fully_dirty b1 = true) as ->.
    { unfold buffer_is_fully_dirty. cbn. now rewrite Z.eqb_refl. }
    rewrite Cp, Fi. reflexivity.
  - repeat split; auto.
    change (locations b2) with (locations b) in L3.
    change (heap_memory (resource b2)) with (heap_memory (resource b)) in L3.
    rewrite Lo, Hm in L3. destruct L3 as [L3 | L3]; [left | right]; exact L3.
Qed.

(** Unloading a buffer whose buffer object holds [data]: the data comes
    back to the host memory. *)
Lemma buffer_resource_unload_downloads b c data :
  buffer_ops b <> wined3d_buffer_no3d_ops ->
  buffer_object b = Some data ->
  length data = Z.to_nat (size (resource b)) ->
  locations b = Z.lor WINED3D_LOCATION_SYSMEM WINED3D_LOCATION_BUFFER
  /\ heap_memory (resource b) = Some data
  \/ locations b = WINED3D_LOCATION_BUFFER /\ heap_memory (resource b) = None ->
  alloc_results c = [] ->
  exists b' c',
    buffer_resource_unload b c = (b', c')
    /\ heap_memory (resource b') = Some data
    /\ buffer_object b' = None
    /\ locations b' = WINED3D_LOCATION_SYSMEM
    /\ maps b' = [] /\ conversion_map b' = None.
Proof.
  intros Ops Bo Len St Al. unfold buffer_resource_unload. rewrite Bo.
  assert (exists b1 c1 ok,
            wined3d_buffer_load_location b c WINED3D_LOCATION_SYSMEM = (ok, b1, c1)
            /\ heap_memory (resource b1) = Some data
            /\ buffer_ops b1 = buffer_ops b
            /\ locations b1 = Z.lor WINED3D_LOCATION_SYSMEM WINED3D_LOCATION_BUFFER)
    as (b1 & c1 & ok & -> & Hm1 & Ops1 & Lo1).
  { destruct St as [[Lo Hm] | [Lo Hm]].
    - exists b, c, true. split; [| auto].
      apply wined3d_buffer_load_location_noop. now rewrite Lo.
    - set (b0 := set_resource
                   (set_heap_memory (Some (zeroes (size (resource b)))) (resource b)) b).
      set (c0 := log (call_prepare_location WINED3D_LOCATION_SYSMEM) c).
      assert (wined3d_buffer_prepare_location b c WINED3D_LOCATION_SYSMEM
              = (true, b0, c0)) as P.
      { unfold wined3d_buffer_prepare_location. fold c0.
        assert (prepare_sysmem b c0 = (true, b0, c0)) as Ps.
        { unfold prepare_sysmem, wined3d_resource_prepare_sysmem.
          rewrite Hm, (allocate_nil c0) by exact Al. reflexivity. }
        destruct (buffer_ops b); exact Ps. }
      set (b2 := set_resource (set_heap_memory (Some data) (resource b0)) b0).
      exists (wined3d_buffer_validate_location b2 WINED3D_LOCATION_SYSMEM).
      eexists. exists true. split.
      + apply load_location_by_body. unfold wined3d_buffer_load_location_body.
        rewrite Lo.
        change (test WINED3D_LOCATION_BUFFER WINED3D_LOCATION_SYSMEM) with false.
        change (WINED3D_LOCATION_BUFFER =? 0) with false. cbv iota.
        rewrite P. cbn [negb].
        change (locations b0) with (locations b). rewrite Lo.
        change (test WINED3D_LOCATION_BUFFER WINED3D_LOCATION_DISCARDED) with false.
        change (test WINED3D_LOCATION_BUFFER WINED3D_LOCATION_CLEARED) with false.
        change (WINED3D_LOCATION_SYSMEM =? WINED3D_LOCATION_SYSMEM) with true.
        cbv iota.
        unfold wined3d_context_copy_bo_address.
        cbn [address_storage address_offset read_storage is_bo write_storage].
        change (buffer_object b0) with (buffer_object b). rewrite Bo.
        change (heap_memory (resource b0)) with (Some (zeroes (size (resource b)))).
        cbn [fold_left range_offset range_size].
        change (size (resource b0)) with (size (resource b)).
        rewrite memcpy_whole; [| apply length_zeroes | exact Len].
        fold b2. unfold load_location_finish.
        change (WINED3D_LOCATION_SYSMEM =? WINED3D_LOCATION_BUFFER) with false.
        rewrite andb_false_r. cbn [andb]. reflexivity.
      + unfold wined3d_buffer_validate_location.
        change (test WINED3D_LOCATION_SYSMEM WINED3D_LOCATION_BUFFER) with false.
        cbn. rewrite Lo. auto. }
  unfold wined3d_buffer_invalidate_location, wined3d_buffer_invalidate_range.
  change (test WINED3D_LOCATION_BUFFER WINED3D_LOCATION_BUFFER) with true. cbv iota.
  rewrite buffer_invalidate_bo_range_whole by (now left).
  destruct (wined3d_buffer_unload_location _ c1 WINED3D_LOCATION_BUFFER)
    as [b3 c3] eqn:U.
  do 2 eexists. split; [reflexivity |].
  assert (buffer_object b3 = None) as Bo3.
  { eapply wined3d_buffer_unload_location_buffer_object; [| exact U].
    cbn. now rewrite Ops1. }
  assert (heap_memory (resource b3) = Some data /\ locations b3 = WINED3D_LOCATION_SYSMEM)
    as [Hm3 Lo3].
  { revert U.
    unfold wined3d_buffer_unload_location, wined3d_buffer_no3d_unload_location,
      wined3d_buffer_gl_unload_location, wined3d_buffer_vk_unload_location,
      wined3d_buffer_gl_destroy_buffer_object.
    branches; intros [= <- <-]; cbn; rewrite Lo1; auto. }
  cbn. auto.
Qed.

(** X23.  Upload and unload form a round trip for the data.  For a
    buffer of an adapter with 3D that uses a buffer object, has its data
    in the host memory only, needs no conversion and has no buffer object
    yet: when the allocations succeed, loading WINED3D_LOCATION_BUFFER
    creates the buffer object and fills it with the bytes of the host
    memory, and unloading the buffer afterwards destroys the buffer object
    and leaves the same bytes in the host memory, as the one valid
    location. *)
Theorem upload_unload_round_trip b c data :
  buffer_ops b <> wined3d_buffer_no3d_ops ->
  use_bo b = true ->
  buffer_object b = None ->
  conversion_map b = None ->
  locations b = WINED3D_LOCATION_SYSMEM ->
  heap_memory (resource b) = Some data ->
  length data = Z.to_nat (size (resource b)) ->
  alloc_results c = [] ->
  let '(ok, b1, c1) := wined3d_buffer_load_location b c WINED3D_LOCATION_BUFFER in
  let '(b2, _) := buffer_resource_unload b1 c1 in
  ok = true
  /\ buffer_object b1 = Some data
  /\ test (locations b1) WINED3D_LOCATION_BUFFER = true
  /\ heap_memory (resource b2) = Some data
  /\ buffer_object b2 = None
  /\ locations b2 = WINED3D_LOCATION_SYSMEM.
Proof.
  intros Ops Ub Bo Cm Lo Hm Len Al.
  destruct (load_location_uploads b c data Ops Ub Bo Cm Lo Hm Len Al)
    as (b1 & c1 & L & Bo1 & Al1 & St).
  pose proof (wined3d_buffer_load_location_frame b c WINED3D_LOCATION_BUFFER) as F.
  rewrite L in *. cbn [fst snd] in F.
  assert (buffer_ops b1 <> wined3d_buffer_no3d_ops) as Ops1
    by now rewrite (frame_ops _ _ F).
  assert (length data = Z.to_nat (size (resource b1))) as Len1
    by now rewrite (frame_size _ _ F).
  destruct (buffer_resource_unload_downloads b1 c1 data Ops1 Bo1 Len1 St Al1)
    as (b2 & c2 & -> & Hm2 & Bo2 & Lo2 & _).
  repeat split; auto.
  destruct St as [[-> _] | [-> _]]; reflexivity.
Qed.

Lemma upload_unload_round_trip_witness :
  let '(ok, b1, c1) :=
    wined3d_buffer_load_location sample_loaded_buffer sample_context
      WINED3D_LOCATION_BUFFER in
  let '(b2, _) := buffer_resource_unload b1 c1 in
  ok = true
  /\ buffer_object b1 = Some [68; 51; 34; 17]
  /\ test (locations b1) WINED3D_LOCATION_BUFFER = true
  /\ heap_memory (resource b2) = Some [68; 51; 34; 17]
  /\ buffer_object b2 = None
  /\ locations b2 = WINED3D_LOCATION_SYSMEM.
Proof.
  apply (upload_unload_round_trip sample_loaded_buffer sample_context
           [68; 51; 34; 17]); try reflexivity.
  discriminate.
Defined.

End RoundTrip.

(** * The array of dirty ranges never overflows *)

Section MapsFit.

Implicit Types (b : wined3d_buffer) (c : wined3d_context).

Lemma maps_fit_kept_refl b : maps_fit_kept b b.
Proof. intros H. exact H. Qed.

Lemma maps_fit_kept_trans b1 b2 b3 :
  maps_fit_kept b1 b2 -> maps_fit_kept b2 b3 -> maps_fit_kept b1 b3.
Proof. unfold maps_fit_kept. auto. Qed.

(** A buffer with the same array, or with no range in use. *)
Lemma maps_fit_kept_same b b' :
  maps_size b' = maps_size b -> maps b' = maps b \/ maps b' = [] ->
  maps_fit_kept b b'.
Proof.
  unfold maps_fit_kept, maps_fit, modified_areas.
  intros -> [-> | ->]; cbn [length]; lia.
Qed.

Ltac fit_same := apply maps_fit_kept_same; cbn; auto.

Lemma buffer_invalidate_bo_range_fit b c offset size_ b' c' :
  buffer_invalidate_bo_range b c offset size_ = (b', c') -> maps_fit_kept b b'.
Proof.
  unfold buffer_invalidate_bo_range, wined3d_array_reserve, invalidate_all,
    maps_fit_kept, maps_fit, modified_areas.
  destruct (_ && _); [intros [= <- <-]; cbn; lia |].
  destruct (_ || _); [intros [= <- <-]; cbn; lia |].
  destruct (Z.leb_spec (Z.of_nat (length (maps b)) + 1) (maps_size b)).
  - cbn [negb]. intros [= <- <-]. cbn. rewrite length_app. cbn. lia.
  - destruct (allocate c) as [[] c1]; cbn [negb]; intros [= <- <-]; cbn;
      rewrite ?length_app; cbn; lia.
Qed.

Lemma wined3d_buffer_validate_location_fit b location :
  maps_fit_kept b (wined3d_buffer_validate_location b location).
Proof. unfold wined3d_buffer_validate_location. branches; fit_same. Qed.

Lemma wined3d_buffer_invalidate_range_fit b c location offset size_ b' c' :
  wined3d_buffer_invalidate_range b c location offset size_ = (b', c') ->
  maps_fit_kept b b'.
Proof.
  unfold wined3d_buffer_invalidate_range.
  destruct (test location WINED3D_LOCATION_BUFFER).
  - destruct (buffer_invalidate_bo_range b c offset size_) as [b1 c1] eqn:E.
    apply buffer_invalidate_bo_range_fit in E. intros [= <- <-].
    eapply maps_fit_kept_trans; [exact E | fit_same].
  - intros [= <- <-]. fit_same.
Qed.

Lemma wined3d_buffer_evict_sysmem_fit b c b' c' :
  wined3d_buffer_evict_sysmem b c = (b', c') -> maps_fit_kept b b'.
Proof.
  unfold wined3d_buffer_evict_sysmem, wined3d_buffer_invalidate_location.
  destruct (pin_sysmem (resource b)); [intros [= <- <-]; apply maps_fit_kept_refl |].
  destruct (wined3d_buffer_invalidate_range b c _ 0 0) as [b1 c1] eqn:E.
  apply wined3d_buffer_invalidate_range_fit in E. intros [= <- <-].
  eapply maps_fit_kept_trans; [exact E | fit_same].
Qed.

Lemma prepare_sysmem_fit b c ok b' c' :
  prepare_sysmem b c = (ok, b', c') -> maps_fit_kept b b'.
Proof.
  unfold prepare_sysmem, wined3d_resource_prepare_sysmem.
  branches; intros [= <- <- <-]; fit_same.
Qed.

Lemma wined3d_buffer_prepare_location_fit b c location ok b' c' :
  wined3d_buffer_prepare_location b c location = (ok, b', c') -> maps_fit_kept b b'.
Proof.
  unfold wined3d_buffer_prepare_location.
  set (c0 := log _ c). clearbody c0.
  assert (forall b0 c1 b1 c2,
            buffer_invalidate_bo_range
              (set_buffer_object (Some (zeroes (size (resource b0)))) b0) c1 0 0
            = (b1, c2) -> maps_fit_kept b0 b1) as Cr.
  { intros b0 c1 b1 c2 E. apply buffer_invalidate_bo_range_fit in E.
    eapply maps_fit_kept_trans; [| exact E]. fit_same. }
  destruct (buffer_ops b);
    unfold wined3d_buffer_no3d_prepare_location, wined3d_buffer_gl_prepare_location,
      wined3d_buffer_vk_prepare_location, wined3d_buffer_gl_create_buffer_object,
      wined3d_buffer_vk_create_buffer_object;
    (destruct (location =? WINED3D_LOCATION_SYSMEM); [apply prepare_sysmem_fit |]);
    try (intros [= <- <- <-]; apply maps_fit_kept_refl);
    (destruct (location =? WINED3D_LOCATION_BUFFER);
     [| intros [= <- <- <-]; apply maps_fit_kept_refl]);
    (destruct (buffer_object b); [intros [= <- <- <-]; apply maps_fit_kept_refl |]).
  - destruct (negb (test (flags b) WINED3D_BUFFER_USE_BO));
      [intros [= <- <- <-]; apply maps_fit_kept_refl |].
    destruct (allocate c0) as [[] c1]; cbn [negb];
      [| intros [= <- <- <-]; apply maps_fit_kept_refl].
    destruct (allocate (log _ c1)) as [[] c2]; cbn [negb].
    + destruct (buffer_invalidate_bo_range _ c2 0 0) as [b1 c3] eqn:E.
      intros [= <- <- <-]. eapply Cr, E.
    + intros [= <- <- <-]. fit_same.
  - destruct (allocate c0) as [[] c1]; cbn [negb];
      [| intros [= <- <- <-]; apply maps_fit_kept_refl].
    destruct (allocate (log _ c1)) as [[] c2]; cbn [negb].
    + destruct (buffer_invalidate_bo_range _ c2 0 0) as [b1 c3] eqn:E.
      intros [= <- <- <-]. eapply Cr, E.
    + intros [= <- <- <-]. apply maps_fit_kept_refl.
Qed.

Lemma wined3d_buffer_unload_location_fit b c location b' c' :
  wined3d_buffer_unload_location b c location = (b', c') -> maps_fit_kept b b'.
Proof.
  unfold wined3d_buffer_unload_location, wined3d_buffer_no3d_unload_location,
    wined3d_buffer_gl_unload_location, wined3d_buffer_vk_unload_location,
    wined3d_buffer_gl_destroy_buffer_object.
  branches; intros [= <- <-]; fit_same.
Qed.

Lemma wined3d_context_copy_bo_address_fit b c dst src ranges map_flags b' c' :
  wined3d_context_copy_bo_address c b dst src ranges map_flags = (b', c') ->
  maps_fit_kept b b'.
Proof.
  unfold wined3d_context_copy_bo_address, write_storage.
  branches; intros [= <- <-]; fit_same.
Qed.

Lemma memset_heap_memory_fit b : maps_fit_kept b (memset_heap_memory b).
Proof. unfold memset_heap_memory. branches; fit_same. Qed.

Lemma load_location_finish_fit b c location ok b' c' :
  load_location_finish b c location = (ok, b', c') -> maps_fit_kept b b'.
Proof.
  unfold load_location_finish.
  pose proof (wined3d_buffer_validate_location_fit b location) as F.
  destruct (_ && _).
  - destruct (wined3d_buffer_evict_sysmem _ c) as [b1 c1] eqn:E.
    apply wined3d_buffer_evict_sysmem_fit in E. intros [= <- <- <-].
    eauto using maps_fit_kept_trans.
  - intros [= <- <- <-]. exact F.
Qed.

Lemma cleared_stage_fit b c ok b' c' :
  cleared_stage b c ok b' c' -> maps_fit_kept b b'.
Proof.
  intros [Cl | ok1 b1 c1 Cl P]; [apply maps_fit_kept_refl |].
  apply wined3d_buffer_prepare_location_fit in P.
  destruct ok1; [| exact P].
  eapply maps_fit_kept_trans; [exact P | apply memset_heap_memory_fit].
Qed.

Lemma wined3d_buffer_load_location_fit b c location :
  maps_fit_kept b (snd (fst (wined3d_buffer_load_location b c location))).
Proof.
  apply (load_location_induction (fun b _ _ r => maps_fit_kept b (snd (fst r)))).
  clear. intros f IH b c l r H. apply load_location_body_exit in H.
  assert (forall b0 c0 b1,
            maps_fit_kept b b0 ->
            maps_fit_kept b (snd (fst (load_location_finish b0 c0 l)))) as Hfin.
  { intros b0 c0 b1 F0.
    destruct (load_location_finish b0 c0 l) as [[ok2 b2] c2] eqn:Fi.
    apply load_location_finish_fit in Fi. eauto using maps_fit_kept_trans. }
  destruct H as [V | r V E0 F | b1 c1 V N0 P | b1 c1 b2 c2 V N0 P D I
                | b1 c1 V N0 P D Ls Cl | b1 c1 b2 c2 V N0 P D Ls Cl Cp
                | b1 c1 b2 c2 V N0 P D Lb St | b1 c1 b2 c2 b3 c3 V N0 P D Lb St Cm Cp
                | b1 c1 b2 c2 b3 c3 V N0 P D Lb St Cm U | b1 c1 V N0 P D Ls Lb];
    cbn [fst snd];
    try (apply wined3d_buffer_prepare_location_fit in P).
  - apply maps_fit_kept_refl.
  - apply IH in F. eapply maps_fit_kept_trans; [| exact F].
    apply wined3d_buffer_validate_location_fit.
  - exact P.
  - apply wined3d_buffer_invalidate_range_fit in I.
    eauto using maps_fit_kept_trans, wined3d_buffer_validate_location_fit.
  - apply (Hfin _ _ b). eauto using maps_fit_kept_trans, memset_heap_memory_fit.
  - apply wined3d_context_copy_bo_address_fit in Cp.
    apply (Hfin _ _ b). eauto using maps_fit_kept_trans.
  - apply cleared_stage_fit in St. eauto using maps_fit_kept_trans.
  - apply cleared_stage_fit in St. apply wined3d_context_copy_bo_address_fit in Cp.
    apply (Hfin _ _ b). eauto using maps_fit_kept_trans.
  - apply cleared_stage_fit in St. apply (Hfin _ _ b).
    eapply maps_fit_kept_trans; [exact P |].
    eapply maps_fit_kept_trans; [exact St |].
    destruct U as [b4 c4 F | b4 c4 c5 F _ | b4 c4 c5 b6 c6 F _ Cp].
    + apply IH in F. exact F.
    + apply IH in F. eapply maps_fit_kept_trans; [exact F | fit_same].
    + apply IH in F. apply wined3d_context_copy_bo_address_fit in Cp.
      eapply maps_fit_kept_trans; [exact F |].
      eapply maps_fit_kept_trans; [| exact Cp]. fit_same.
  - exact P.
Qed.

Lemma load_location_fit b c location ok b' c' :
  wined3d_buffer_load_location b c location = (ok, b', c') -> maps_fit_kept b b'.
Proof.
  intros L. pose proof (wined3d_buffer_load_location_fit b c location) as F.
  now rewrite L in F.
Qed.

Lemma buffer_resource_unload_fit b c b' c' :
  buffer_resource_unload b c = (b', c') -> maps_fit_kept b b'.
Proof.
  unfold buffer_resource_unload.
  destruct (buffer_object b); [| intros [= <- <-]; apply maps_fit_kept_refl].
  destruct (wined3d_buffer_load_location b c _) as [[ok b1] c1] eqn:L.
  apply load_location_fit in L.
  destruct (wined3d_buffer_invalidate_location b1 c1 _) as [b2 c2] eqn:I.
  apply wined3d_buffer_invalidate_range_fit in I.
  destruct (wined3d_buffer_unload_location b2 c2 _) as [b3 c3] eqn:U.
  apply wined3d_buffer_unload_location_fit in U.
  intros [= <- <-].
  eapply maps_fit_kept_trans; [exact L |]. eapply maps_fit_kept_trans; [exact I |].
  eapply maps_fit_kept_trans; [exact U |]. fit_same.
Qed.

Lemma wined3d_buffer_drop_bo_fit b c b' c' :
  wined3d_buffer_drop_bo b c = (b', c') -> maps_fit_kept b b'.
Proof.
  unfold wined3d_buffer_drop_bo. intros U. apply buffer_resource_unload_fit in U.
  eapply maps_fit_kept_trans; [| exact U]. fit_same.
Qed.

Lemma wined3d_buffer_get_memory_fit b c location a b' c' :
  wined3d_buffer_get_memory b c = (location, a, b', c') -> maps_fit_kept b b'.
Proof.
  unfold wined3d_buffer_get_memory.
  destruct (test (locations b) _).
  - destruct (wined3d_buffer_load_location b c _) as [[ok b1] c1] eqn:L.
    apply load_location_fit in L.
    branches; intros [= <- <- <- <-]; exact L.
  - branches; intros [= <- <- <- <-]; apply maps_fit_kept_refl.
Qed.

Lemma wined3d_buffer_copy_bo_address_fit b c dst_offset src_addr size_ b' c' :
  wined3d_buffer_copy_bo_address b c dst_offset src_addr size_ = (b', c') ->
  maps_fit_kept b b'.
Proof.
  unfold wined3d_buffer_copy_bo_address.
  destruct (wined3d_buffer_get_memory b c) as [[[l a] b1] c1] eqn:G.
  apply wined3d_buffer_get_memory_fit in G.
  destruct (wined3d_context_copy_bo_address c1 b1 _ _ _ _) as [b2 c2] eqn:Cp.
  apply wined3d_context_copy_bo_address_fit in Cp.
  intros I. apply wined3d_buffer_invalidate_range_fit in I.
  eauto using maps_fit_kept_trans.
Qed.

Lemma declared_fit b b' : declared b b' -> maps_fit_kept b b'.
Proof. intros (b1 & E & [-> | ->]); rewrite E; fit_same. Qed.

Lemma count_draw_fit b : maps_fit_kept b (count_draw b).
Proof. unfold count_draw. branches; fit_same. Qed.

Lemma wined3d_buffer_load_fit b c state p b' c' :
  wined3d_buffer_load b c state = (p, b', c') -> maps_fit_kept b b'.
Proof.
  intros L. apply wined3d_buffer_load_exit in L.
  assert (forall b1 c1 b2,
            wined3d_buffer_prepare_location b c WINED3D_LOCATION_BUFFER
            = (true, b1, c1) ->
            declared b1 b2 -> maps_fit_kept b b2) as Hd.
  { intros b1 c1 b2 P D. apply wined3d_buffer_prepare_location_fit in P.
    apply declared_fit in D. eauto using maps_fit_kept_trans. }
  inversion L as [Mc Mp | U | b2 c2 U P | b2 c2 b3 U P D
                 | b2 c2 b3 b4 c4 U P D Cut Dr
                 | b2 c2 b3 b4 c4 ok b5 c5 U P D Cut I Ld
                 | b2 c2 b3 b4 c4 U P D Gt Dr | b2 c2 b3 ok b4 c4 U P D Le Ld
                 | b2 c2 b3 ok b4 c4 U P D Ld];
    subst; try apply maps_fit_kept_refl.
  - eapply wined3d_buffer_prepare_location_fit, P.
  - eapply maps_fit_kept_trans; [eapply Hd; eauto | apply count_draw_fit].
  - eapply maps_fit_kept_trans; [eapply Hd; eauto |].
    eapply maps_fit_kept_trans; [| eapply wined3d_buffer_drop_bo_fit, Dr]. fit_same.
  - eapply maps_fit_kept_trans; [eapply Hd; eauto |].
    eapply maps_fit_kept_trans; [| eapply load_location_fit, Ld].
    eapply maps_fit_kept_trans; [| eapply buffer_invalidate_bo_range_fit, I].
    fit_same.
  - eapply maps_fit_kept_trans; [eapply Hd; eauto |].
    eapply maps_fit_kept_trans; [| eapply wined3d_buffer_drop_bo_fit, Dr]. fit_same.
  - eapply maps_fit_kept_trans; [eapply Hd; eauto |].
    eapply maps_fit_kept_trans; [| eapply load_location_fit, Ld]. fit_same.
  - eapply maps_fit_kept_trans; [eapply Hd; eauto |].
    eapply maps_fit_kept_trans; [| eapply load_location_fit, Ld].
    apply count_draw_fit.
Qed.

Lemma first_map_fit flags_ b c b' c' : first_map flags_ b c b' c' -> maps_fit_kept b b'.
Proof.
  intros [address c1 _ _ | address c1 b2 c2 _ _ _ D | address c1 ok b2 c2 _ _ _ L].
  - fit_same.
  - apply wined3d_buffer_drop_bo_fit in D.
    eapply maps_fit_kept_trans; [| exact D]. fit_same.
  - apply load_location_fit in L.
    eapply maps_fit_kept_trans; [| eapply maps_fit_kept_trans; [exact L |]]; fit_same.
Qed.

Lemma buffer_resource_sub_resource_map_fit b c idx box flags_ hr p b' c' :
  buffer_resource_sub_resource_map b c idx box flags_ = (hr, p, b', c') ->
  maps_fit_kept b b'.
Proof.
  intros M. apply buffer_resource_sub_resource_map_exit in M.
  assert (maps_fit_kept b (count_map b)) as K0 by fit_same.
  inversion M as [b1 c1 b2 c2 _ S1 S2 | b1 c1 _ _ P
                 | b1 c1 b2 c2 b3 c3 b4 c4 _ R S2 S3 S4]; subst.
  - assert (maps_fit_kept (count_map b) b1) as F1.
    { revert S1. destruct (negb (test (locations b) WINED3D_LOCATION_SYSMEM)); [| intros E; inversion E; subst; apply maps_fit_kept_refl].
      destruct (wined3d_buffer_load_location (count_map b) c _) as [[ok b5] c5] eqn:L.
      intros E; inversion E; subst. eapply load_location_fit, L. }
    assert (maps_fit_kept b1 b') as F2.
    { revert S2. destruct (test flags_ WINED3D_MAP_WRITE); [| intros E; inversion E; subst; apply maps_fit_kept_refl].
      apply wined3d_buffer_invalidate_range_fit. }
    eauto using maps_fit_kept_trans.
  - apply wined3d_buffer_prepare_location_fit in P. eauto using maps_fit_kept_trans.
  - assert (maps_fit_kept (count_map b) b1) as F1.
    { destruct R as [b5 c5 _ P | ok b5 c5 _ L].
      - apply wined3d_buffer_prepare_location_fit in P.
        eauto using maps_fit_kept_trans, wined3d_buffer_validate_location_fit.
      - eapply load_location_fit, L. }
    assert (maps_fit_kept b1 b2) as F2.
    { revert S2. destruct (test flags_ WINED3D_MAP_WRITE); [| intros E; inversion E; subst; apply maps_fit_kept_refl].
      destruct (wined3d_buffer_invalidate_location b1 c1 _) as [b5 c5] eqn:I.
      apply wined3d_buffer_invalidate_range_fit in I.
      intros R2. apply buffer_invalidate_bo_range_fit in R2.
      eauto using maps_fit_kept_trans. }
    assert (maps_fit_kept b2 b3) as F3.
    { revert S3.
      destruct (test flags_ WINED3D_MAP_DISCARD
                && bool_decide (heap_memory (resource b2) <> None)); [| intros E; inversion E; subst; apply maps_fit_kept_refl].
      apply wined3d_buffer_evict_sysmem_fit. }
    assert (maps_fit_kept b b3) as K3 by eauto using maps_fit_kept_trans.
    destruct S4 as [(_ & F) | (_ & -> & ->)]; [| exact K3].
    apply first_map_fit in F. eauto using maps_fit_kept_trans.
Qed.

Lemma run_op_fit op b c : maps_fit_kept b (fst (run_op op b c)).
Proof.
  destruct op; cbn [run_op].
  - apply wined3d_buffer_validate_location_fit.
  - destruct (wined3d_buffer_invalidate_location b c location) as [b' c'] eqn:E.
    eapply wined3d_buffer_invalidate_range_fit, E.
  - destruct (wined3d_buffer_load_location b c location) as [[ok b'] c'] eqn:E.
    eapply load_location_fit, E.
  - unfold wined3d_buffer_load_sysmem.
    destruct (wined3d_buffer_load_location b c _) as [[ok b'] c'] eqn:E.
    apply load_location_fit in E. cbn [fst].
    eapply maps_fit_kept_trans; [exact E |]. destruct ok; fit_same.
  - destruct (wined3d_buffer_get_memory b c) as [[[l a] b'] c'] eqn:E.
    eapply wined3d_buffer_get_memory_fit, E.
  - destruct (wined3d_buffer_load b c state) as [[p b'] c'] eqn:E.
    eapply wined3d_buffer_load_fit, E.
  - unfold buffer_resource_preload.
    destruct (wined3d_buffer_load b c None) as [[p b'] c'] eqn:E.
    eapply wined3d_buffer_load_fit, E.
  - destruct (buffer_resource_unload b c) as [b' c'] eqn:E.
    eapply buffer_resource_unload_fit, E.
  - destruct (buffer_resource_sub_resource_map b c sub_resource_idx box flags_)
      as [[[hr p] b'] c'] eqn:E.
    eapply buffer_resource_sub_resource_map_fit, E.
  - unfold buffer_resource_sub_resource_unmap.
    branches; cbn [fst]; fit_same.
  - destruct (wined3d_buffer_copy_bo_address b c dst_offset src_addr size_)
      as [b' c'] eqn:E.
    eapply wined3d_buffer_copy_bo_address_fit, E.
Qed.

Lemma wined3d_buffer_init_data_fit b c d b' c' :
  wined3d_buffer_init_data b c d = (b', c') -> maps_fit_kept b b'.
Proof.
  unfold wined3d_buffer_init_data.
  destruct (test (flags b) WINED3D_BUFFER_USE_BO).
  - intros [= <- <-]. apply maps_fit_kept_refl.
  - intros I. apply wined3d_buffer_invalidate_range_fit in I.
    eapply maps_fit_kept_trans; [| exact I].
    eapply maps_fit_kept_trans; [| apply wined3d_buffer_validate_location_fit].
    destruct (heap_memory (resource b)); fit_same.
Qed.

Lemma wined3d_buffer_create_fit device desc data c hr b c' :
  wined3d_buffer_create device desc data c = (hr, Some b, c') -> maps_fit b.
Proof.
  unfold wined3d_buffer_create, wined3d_buffer_no3d_init, wined3d_buffer_gl_init,
    wined3d_buffer_vk_init.
  destruct (allocate c) as [[] c1]; cbn [negb]; [| discriminate].
  assert (forall b0 ops c2 b1 c3,
            heap_memory (resource b0) = None -> maps b0 = [] ->
            wined3d_buffer_init b0 device desc None c2 ops = (WINED3D_OK, b1, c3) ->
            maps_fit b1) as Plain.
  { intros b0 ops c2 b1 c3 H0 M0 I.
    destruct (wined3d_buffer_init_ok _ _ _ _ _ _ _ I H0)
      as (_ & _ & _ & _ & _ & _ & _ & Ms & Eb & _).
    unfold maps_fit, modified_areas. rewrite Ms, Eb. cbn. rewrite M0. cbn. lia. }
  assert (forall b0 ops c2,
            heap_memory (resource b0) = None -> maps b0 = [] ->
            (let '(hr1, b1, c3) := wined3d_buffer_init b0 device desc data c2 ops in
             if SUCCEEDED hr1 then (hr1, Some b1, c3) else (hr1, None, c3))
            = (hr, Some b, c') -> maps_fit b) as Init.
  { intros b0 ops c2 H0 M0.
    destruct (wined3d_buffer_init b0 device desc data c2 ops) as [[hr1 b1] c3] eqn:I.
    destruct hr1; cbn [SUCCEEDED]; try discriminate.
    intros [= <- <- <-].
    destruct data as [d |].
    - destruct (wined3d_buffer_init_with_data _ _ _ _ _ _ _ _ I)
        as (bytes & b2 & c4 & _ & I0 & D).
      apply wined3d_buffer_init_data_fit in D. apply D.
      eapply Plain; eauto.
    - eapply Plain; eauto. }
  destruct (adapter_buffer_ops device).
  - apply Init; reflexivity.
  - apply Init; branches; reflexivity.
  - destruct (_ && _); [discriminate |]. apply Init; branches; reflexivity.
Qed.

(** X24.  The array of dirty ranges never overflows: for a buffer that
    [wined3d_buffer_create] has created, with or without initial
    contents, after any sequence of the operations of the file, in any
    contexts, the number of ranges in use is at most the capacity of the
    array, and the array has room for the range that stands for the
    whole buffer. *)
Theorem dirty_ranges_fit device desc data c hr b c' ops :
  wined3d_buffer_create device desc data c = (hr, Some b, c') ->
  let b' := run_ops ops b in
  1 <= maps_size b' /\ modified_areas b' <= maps_size b'.
Proof.
  intros Cr. apply wined3d_buffer_create_fit in Cr.
  change (maps_fit (run_ops ops b)). revert b Cr.
  induction ops as [| [op c0] ops IH]; intros b Fit; cbn [run_ops]; [exact Fit |].
  apply IH. now apply run_op_fit.
Qed.

Lemma dirty_ranges_fit_witness :
  let desc := sample_desc 0 in
  let data := mk_sub_resource_data (Some (replicate 64 0xff)) 64 64 in
  let r := wined3d_buffer_create sample_device desc (Some data) sample_context in
  let b' :=
    run_ops
      [(op_map 0 (mk_box 0 16) (Z.lor WINED3D_MAP_WRITE WINED3D_MAP_NOOVERWRITE),
        sample_context);
       (op_map 0 (mk_box 16 32) (Z.lor WINED3D_MAP_WRITE WINED3D_MAP_NOOVERWRITE),
        sample_context);
       (op_unmap 0, sample_context);
       (op_load None, sample_context)] (default zero_buffer (snd (fst r))) in
  1 <= maps_size b' /\ modified_areas b' <= maps_size b'.
Proof.
  intros desc data r.
  apply (dirty_ranges_fit sample_device desc (Some data) sample_context (fst (fst r))
           (default zero_buffer (snd (fst r))) (snd r)).
  vm_compute. reflexivity.
Defined.

End MapsFit.

(** * What no operation changes *)

Section Description.

Implicit Types (b : wined3d_buffer) (c : wined3d_context).

(** X25.  No sequence of operations on a live buffer (validating,
    invalidating and loading locations, per-draw loads, preloads,
    unloads, maps, unmaps, copies), in whatever contexts, changes the
    size, the usage or the table of operations of the buffer, and none
    sets WINED3D_BUFFER_USE_BO when it was clear. *)
Theorem operations_keep_description ops b :
  let b' := run_ops ops b in
  size (resource b') = size (resource b)
  /\ usage (resource b') = usage (resource b)
  /\ buffer_ops b' = buffer_ops b
  /\ (use_bo b' = true -> use_bo b = true).
Proof.
  intros b'. subst b'. revert b.
  induction ops as [| [op c] ops IH]; intros b; cbn [run_ops]; [auto |].
  destruct (IH (fst (run_op op b c))) as (Sz & Us & Ops & Ub).
  destruct (run_op_kept op b c) as [Sz' Us' Ops' Ub'].
  repeat split; try congruence. auto.
Qed.

End Description.

(** * Binding points and Vulkan flags *)

Section Flags.

(** X26.  The OpenGL binding point of a buffer: without bind flags it is
    GL_PIXEL_UNPACK_BUFFER, and only then; a buffer that may be used as an
    index buffer binds to GL_ELEMENT_ARRAY_BUFFER whatever its other
    flags, and only such a buffer does; GL_TEXTURE_BUFFER and
    GL_DRAW_INDIRECT_BUFFER are only returned when the extension is
    supported. *)
Theorem gl_binding_from_bind_flags gl_info bind_flags_ :
  let binding := wined3d_buffer_gl_binding_from_bind_flags gl_info bind_flags_ in
  (binding = GL_PIXEL_UNPACK_BUFFER <-> bind_flags_ = 0)
  /\ (binding = GL_ELEMENT_ARRAY_BUFFER
      <-> test bind_flags_ WINED3D_BIND_INDEX_BUFFER = true)
  /\ (binding = GL_TEXTURE_BUFFER -> ARB_TEXTURE_BUFFER_OBJECT gl_info = true)
  /\ (binding = GL_DRAW_INDIRECT_BUFFER -> ARB_DRAW_INDIRECT gl_info = true).
Proof.
  intros binding. subst binding. unfold wined3d_buffer_gl_binding_from_bind_flags.
  destruct (Z.eqb_spec bind_flags_ 0) as [-> | Nz].
  - change (test 0 WINED3D_BIND_INDEX_BUFFER) with false.
    repeat split; intros; auto; discriminate.
  - destruct (test bind_flags_ WINED3D_BIND_INDEX_BUFFER).
    { repeat split; intros; auto; try discriminate; congruence. }
    destruct (ARB_TEXTURE_BUFFER_OBJECT gl_info), (ARB_DRAW_INDIRECT gl_info);
      rewrite ?andb_true_r, ?andb_false_r;
      repeat (match goal with
              | |- context [if test ?x ?m then _ else _] => destruct (test x m)
              end);
      repeat split; intros; auto; try discriminate; congruence.
Qed.

(** X27.  The Vulkan usage of a buffer always allows transfers in both
    directions, holds the usage bit of each of the seven bind flags
    exactly when that bind flag is set, and holds no other bit. *)
Theorem vk_buffer_usage_bits bind_flags_ :
  let usage_ := vk_buffer_usage_from_bind_flags bind_flags_ in
  test usage_ VK_BUFFER_USAGE_TRANSFER_SRC_BIT = true
  /\ test usage_ VK_BUFFER_USAGE_TRANSFER_DST_BIT = true
  /\ test usage_ VK_BUFFER_USAGE_VERTEX_BUFFER_BIT
     = test bind_flags_ WINED3D_BIND_VERTEX_BUFFER
  /\ test usage_ VK_BUFFER_USAGE_INDEX_BUFFER_BIT
     = test bind_flags_ WINED3D_BIND_INDEX_BUFFER
  /\ test usage_ VK_BUFFER_USAGE_UNIFORM_BUFFER_BIT
     = test bind_flags_ WINED3D_BIND_CONSTANT_BUFFER
  /\ test usage_ VK_BUFFER_USAGE_UNIFORM_TEXEL_BUFFER_BIT
     = test bind_flags_ WINED3D_BIND_SHADER_RESOURCE
  /\ test usage_ VK_BUFFER_USAGE_TRANSFORM_FEEDBACK_BUFFER_BIT_EXT
     = test bind_flags_ WINED3D_BIND_STREAM_OUTPUT
  /\ test usage_ VK_BUFFER_USAGE_STORAGE_TEXEL_BUFFER_BIT
     = test bind_flags_ WINED3D_BIND_UNORDERED_ACCESS
  /\ test usage_ VK_BUFFER_USAGE_INDIRECT_BUFFER_BIT
     = test bind_flags_ WINED3D_BIND_INDIRECT_BUFFER
  /\ Z.land usage_ 0x9df = usage_.
Proof.
  intros usage_. subst usage_. unfold vk_buffer_usage_from_bind_flags.
  destruct (test bind_flags_ WINED3D_BIND_VERTEX_BUFFER),
    (test bind_flags_ WINED3D_BIND_INDEX_BUFFER),
    (test bind_flags_ WINED3D_BIND_CONSTANT_BUFFER),
    (test bind_flags_ WINED3D_BIND_SHADER_RESOURCE),
    (test bind_flags_ WINED3D_BIND_STREAM_OUTPUT),
    (test bind_flags_ WINED3D_BIND_UNORDERED_ACCESS),
    (test bind_flags_ WINED3D_BIND_INDIRECT_BUFFER);
    vm_compute; repeat split; reflexivity.
Qed.

(** X28.  The Vulkan memory type of a buffer: device-local exactly when
    the buffer can be mapped neither for reading nor for writing and is
    not dynamic; host-visible exactly when it can be mapped; host-cached
    exactly when it can be mapped for reading.  Device-local and
    host-visible are never asked for together. *)
Theorem vk_memory_type_exclusive access_ usage_ :
  let memory_type := vk_memory_type_from_access_flags access_ usage_ in
  let map_r := test access_ WINED3D_RESOURCE_ACCESS_MAP_R in
  let map_w := test access_ WINED3D_RESOURCE_ACCESS_MAP_W in
  test memory_type VK_MEMORY_PROPERTY_DEVICE_LOCAL_BIT
  = negb map_r && negb map_w && negb (test usage_ WINED3DUSAGE_DYNAMIC)
  /\ test memory_type VK_MEMORY_PROPERTY_HOST_VISIBLE_BIT = map_r || map_w
  /\ test memory_type VK_MEMORY_PROPERTY_HOST_CACHED_BIT = map_r
  /\ test memory_type VK_MEMORY_PROPERTY_DEVICE_LOCAL_BIT
     && test memory_type VK_MEMORY_PROPERTY_HOST_VISIBLE_BIT = false.
Proof.
  intros memory_type map_r map_w. subst memory_type map_r map_w.
  unfold vk_memory_type_from_access_flags.
  destruct (test access_ WINED3D_RESOURCE_ACCESS_MAP_R),
    (test access_ WINED3D_RESOURCE_ACCESS_MAP_W),
    (test usage_ WINED3DUSAGE_DYNAMIC);
    vm_compute; repeat split; reflexivity.
Qed.

End Flags.

(** * The licensing stubs *)

Section Licensing.

Ltac licensing :=
  repeat (split; intros);
  repeat match goal with
         | H : _ /\ _ |- _ => destruct H
         | H : exists _, _ |- _ => destruct H
         | H : _ \/ _ |- _ => destruct H
         | H : Some _ = Some _ |- _ => injection H as H
         end;
  subst; try discriminate; try contradiction; try congruence;
  try (eexists; repeat split; eauto; congruence); auto.

(** X29.  [SLGetPolicyInformationDWORD] returns S_OK exactly when the
    handle, the name and the result pointer are not null, the name is not
    empty, and [NtQueryLicenseValue] succeeds with a value of type
    REG_DWORD.  It returns E_INVALIDARG exactly when one of the three
    arguments is null, whatever the license store answers, and a name
    that the store does not know gives SL_E_VALUE_NOT_FOUND. *)
Theorem SLGetPolicyInformationDWORD_result query handle policyName ret :
  let hr := sppc.SLGetPolicyInformationDWORD query handle policyName ret in
  (hr = sppc.S_OK
   <-> handle <> 0 /\ ret = true
       /\ exists name,
            policyName = Some name /\ name <> []
            /\ sppc.answer_status (query name) = sppc.STATUS_SUCCESS
            /\ sppc.answer_type (query name) = sppc.REG_DWORD)
  /\ (hr = sppc.E_INVALIDARG <-> handle = 0 \/ policyName = None \/ ret = false)
  /\ (forall name,
        handle <> 0 -> ret = true -> policyName = Some name -> name <> [] ->
        sppc.answer_status (query name) = sppc.STATUS_OBJECT_NAME_NOT_FOUND ->
        hr = sppc.SL_E_VALUE_NOT_FOUND).
Proof.
  intros hr. subst hr. unfold sppc.SLGetPolicyInformationDWORD, sppc.STATUS_SUCCESS.
  destruct policyName as [name |]; [| licensing].
  destruct (Z.eqb_spec handle 0) as [H0 | H0]; cbn [orb]; [licensing |].
  destruct ret; cbn [negb]; [| licensing].
  destruct name as [| ch name]; [licensing |].
  cbv zeta.
  destruct (Z.eqb_spec (sppc.answer_status (query (ch :: name)))
              sppc.STATUS_OBJECT_NAME_NOT_FOUND) as [Nf | Nf].
  { assert (sppc.answer_status (query (ch :: name)) <> 0) as N0
      by (rewrite Nf; discriminate).
    licensing. }
  destruct (Z.eqb_spec (sppc.answer_status (query (ch :: name))) 0) as [S0 | S0];
    cbn [orb negb andb].
  - destruct (Z.eqb_spec (sppc.answer_type (query (ch :: name))) sppc.REG_DWORD)
      as [T | T]; cbn [negb]; licensing.
  - destruct (_ && _); licensing.
Qed.

End Licensing.

(** * Pinned host memory *)

Section Pinned.

Implicit Types (b : wined3d_buffer) (c : wined3d_context).

Lemma buffer_invalidate_bo_range_resource b c offset size_ b' c' :
  buffer_invalidate_bo_range b c offset size_ = (b', c') -> resource b' = resource b.
Proof.
  unfold buffer_invalidate_bo_range, wined3d_array_reserve.
  branches; now intros [= <- <-].
Qed.

Lemma wined3d_buffer_invalidate_range_resource b c location offset size_ b' c' :
  wined3d_buffer_invalidate_range b c location offset size_ = (b', c') ->
  resource b' = resource b.
Proof.
  unfold wined3d_buffer_invalidate_range.
  destruct (test location WINED3D_LOCATION_BUFFER).
  - destruct (buffer_invalidate_bo_range b c offset size_) as [b1 c1] eqn:E.
    apply buffer_invalidate_bo_range_resource in E. now intros [= <- <-].
  - now intros [= <- <-].
Qed.

(** X30.  Buffers with pinned host memory (software vertex processing,
    managed buffers) return the same pointer from every map and retain
    their data in DISCARD maps: when the host memory of such a buffer is
    valid and the buffer is not mapped through a buffer object, a map with
    any flags succeeds, returns the host memory at the left edge of the
    box, and leaves the host memory as it was, still pinned and valid. *)
Theorem pinned_buffer_map b c idx box flags_ hr p b' c' :
  buffer_resource_sub_resource_map b c idx box flags_ = (hr, p, b', c') ->
  pin_sysmem (resource b) = true ->
  test (locations b) WINED3D_LOCATION_SYSMEM = true ->
  map_ptr b = 0 ->
  hr = WINED3D_OK
  /\ p = Some (pointer_heap_memory (left box))
  /\ heap_memory (resource b') = heap_memory (resource b)
  /\ pin_sysmem (resource b') = true
  /\ test (locations b') WINED3D_LOCATION_SYSMEM = true
  /\ map_ptr b' = 0.
Proof.
  intros M Pin V Mp. apply buffer_resource_sub_resource_map_exit in M.
  assert (map_through_sysmem b flags_ = true) as Fast.
  { unfold map_through_sysmem. rewrite Pin. now rewrite orb_true_r. }
  inversion M as [b1 c1 b2 c2 _ S1 S2 | b1 c1 Slow _ _
                 | b1 c1 b2 c2 b3 c3 b4 c4 Slow _ _ _ _]; subst;
    try congruence.
  rewrite V in S1. cbn [negb] in S1. inversion S1; subst. clear S1.
  assert (resource b' = resource (count_map b) /\ map_ptr b' = 0
          /\ test (locations b') WINED3D_LOCATION_SYSMEM = true) as (R & Mp' & V').
  { revert S2. destruct (test flags_ WINED3D_MAP_WRITE).
    - intros I. pose proof (wined3d_buffer_invalidate_range_frame _ _ _ _ _ _ _ I) as F.
      pose proof (wined3d_buffer_invalidate_range_locations _ _ _ _ _ _ _ I) as L.
      apply wined3d_buffer_invalidate_range_resource in I.
      repeat split; auto.
      + now rewrite (frame_map_ptr _ _ F).
      + rewrite L. change (not32 (not32 WINED3D_LOCATION_SYSMEM)) with (2 ^ 1).
        change (locations (count_map b)) with (locations b).
        apply test_true.
        rewrite (test_land_pow2 (locations b) 1 ltac:(lia) V).
        change WINED3D_LOCATION_SYSMEM with (2 ^ 1).
        rewrite Z.land_diag. discriminate.
    - intros E. inversion E; subst. auto. }
  unfold returned_pointer. rewrite Mp', R. cbn. repeat split; assumption || reflexivity.
Qed.

Lemma pinned_buffer_map_witness :
  let r :=
    buffer_resource_sub_resource_map sample_managed_buffer sample_context 0
      (mk_box 8 16) (Z.lor WINED3D_MAP_WRITE WINED3D_MAP_DISCARD) in
  fst (fst (fst r)) = WINED3D_OK
  /\ snd (fst (fst r)) = Some (pointer_heap_memory (left (mk_box 8 16)))
  /\ heap_memory (resource (snd (fst r))) = heap_memory (resource sample_managed_buffer)
  /\ pin_sysmem (resource (snd (fst r))) = true
  /\ test (locations (snd (fst r))) WINED3D_LOCATION_SYSMEM = true
  /\ map_ptr (snd (fst r)) = 0.
Proof.
  intros r.
  apply (pinned_buffer_map sample_managed_buffer sample_context 0 (mk_box 8 16)
           (Z.lor WINED3D_MAP_WRITE WINED3D_MAP_DISCARD)
           (fst (fst (fst r))) (snd (fst (fst r))) (snd (fst r)) (snd r)).
  - vm_compute. reflexivity.
  - reflexivity.
  - reflexivity.
  - reflexivity.
Defined.

End Pinned.
